(** * Neo <-> NIX mapping: a shallow embedding of the two writers/readers

    The repository holds two implementations of the mapping between the
    Neo object model and NIX containers:

    - [Neonix]  embeds [neonix/io/nixio.py]  (class [NixIO], the path
      addressed writer and reader with name mediation);
    - [Neo2nix] embeds [neo2nix/nixio.py]    (class [NixIO] with the
      [file_transaction] decorator and get-or-create writes).

    Definitions come first, the statements about them afterwards. *)

From Stdlib Require Import Ascii String QArith Qround.
From stdpp Require Import base option list strings pretty gmap.

Set Warnings "-register-all".
Local Open Scope string_scope.
Local Open Scope nat_scope.
Local Open Scope list_scope.

(** ** Python strings and built-ins used by both writers *)

Module Py.

(** [s.split(sep)] for a one-character separator. *)
Fixpoint split (sep : ascii) (s : string) : list string :=
  match s with
  | EmptyString => [EmptyString]
  | String a s' =>
      if Ascii.eqb a sep then EmptyString :: split sep s'
      else match split sep s' with
           | [] => [String a EmptyString]
           | w :: ws => String a w :: ws
           end
  end.

(** [sep.join(l)]. *)
Fixpoint join (sep : string) (l : list string) : string :=
  match l with
  | [] => EmptyString
  | [x] => x
  | x :: xs => x +:+ sep +:+ join sep xs
  end.

(** [s.split(sep)[0]] for a non-empty separator: what precedes the
    first occurrence of [sep], all of [s] when there is none. *)
Fixpoint split_head (sep s : string) : string :=
  if String.prefix sep s then EmptyString
  else match s with
       | EmptyString => EmptyString
       | String a s' => String a (split_head sep s')
       end.

(** [s[:-1]]. *)
Definition drop_last_char (s : string) : string :=
  String.substring 0 (String.length s - 1) s.

(** [l[:-n]]. *)
Definition drop_last {A} (n : nat) (l : list A) : list A :=
  take (length l - n) l.

(** [l[-1]] and [l[-2]]; [None] stands for [IndexError]. *)
Definition last1 {A} (l : list A) : option A := last l.
Definition last2 {A} (l : list A) : option A :=
  match length l with
  | S (S n) => l !! n
  | _ => None
  end.

(** [s.lower()] on ASCII letters. *)
Definition lower_ascii (a : ascii) : ascii :=
  let n := nat_of_ascii a in
  if (65 <=? n) && (n <=? 90) then ascii_of_nat (n + 32) else a.

Fixpoint lower (s : string) : string :=
  match s with
  | EmptyString => EmptyString
  | String a s' => String (lower_ascii a) (lower s')
  end.

(** [str(n)] / ["{}".format(n)] for a non-negative integer. *)
Definition str_nat (n : nat) : string := pretty n.

(** [x in names] for a container queried by name. *)
Definition contains (names : list string) (x : string) : bool :=
  bool_decide (x ∈ names).

(** Truthiness of an optional string ([None] and [""] are falsy). *)
Definition truthy_str (s : option string) : bool :=
  match s with
  | Some (String _ _) => true
  | _ => false
  end.

(** Outcome of running a piece of Python: a value, a raised exception,
    or a loop that never ends. *)
Inductive exn :=
  | KeyError | AttributeError | IndexError | AssertionError
  | TypeError | NameError | RecursionError.

Inductive outcome (A : Type) :=
  | Ok (a : A)
  | Raise (e : exn)
  | Diverge.
Arguments Ok {A} a.
Arguments Raise {A} e.
Arguments Diverge {A}.

#[global] Instance exn_eq_dec : EqDecision exn.
Proof. solve_decision. Defined.

(** Numbers are compared as stored (structurally). *)
#[global] Instance Q_eq_dec : EqDecision Q.
Proof. solve_decision. Defined.

End Py.

(** ** neonix/io/nixio.py *)

Module Neonix.
Import Py.

(** *** Quantities, timestamps and annotation values *)

(** A scalar [pq.Quantity] and a one-dimensional quantity array.  Numbers
    are carried as rationals: the mapping stores and retrieves them and
    performs no arithmetic of its own. *)
Record Quantity := { magnitude : Q; q_units : string }.
Record QuantityArray := { magnitudes : list Q; qa_units : string }.

(** The [quantities] package is an external collaborator: unit
    simplification and rescaling are taken as an interface. *)
Class Quantities := {
  simplified : string → string;
  rescale : Quantity → option string → Q
}.

(** [bool(q)] of a scalar quantity: non-zero magnitude. *)
Definition truthy_quantity (q : Quantity) : bool :=
  negb (Qnum (magnitude q) =? 0)%Z.

(** A [datetime]: whole seconds since the epoch plus the sub-second part. *)
Record datetime := { dt_seconds : Z; dt_microsecond : Z }.

(** [calculate_timestamp(dt) = int(time.mktime(dt.timetuple()))]:
    the time tuple has no sub-second field. *)
Definition calculate_timestamp (dt : datetime) : Z := dt_seconds dt.

(** [datetime.fromtimestamp(ts)] for an integer [ts]. *)
Definition fromtimestamp (ts : Z) : datetime :=
  {| dt_seconds := ts; dt_microsecond := 0 |}.

Inductive number := NInt (z : Z) | NFloat (q : Q) | NBool (b : bool).

(** Python values found in an annotation dictionary. *)
Inductive pyval :=
  | PQuantity (q : Quantity)
  | PDatetime (dt : datetime)
  | PStr (s : string)
  | PBytes (s : string)
  | PIter (items : list pyval)
  | PNumpy (n : number)
  | PNumber (n : number).

(** [nixio.Value]. *)
Inductive Value := VInt (z : Z) | VFloat (q : Q) | VBool (b : bool) | VStr (s : string).

Definition value_of_number (n : number) : Value :=
  match n with NInt z => VInt z | NFloat q => VFloat q | NBool b => VBool b end.

(** What [_to_value] hands to [create_property]: one [Value] or a list
    of them ([None] is the [option] around it). *)
Inductive prop_value := Single (v : Value) | Multi (vs : list Value).

(** [isinstance(v, Iterable)]. *)
Definition is_iterable (v : pyval) : bool :=
  match v with
  | PQuantity _ | PStr _ | PBytes _ | PIter _ => true
  | _ => false
  end.

(** [nixio.Value(item)] / [nixio.Value(item.item())] on a loop item. *)
Definition item_value (item : pyval) : outcome Value :=
  match item with
  | PNumpy n | PNumber n => Ok (value_of_number n)
  | PStr s | PBytes s => Ok (VStr s)
  | _ => Raise TypeError
  end.

Definition warn_quantity : string :=
  "Quantities in annotations are not currently supported when writing to NIX.".
Definition warn_nested : string :=
  "Multidimensional arrays and nested containers are not currently supported when writing to NIX.".

(** The [for item in v] loop of [_to_value]; [v] is the value being
    converted (the loop tests [isinstance(v, Iterable)], on [v]) and
    [vv] the list built so far.  The result is [None] for the early
    [return None], else the final [vv]. *)
Fixpoint to_value_loop (v : pyval) (items : list pyval) (vv : list Value)
  : list string * outcome (option (list Value)) :=
  match items with
  | [] => ([], Ok (Some vv))
  | item :: rest =>
      if is_iterable v then ([warn_nested], Ok None)
      else match item_value item with
           | Ok x => to_value_loop v rest (vv ++ [x])
           | Raise e => ([], Raise e)
           | Diverge => ([], Diverge)
           end
  end.

(** [NixIO._to_value(v)]: the warnings issued and the returned object. *)
Definition _to_value (v : pyval) : list string * outcome (option prop_value) :=
  match v with
  | PQuantity _ => ([warn_quantity], Ok None)
  | PDatetime dt => ([], Ok (Some (Single (VInt (calculate_timestamp dt)))))
  | PStr s => ([], Ok (Some (Single (VStr s))))
  | PBytes s => ([], Ok (Some (Single (VStr s))))
  | PIter items =>
      match to_value_loop v items [] with
      | (w, Ok None) => (w, Ok None)
      | (w, Ok (Some vv)) =>
          (w, Ok (if length vv =? 0 then None else Some (Multi vv)))
      | (w, Raise e) => (w, Raise e)
      | (w, Diverge) => (w, Diverge)
      end
  | PNumpy n => ([], Ok (Some (Single (value_of_number n))))
  | PNumber n => ([], Ok (Some (Single (value_of_number n))))
  end.

(** *** The Neo object model (the fields the mapping reads) *)

Inductive neo_kind :=
  | Block | Segment | RecordingChannelGroup | AnalogSignal
  | IrregularlySampledSignal | Epoch | Event | SpikeTrain | Unit.

#[global] Instance neo_kind_eq_dec : EqDecision neo_kind.
Proof. solve_decision. Defined.

(** [type(neo_obj).__name__]. *)
Definition type_name (k : neo_kind) : string :=
  match k with
  | Block => "Block" | Segment => "Segment"
  | RecordingChannelGroup => "RecordingChannelGroup"
  | AnalogSignal => "AnalogSignal"
  | IrregularlySampledSignal => "IrregularlySampledSignal"
  | Epoch => "Epoch" | Event => "Event" | SpikeTrain => "SpikeTrain"
  | Unit => "Unit"
  end.

(** Attributes every Neo object carries; [ident] is [id(obj)]. *)
Record neo_base := {
  ident : nat;
  name : option string;
  description : option string;
  file_origin : option string;
  annotations : list (string * pyval)
}.

(** A signal's payload is kept as the list of its channel columns, the
    rows of [signal.transpose()]. *)
Record analogsignal := {
  as_base : neo_base;
  as_signal : list (list Q);
  as_units : string;
  as_t_start : Quantity;
  as_sampling_period : Quantity
}.

Record irregularlysampledsignal := {
  is_base : neo_base;
  is_signal : list (list Q);
  is_units : string;
  is_times : QuantityArray
}.

Record epoch := {
  ep_base : neo_base;
  ep_times : QuantityArray;
  ep_durations : QuantityArray;
  ep_labels : list string
}.

Record event := {
  ev_base : neo_base;
  ev_times : QuantityArray;
  ev_labels : list string
}.

Record spiketrain := {
  st_base : neo_base;
  st_times : QuantityArray;
  st_t_start : Quantity;
  st_t_stop : Quantity;
  st_waveforms : option (list (list (list Q)) * string);
  st_sampling_period : Quantity;
  st_left_sweep : option Quantity
}.

(** A Unit refers to spike trains that live in segments: only their
    identity is used by the writer. *)
Record unit_ := {
  un_base : neo_base;
  un_spiketrains : list nat
}.

Record recordingchannelgroup := {
  rcg_base : neo_base;
  rcg_channel_indexes : list Z;
  rcg_channel_names : list string;
  rcg_coordinates : option (list (list Quantity));
  rcg_units : list unit_;
  rcg_analogsignals : list nat;
  rcg_irregularlysampledsignals : list nat
}.

Record segment := {
  seg_base : neo_base;
  seg_rec_datetime : option datetime;
  seg_file_datetime : option datetime;
  seg_analogsignals : list analogsignal;
  seg_irregularlysampledsignals : list irregularlysampledsignal;
  seg_epochs : list epoch;
  seg_events : list event;
  seg_spiketrains : list spiketrain
}.

Record block := {
  blk_base : neo_base;
  blk_rec_datetime : option datetime;
  blk_file_datetime : option datetime;
  blk_segments : list segment;
  blk_recordingchannelgroups : list recordingchannelgroup
}.

(** What [_neo_attr_to_nix] reads from any Neo object. *)
Record neo_obj := {
  no_kind : neo_kind;
  no_base : neo_base;
  no_rec_datetime : option datetime;
  no_file_datetime : option datetime
}.

Definition plain (k : neo_kind) (b : neo_base) : neo_obj :=
  {| no_kind := k; no_base := b; no_rec_datetime := None; no_file_datetime := None |}.

Definition obj_of_block (b : block) : neo_obj :=
  {| no_kind := Block; no_base := blk_base b;
     no_rec_datetime := blk_rec_datetime b; no_file_datetime := blk_file_datetime b |}.
Definition obj_of_segment (s : segment) : neo_obj :=
  {| no_kind := Segment; no_base := seg_base s;
     no_rec_datetime := seg_rec_datetime s; no_file_datetime := seg_file_datetime s |}.

(** *** Name mediation and the attribute record: [_neo_attr_to_nix] *)

(** The dictionary returned by [_neo_attr_to_nix]; an absent key is [None]. *)
Record nix_attrs := {
  a_name : string;
  a_type : string;
  a_definition : option string;
  a_created_at : option datetime;
  a_file_datetime : option datetime;
  a_file_origin : option string;
  a_annotations : option (list (string * pyval))
}.

Definition nix_basename (k : neo_kind) (nm : option string) : string :=
  if truthy_str nm then default "" nm else "neo." +:+ type_name k.

Definition is_signal_kind (k : neo_kind) : bool :=
  match k with AnalogSignal | IrregularlySampledSignal => true | _ => false end.

Definition suffix (k : neo_kind) : string :=
  if is_signal_kind k then ".0" else "".

(** ["{}-{}".format(nix_basename, idx)]. *)
Definition indexed_name (base : string) (idx : nat) : string :=
  base +:+ "-" +:+ str_nat idx.

(** The [while nix_name+suffix in container] loop, entered with
    [nix_name = indexed_name base idx]; [None] when the fuel runs out. *)
Fixpoint name_loop (fuel : nat) (base sfx : string) (container : list string)
    (idx : nat) : option string :=
  match fuel with
  | 0 => None
  | S fuel' =>
      if contains container (indexed_name base idx +:+ sfx)
      then name_loop fuel' base sfx container (S idx)
      else Some (indexed_name base idx)
  end.

(** The name chosen for a Neo object of kind [k] and name [nm] among
    the sibling names [container]. *)
Definition nix_name (k : neo_kind) (nm : option string) (container : list string)
  : option string :=
  let base := nix_basename k nm in
  if negb (contains container (base +:+ suffix k)) then Some base
  else name_loop (S (length container)) base (suffix k) container 1.

Definition _neo_attr_to_nix (o : neo_obj) (container : list string)
  : outcome nix_attrs :=
  let k := no_kind o in
  let b := no_base o in
  match nix_name k (name b) container with
  | None => Diverge
  | Some nm =>
      let is_bs := match k with Block | Segment => true | _ => false end in
      Ok {| a_name := nm;
            a_type := "neo." +:+ lower (type_name k);
            a_definition := description b;
            a_created_at := if is_bs then no_rec_datetime o else None;
            a_file_datetime := if is_bs then no_file_datetime o else None;
            a_file_origin :=
              if truthy_str (file_origin b) then file_origin b else None;
            a_annotations :=
              match annotations b with [] => None | l => Some l end |}
  end.

(** *** The NIX file: a store of typed objects

    NIX objects are shared: a Group lists DataArrays and MultiTags that
    belong to its Block, several DataArrays may point at one metadata
    Section, MultiTags and DataArrays list Sources.  Objects therefore
    live in per-type tables of the file and refer to each other by
    their index in the table (their handle). *)

Record Property := { prop_name : string; prop_values : list Value }.

Record Section := {
  sec_name : string;
  sec_type : string;
  sec_props : list Property;
  sec_sections : list nat
}.

Inductive Dimension :=
  | SampledDimension (sampling_interval : Q) (unit : option string)
      (label : option string) (offset : option Q)
  | RangeDimension (ticks : list Q) (unit : option string) (label : option string)
  | SetDimension (labels : list string).

Inductive ndarray :=
  | Arr1 (d : list Q)
  | Arr3 (d : list (list (list Q))).

Record DataArray := {
  da_name : string;
  da_type : string;
  da_definition : option string;
  da_unit : option string;
  da_data : ndarray;
  da_dimensions : list Dimension;
  da_metadata : option nat;
  da_sources : list nat
}.

Record MultiTag := {
  mt_name : string;
  mt_type : string;
  mt_definition : option string;
  mt_positions : nat;
  mt_extents : option nat;
  mt_references : list nat;
  mt_features : list nat;
  mt_metadata : option nat;
  mt_sources : list nat
}.

Record Source := {
  src_name : string;
  src_type : string;
  src_definition : option string;
  src_metadata : option nat;
  src_sources : list nat
}.

Record Group := {
  grp_name : string;
  grp_type : string;
  grp_definition : option string;
  grp_created_at : Z;
  grp_metadata : option nat;
  grp_data_arrays : list nat;
  grp_multi_tags : list nat
}.

Record NixBlock := {
  nb_name : string;
  nb_type : string;
  nb_definition : option string;
  nb_created_at : Z;
  nb_metadata : option nat;
  nb_groups : list nat;
  nb_data_arrays : list nat;
  nb_multi_tags : list nat;
  nb_sources : list nat
}.

(** [now] is the clock reading a new object gets as [created_at]. *)
Record File := {
  now : Z;
  blocks : list nat;
  sections : list nat;
  h_blocks : list NixBlock;
  h_groups : list Group;
  h_data_arrays : list DataArray;
  h_multi_tags : list MultiTag;
  h_sources : list Source;
  h_sections : list Section
}.

Definition empty_file (t : Z) : File :=
  {| now := t; blocks := []; sections := []; h_blocks := []; h_groups := [];
     h_data_arrays := []; h_multi_tags := []; h_sources := []; h_sections := [] |}.

(** Table updates. *)
Definition with_blocks (f : File) (l : list nat) (h : list NixBlock) : File :=
  {| now := now f; blocks := l; sections := sections f; h_blocks := h;
     h_groups := h_groups f; h_data_arrays := h_data_arrays f;
     h_multi_tags := h_multi_tags f; h_sources := h_sources f;
     h_sections := h_sections f |}.
Definition with_h_blocks (f : File) (h : list NixBlock) : File :=
  with_blocks f (blocks f) h.
Definition with_h_groups (f : File) (h : list Group) : File :=
  {| now := now f; blocks := blocks f; sections := sections f; h_blocks := h_blocks f;
     h_groups := h; h_data_arrays := h_data_arrays f;
     h_multi_tags := h_multi_tags f; h_sources := h_sources f;
     h_sections := h_sections f |}.
Definition with_h_data_arrays (f : File) (h : list DataArray) : File :=
  {| now := now f; blocks := blocks f; sections := sections f; h_blocks := h_blocks f;
     h_groups := h_groups f; h_data_arrays := h;
     h_multi_tags := h_multi_tags f; h_sources := h_sources f;
     h_sections := h_sections f |}.
Definition with_h_multi_tags (f : File) (h : list MultiTag) : File :=
  {| now := now f; blocks := blocks f; sections := sections f; h_blocks := h_blocks f;
     h_groups := h_groups f; h_data_arrays := h_data_arrays f;
     h_multi_tags := h; h_sources := h_sources f;
     h_sections := h_sections f |}.
Definition with_h_sources (f : File) (h : list Source) : File :=
  {| now := now f; blocks := blocks f; sections := sections f; h_blocks := h_blocks f;
     h_groups := h_groups f; h_data_arrays := h_data_arrays f;
     h_multi_tags := h_multi_tags f; h_sources := h;
     h_sections := h_sections f |}.
Definition with_sections (f : File) (l : list nat) (h : list Section) : File :=
  {| now := now f; blocks := blocks f; sections := l; h_blocks := h_blocks f;
     h_groups := h_groups f; h_data_arrays := h_data_arrays f;
     h_multi_tags := h_multi_tags f; h_sources := h_sources f;
     h_sections := h |}.
Definition with_h_sections (f : File) (h : list Section) : File :=
  with_sections f (sections f) h.

(** Field updates of single objects. *)
Definition nb_with (b : NixBlock) (defn : option string) (created : Z)
    (md : option nat) (gs das mts srcs : list nat) : NixBlock :=
  {| nb_name := nb_name b; nb_type := nb_type b; nb_definition := defn;
     nb_created_at := created; nb_metadata := md; nb_groups := gs;
     nb_data_arrays := das; nb_multi_tags := mts; nb_sources := srcs |}.
Definition nb_set_definition d b :=
  nb_with b d (nb_created_at b) (nb_metadata b) (nb_groups b) (nb_data_arrays b) (nb_multi_tags b) (nb_sources b).
Definition nb_set_created_at t b :=
  nb_with b (nb_definition b) t (nb_metadata b) (nb_groups b) (nb_data_arrays b) (nb_multi_tags b) (nb_sources b).
Definition nb_set_metadata m b :=
  nb_with b (nb_definition b) (nb_created_at b) m (nb_groups b) (nb_data_arrays b) (nb_multi_tags b) (nb_sources b).
Definition nb_add_group g b :=
  nb_with b (nb_definition b) (nb_created_at b) (nb_metadata b) (nb_groups b ++ [g]) (nb_data_arrays b) (nb_multi_tags b) (nb_sources b).
Definition nb_add_data_array d b :=
  nb_with b (nb_definition b) (nb_created_at b) (nb_metadata b) (nb_groups b) (nb_data_arrays b ++ [d]) (nb_multi_tags b) (nb_sources b).
Definition nb_add_multi_tag t b :=
  nb_with b (nb_definition b) (nb_created_at b) (nb_metadata b) (nb_groups b) (nb_data_arrays b) (nb_multi_tags b ++ [t]) (nb_sources b).
Definition nb_add_source s b :=
  nb_with b (nb_definition b) (nb_created_at b) (nb_metadata b) (nb_groups b) (nb_data_arrays b) (nb_multi_tags b) (nb_sources b ++ [s]).

Definition grp_with (g : Group) (defn : option string) (created : Z)
    (md : option nat) (das mts : list nat) : Group :=
  {| grp_name := grp_name g; grp_type := grp_type g; grp_definition := defn;
     grp_created_at := created; grp_metadata := md; grp_data_arrays := das;
     grp_multi_tags := mts |}.
Definition grp_set_definition d g :=
  grp_with g d (grp_created_at g) (grp_metadata g) (grp_data_arrays g) (grp_multi_tags g).
Definition grp_set_created_at t g :=
  grp_with g (grp_definition g) t (grp_metadata g) (grp_data_arrays g) (grp_multi_tags g).
Definition grp_set_metadata m g :=
  grp_with g (grp_definition g) (grp_created_at g) m (grp_data_arrays g) (grp_multi_tags g).
Definition grp_add_data_array d g :=
  grp_with g (grp_definition g) (grp_created_at g) (grp_metadata g) (grp_data_arrays g ++ [d]) (grp_multi_tags g).
Definition grp_add_multi_tag t g :=
  grp_with g (grp_definition g) (grp_created_at g) (grp_metadata g) (grp_data_arrays g) (grp_multi_tags g ++ [t]).

Definition src_with (s : Source) (defn : option string) (md : option nat)
    (srcs : list nat) : Source :=
  {| src_name := src_name s; src_type := src_type s; src_definition := defn;
     src_metadata := md; src_sources := srcs |}.
Definition src_set_definition d s := src_with s d (src_metadata s) (src_sources s).
Definition src_set_metadata m s := src_with s (src_definition s) m (src_sources s).
Definition src_add_source c s := src_with s (src_definition s) (src_metadata s) (src_sources s ++ [c]).

Definition da_with (a : DataArray) (defn u : option string)
    (dims : list Dimension) (md : option nat) (srcs : list nat) : DataArray :=
  {| da_name := da_name a; da_type := da_type a; da_definition := defn;
     da_unit := u; da_data := da_data a; da_dimensions := dims;
     da_metadata := md; da_sources := srcs |}.
Definition da_set_definition d a :=
  da_with a d (da_unit a) (da_dimensions a) (da_metadata a) (da_sources a).
Definition da_set_unit u a :=
  da_with a (da_definition a) u (da_dimensions a) (da_metadata a) (da_sources a).
Definition da_append_dimension d a :=
  da_with a (da_definition a) (da_unit a) (da_dimensions a ++ [d]) (da_metadata a) (da_sources a).
Definition da_set_metadata m a :=
  da_with a (da_definition a) (da_unit a) (da_dimensions a) m (da_sources a).
Definition da_add_source s a :=
  da_with a (da_definition a) (da_unit a) (da_dimensions a) (da_metadata a) (da_sources a ++ [s]).

Definition mt_with (t : MultiTag) (defn : option string) (ext : option nat)
    (refs feats : list nat) (md : option nat) (srcs : list nat) : MultiTag :=
  {| mt_name := mt_name t; mt_type := mt_type t; mt_definition := defn;
     mt_positions := mt_positions t; mt_extents := ext; mt_references := refs;
     mt_features := feats; mt_metadata := md; mt_sources := srcs |}.
Definition mt_set_definition d t :=
  mt_with t d (mt_extents t) (mt_references t) (mt_features t) (mt_metadata t) (mt_sources t).
Definition mt_set_extents e t :=
  mt_with t (mt_definition t) e (mt_references t) (mt_features t) (mt_metadata t) (mt_sources t).
Definition mt_extend_references r t :=
  mt_with t (mt_definition t) (mt_extents t) (mt_references t ++ r) (mt_features t) (mt_metadata t) (mt_sources t).
Definition mt_add_feature a t :=
  mt_with t (mt_definition t) (mt_extents t) (mt_references t) (mt_features t ++ [a]) (mt_metadata t) (mt_sources t).
Definition mt_set_metadata m t :=
  mt_with t (mt_definition t) (mt_extents t) (mt_references t) (mt_features t) m (mt_sources t).
Definition mt_add_source s t :=
  mt_with t (mt_definition t) (mt_extents t) (mt_references t) (mt_features t) (mt_metadata t) (mt_sources t ++ [s]).

Definition sec_add_prop (p : Property) (s : Section) : Section :=
  {| sec_name := sec_name s; sec_type := sec_type s;
     sec_props := sec_props s ++ [p]; sec_sections := sec_sections s |}.
Definition sec_add_section (c : nat) (s : Section) : Section :=
  {| sec_name := sec_name s; sec_type := sec_type s;
     sec_props := sec_props s; sec_sections := sec_sections s ++ [c] |}.

(** [alter] on a table: update the object behind a handle in place. *)
Definition upd {A} (g : A → A) (i : nat) (h : list A) : list A := alter g i h.

(** A handle to any object a path can name. *)
Inductive obj_ref :=
  | RBlock (i : nat) | RGroup (i : nat) | RDataArray (i : nat)
  | RMultiTag (i : nat) | RSource (i : nat).

#[global] Instance obj_ref_eq_dec : EqDecision obj_ref.
Proof. solve_decision. Defined.

Definition obj_name (f : File) (r : obj_ref) : option string :=
  match r with
  | RBlock i => nb_name <$> h_blocks f !! i
  | RGroup i => grp_name <$> h_groups f !! i
  | RDataArray i => da_name <$> h_data_arrays f !! i
  | RMultiTag i => mt_name <$> h_multi_tags f !! i
  | RSource i => src_name <$> h_sources f !! i
  end.

Definition obj_type (f : File) (r : obj_ref) : option string :=
  match r with
  | RBlock i => nb_type <$> h_blocks f !! i
  | RGroup i => grp_type <$> h_groups f !! i
  | RDataArray i => da_type <$> h_data_arrays f !! i
  | RMultiTag i => mt_type <$> h_multi_tags f !! i
  | RSource i => src_type <$> h_sources f !! i
  end.

Definition obj_definition (f : File) (r : obj_ref) : option (option string) :=
  match r with
  | RBlock i => nb_definition <$> h_blocks f !! i
  | RGroup i => grp_definition <$> h_groups f !! i
  | RDataArray i => da_definition <$> h_data_arrays f !! i
  | RMultiTag i => mt_definition <$> h_multi_tags f !! i
  | RSource i => src_definition <$> h_sources f !! i
  end.

Definition obj_metadata (f : File) (r : obj_ref) : option (option nat) :=
  match r with
  | RBlock i => nb_metadata <$> h_blocks f !! i
  | RGroup i => grp_metadata <$> h_groups f !! i
  | RDataArray i => da_metadata <$> h_data_arrays f !! i
  | RMultiTag i => mt_metadata <$> h_multi_tags f !! i
  | RSource i => src_metadata <$> h_sources f !! i
  end.

(** [nix_obj.definition = d]. *)
Definition set_definition (r : obj_ref) (d : option string) (f : File) : File :=
  match r with
  | RBlock i => with_h_blocks f (upd (nb_set_definition d) i (h_blocks f))
  | RGroup i => with_h_groups f (upd (grp_set_definition d) i (h_groups f))
  | RDataArray i => with_h_data_arrays f (upd (da_set_definition d) i (h_data_arrays f))
  | RMultiTag i => with_h_multi_tags f (upd (mt_set_definition d) i (h_multi_tags f))
  | RSource i => with_h_sources f (upd (src_set_definition d) i (h_sources f))
  end.

(** [nix_obj.metadata = section]. *)
Definition set_metadata (r : obj_ref) (m : nat) (f : File) : File :=
  match r with
  | RBlock i => with_h_blocks f (upd (nb_set_metadata (Some m)) i (h_blocks f))
  | RGroup i => with_h_groups f (upd (grp_set_metadata (Some m)) i (h_groups f))
  | RDataArray i => with_h_data_arrays f (upd (da_set_metadata (Some m)) i (h_data_arrays f))
  | RMultiTag i => with_h_multi_tags f (upd (mt_set_metadata (Some m)) i (h_multi_tags f))
  | RSource i => with_h_sources f (upd (src_set_metadata (Some m)) i (h_sources f))
  end.

(** [nix_object.force_created_at(t)]; the writer calls it on Blocks and
    Groups only ([created_at] is a key of [attr] for those alone). *)
Definition force_created_at (r : obj_ref) (t : Z) (f : File) : File :=
  match r with
  | RBlock i => with_h_blocks f (upd (nb_set_created_at t) i (h_blocks f))
  | RGroup i => with_h_groups f (upd (grp_set_created_at t) i (h_groups f))
  | _ => f
  end.

(** Names of the objects a collection lists, and lookup by name. *)
Definition names_of {A} (nm : A → string) (h : list A) (ids : list nat) : list string :=
  omap (λ i, nm <$> h !! i) ids.

Definition find_name {A} (nm : A → string) (h : list A) (ids : list nat)
    (key : string) : option nat :=
  list_find (λ i, (nm <$> h !! i) = Some key) ids ≫= λ p, Some (snd p).

(** Object creation: the new object goes at the end of its table and
    its handle at the end of the creating collection. *)
Definition create_block (nm ty : string) (f : File) : nat * File :=
  let i := length (h_blocks f) in
  (i, with_blocks f (blocks f ++ [i])
        (h_blocks f ++ [{| nb_name := nm; nb_type := ty; nb_definition := None;
            nb_created_at := now f; nb_metadata := None; nb_groups := [];
            nb_data_arrays := []; nb_multi_tags := []; nb_sources := [] |}])).

Definition create_group (b : nat) (nm ty : string) (f : File) : nat * File :=
  let i := length (h_groups f) in
  let f1 := with_h_groups f
      (h_groups f ++ [{| grp_name := nm; grp_type := ty; grp_definition := None;
          grp_created_at := now f; grp_metadata := None; grp_data_arrays := [];
          grp_multi_tags := [] |}]) in
  (i, with_h_blocks f1 (upd (nb_add_group i) b (h_blocks f1))).

Definition new_source (nm ty : string) : Source :=
  {| src_name := nm; src_type := ty; src_definition := None;
     src_metadata := None; src_sources := [] |}.

(** [parent_block.create_source] / [nix_source.create_source]. *)
Definition create_source (parent : obj_ref) (nm ty : string) (f : File) : nat * File :=
  let i := length (h_sources f) in
  let f1 := with_h_sources f (h_sources f ++ [new_source nm ty]) in
  (i, match parent with
      | RBlock b => with_h_blocks f1 (upd (nb_add_source i) b (h_blocks f1))
      | RSource s => with_h_sources f1 (upd (src_add_source i) s (h_sources f1))
      | _ => f1
      end).

Definition create_data_array (b : nat) (nm ty : string) (data : ndarray) (f : File)
  : nat * File :=
  let i := length (h_data_arrays f) in
  let f1 := with_h_data_arrays f
      (h_data_arrays f ++ [{| da_name := nm; da_type := ty; da_definition := None;
          da_unit := None; da_data := data; da_dimensions := [];
          da_metadata := None; da_sources := [] |}]) in
  (i, with_h_blocks f1 (upd (nb_add_data_array i) b (h_blocks f1))).

Definition create_multi_tag (b : nat) (nm ty : string) (positions : nat) (f : File)
  : nat * File :=
  let i := length (h_multi_tags f) in
  let f1 := with_h_multi_tags f
      (h_multi_tags f ++ [{| mt_name := nm; mt_type := ty; mt_definition := None;
          mt_positions := positions; mt_extents := None; mt_references := [];
          mt_features := []; mt_metadata := None; mt_sources := [] |}]) in
  (i, with_h_blocks f1 (upd (nb_add_multi_tag i) b (h_blocks f1))).

(** [parent.create_section(name, type)]; the parent is the file itself
    ([None]) or a Section. *)
Definition create_section (parent : option nat) (nm ty : string) (f : File) : nat * File :=
  let i := length (h_sections f) in
  let h := h_sections f ++ [{| sec_name := nm; sec_type := ty; sec_props := [];
                               sec_sections := [] |}] in
  (i, match parent with
      | None => with_sections f (sections f ++ [i]) h
      | Some p => with_h_sections f (upd (sec_add_section i) p h)
      end).

(** Modelled from the spec: [Section.create_property] belongs to the NIX
    bindings, which are not among the sources.  Given a value or a
    sequence of values it adds the property; given the [None] that
    [_to_value] returns for an unsupported annotation, the value is
    omitted and the write continues (spec, sections 4.4 and 7). *)
Definition create_property (s : nat) (nm : string) (v : option prop_value) (f : File) : File :=
  match v with
  | None => f
  | Some (Single x) =>
      with_h_sections f (upd (sec_add_prop {| prop_name := nm; prop_values := [x] |}) s (h_sections f))
  | Some (Multi xs) =>
      with_h_sections f (upd (sec_add_prop {| prop_name := nm; prop_values := xs |}) s (h_sections f))
  end.

(** *** What the reader builds *)

(** Values of the [neo_attrs] dictionary handed to the Neo constructors. *)
Inductive attr_val :=
  | ANone
  | AVal (v : Value)
  | AList (vs : list Value)
  | ADatetime (dt : datetime)
  | AArray (l : list attr_val)
  | AQuantity (vals : list attr_val) (units : attr_val).

(** A quantity built by the reader: payload arrays and the unit string. *)
Record read_quantity := { rq_data : list ndarray; rq_unit : option string }.

(** The constructor call the reader makes for each kind, with the
    arguments it passes ([attrs] is [**neo_attrs]). *)
Inductive neo_read :=
  | RdBlock (attrs : gmap string attr_val)
  | RdSegment (attrs : gmap string attr_val)
  | RdRecordingChannelGroup (attrs : gmap string attr_val) (units : list neo_read)
  | RdUnit (attrs : gmap string attr_val)
  | RdAnalogSignal (signal : read_quantity) (sampling_period t_start : Q * option string)
      (attrs : gmap string attr_val)
  | RdIrregularlySampledSignal (signal : read_quantity) (times : list Q * option string)
      (attrs : gmap string attr_val)
  | RdEpoch (times durations : read_quantity) (labels : list string)
      (attrs : gmap string attr_val)
  | RdEvent (times : read_quantity) (labels : list string) (attrs : gmap string attr_val)
  | RdSpikeTrain (times : read_quantity) (attrs : gmap string attr_val)
      (waveforms : option (read_quantity * (Q * option string) * attr_val)).

Definition read_attrs (n : neo_read) : gmap string attr_val :=
  match n with
  | RdBlock a | RdSegment a | RdRecordingChannelGroup a _ | RdUnit a
  | RdAnalogSignal _ _ _ a | RdIrregularlySampledSignal _ _ a
  | RdEpoch _ _ _ a | RdEvent _ _ a | RdSpikeTrain _ a _ => a
  end.

(** *** The IO instance and its monad *)

(** Keys and values of [self._object_map]: the writer files NIX objects
    under [id(neo_obj)], the reader files Neo objects under [nix_obj.id]. *)
Inductive map_key := KNeo (i : nat) | KNix (r : obj_ref).
Inductive mapped :=
  | MObj (r : obj_ref)
  | MArrays (l : list nat)
  | MNeo (n : neo_read).

#[global] Instance map_key_eq_dec : EqDecision map_key.
Proof. solve_decision. Defined.

Record NixIO := {
  nix_file : File;
  _object_map : list (map_key * mapped);
  _lazy_loaded : list string;
  warnings : list string
}.

Definition new_io (f : File) : NixIO :=
  {| nix_file := f; _object_map := []; _lazy_loaded := []; warnings := [] |}.

Definition M (A : Type) : Type := NixIO → outcome (A * NixIO).

Definition ret {A} (a : A) : M A := λ io, Ok (a, io).
Definition bind {A B} (m : M A) (k : A → M B) : M B :=
  λ io, match m io with
        | Ok (a, io') => k a io'
        | Raise e => Raise e
        | Diverge => Diverge
        end.
Definition raise {A} (e : exn) : M A := λ _, Raise e.

#[local] Notation "x <- m ;; k" := (bind m (λ x, k))
  (at level 100, m at next level, right associativity).
#[local] Notation "m ;;; k" := (bind m (λ _, k))
  (at level 100, right associativity).

Definition lift {A} (o : outcome A) : M A :=
  λ io, match o with Ok a => Ok (a, io) | Raise e => Raise e | Diverge => Diverge end.

(** A lookup that cannot miss on a store whose handles are all live. *)
Definition live {A} (o : option A) : M A :=
  match o with Some a => ret a | None => raise KeyError end.

Definition get_file : M File := λ io, Ok (nix_file io, io).

Definition modify_file (g : File → File) : M unit :=
  λ io, Ok (tt, {| nix_file := g (nix_file io); _object_map := _object_map io;
                   _lazy_loaded := _lazy_loaded io; warnings := warnings io |}).

(** Run a creating store operation and return the new handle. *)
Definition create (g : File → nat * File) : M nat :=
  λ io, let '(i, f) := g (nix_file io) in
        Ok (i, {| nix_file := f; _object_map := _object_map io;
                  _lazy_loaded := _lazy_loaded io; warnings := warnings io |}).

(** [self._object_map[k] = v]. *)
Definition map_set (k : map_key) (v : mapped) : M unit :=
  λ io, Ok (tt, {| nix_file := nix_file io; _object_map := (k, v) :: _object_map io;
                   _lazy_loaded := _lazy_loaded io; warnings := warnings io |}).

Definition map_get (m : list (map_key * mapped)) (k : map_key) : option mapped :=
  snd <$> List.find (λ p, bool_decide (fst p = k)) m.

Definition lazy_append (path : string) : M unit :=
  λ io, Ok (tt, {| nix_file := nix_file io; _object_map := _object_map io;
                   _lazy_loaded := _lazy_loaded io ++ [path]; warnings := warnings io |}).

Definition warn (w : list string) : M unit :=
  λ io, Ok (tt, {| nix_file := nix_file io; _object_map := _object_map io;
                   _lazy_loaded := _lazy_loaded io; warnings := warnings io ++ w |}).

(** [for x in l: body x]. *)
Fixpoint for_each {A} (l : list A) (body : A → M unit) : M unit :=
  match l with
  | [] => ret tt
  | x :: l' => body x ;;; for_each l' body
  end.

(** [list(map(g, l))]. *)
Fixpoint map_m {A B} (g : A → M B) (l : list A) : M (list B) :=
  match l with
  | [] => ret []
  | x :: l' => y <- g x ;; ys <- map_m g l' ;; ret (y :: ys)
  end.

(** *** Path resolution: [_container_map] and [_get_object_at] *)

Inductive container := CGroups | CDataArrays | CMultiTags | CSources.

Definition _container_map (label : string) : option container :=
  if String.eqb label "segments" then Some CGroups
  else if String.eqb label "analogsignals" then Some CDataArrays
  else if String.eqb label "irregularlysampledsignals" then Some CDataArrays
  else if String.eqb label "events" then Some CMultiTags
  else if String.eqb label "epochs" then Some CMultiTags
  else if String.eqb label "spiketrains" then Some CMultiTags
  else if String.eqb label "recordingchannelgroups" then Some CSources
  else if String.eqb label "units" then Some CSources
  else None.

(** [getattr(parent_obj, c)]: the collections the NIX classes expose. *)
Definition getattr (f : File) (r : obj_ref) (c : container) : outcome (list nat) :=
  match r, c with
  | RBlock i, CGroups => from_option Ok (Raise KeyError) (nb_groups <$> h_blocks f !! i)
  | RBlock i, CDataArrays => from_option Ok (Raise KeyError) (nb_data_arrays <$> h_blocks f !! i)
  | RBlock i, CMultiTags => from_option Ok (Raise KeyError) (nb_multi_tags <$> h_blocks f !! i)
  | RBlock i, CSources => from_option Ok (Raise KeyError) (nb_sources <$> h_blocks f !! i)
  | RGroup i, CDataArrays => from_option Ok (Raise KeyError) (grp_data_arrays <$> h_groups f !! i)
  | RGroup i, CMultiTags => from_option Ok (Raise KeyError) (grp_multi_tags <$> h_groups f !! i)
  | RSource i, CSources => from_option Ok (Raise KeyError) (src_sources <$> h_sources f !! i)
  | RDataArray i, CSources => from_option Ok (Raise KeyError) (da_sources <$> h_data_arrays f !! i)
  | RMultiTag i, CSources => from_option Ok (Raise KeyError) (mt_sources <$> h_multi_tags f !! i)
  | _, _ => Raise AttributeError
  end.

(** [parent_container[key]]. *)
Definition container_get (f : File) (c : container) (ids : list nat) (key : string)
  : outcome obj_ref :=
  match c with
  | CGroups => from_option (λ i, Ok (RGroup i)) (Raise KeyError) (find_name grp_name (h_groups f) ids key)
  | CDataArrays => from_option (λ i, Ok (RDataArray i)) (Raise KeyError) (find_name da_name (h_data_arrays f) ids key)
  | CMultiTags => from_option (λ i, Ok (RMultiTag i)) (Raise KeyError) (find_name mt_name (h_multi_tags f) ids key)
  | CSources => from_option (λ i, Ok (RSource i)) (Raise KeyError) (find_name src_name (h_sources f) ids key)
  end.

(** [self.nix_file.blocks[key]]. *)
Definition blocks_get (f : File) (key : string) : outcome obj_ref :=
  from_option (λ i, Ok (RBlock i)) (Raise KeyError) (find_name nb_name (h_blocks f) (blocks f) key).

(** [_get_object_at(path)] with the recursion depth made explicit; the
    [ValueError] built on a non-empty first part is never raised.
    Running out of depth is Python's [RecursionError]. *)
Fixpoint get_object_at_depth (depth : nat) (f : File) (path : string) : outcome obj_ref :=
  match depth with
  | 0 => Raise RecursionError
  | S depth' =>
      let parts := split "/" path in
      if length parts =? 2 then
        match parts !! 1 with
        | Some nm => blocks_get f nm
        | None => Raise IndexError
        end
      else
        let parent_path := join "/" (drop_last 2 parts) in
        match get_object_at_depth depth' f parent_path with
        | Ok parent_obj =>
            match last2 parts with
            | None => Raise IndexError
            | Some label =>
                match _container_map label with
                | None => Raise KeyError
                | Some c =>
                    match getattr f parent_obj c with
                    | Ok parent_container =>
                        match last1 parts with
                        | Some nm => container_get f c parent_container nm
                        | None => Raise IndexError
                        end
                    | Raise e => Raise e
                    | Diverge => Diverge
                    end
                end
            end
        | Raise e => Raise e
        | Diverge => Diverge
        end
  end.

(** Every call on a path of the grammar returns within as many frames
    as the path has characters; a path outside it recurses forever. *)
Definition recursion_limit (path : string) : nat := S (String.length path).

Definition _get_object_at_file (f : File) (path : string) : outcome obj_ref :=
  get_object_at_depth (recursion_limit path) f path.

Definition _get_object_at (path : string) : M obj_ref :=
  f <- get_file ;; lift (_get_object_at_file f path).

(** *** Helpers of the writer *)

(** [_get_or_init_metadata(nix_obj, path)], recursion depth explicit. *)
Fixpoint get_or_init_metadata_depth (depth : nat) (nix_obj : obj_ref) (path : string)
  : M nat :=
  match depth with
  | 0 => raise RecursionError
  | S depth' =>
      let parent_parts := drop_last 2 (split "/" path) in
      let parent_path := join "/" parent_parts in
      f <- get_file ;;
      md <- live (obj_metadata f nix_obj) ;;
      match md with
      | Some s => ret s
      | None =>
          parent_metadata <-
            (if length parent_parts =? 0 then ret None
             else obj_parent <- _get_object_at parent_path ;;
                  s <- get_or_init_metadata_depth depth' obj_parent parent_path ;;
                  ret (Some s)) ;;
          f' <- get_file ;;
          nm <- live (obj_name f' nix_obj) ;;
          ty <- live (obj_type f' nix_obj) ;;
          s <- create (create_section parent_metadata nm (ty +:+ ".metadata")) ;;
          modify_file (set_metadata nix_obj s) ;;;
          ret s
      end
  end.

Definition _get_or_init_metadata (nix_obj : obj_ref) (path : string) : M nat :=
  get_or_init_metadata_depth (recursion_limit path) nix_obj path.

(** [_get_mapped_object(obj)]: NIX objects have an [id] attribute, Neo
    objects are filed under [id(obj)]. *)
Definition _get_mapped_object (k : map_key) : M mapped :=
  λ io, match map_get (_object_map io) k with
        | Some v => Ok (v, io)
        | None => Raise KeyError
        end.

Definition _get_mapped_objects (l : list map_key) : M (list mapped) :=
  map_m _get_mapped_object l.

(** [self._to_value(v)] inside the instance: the warnings are recorded. *)
Definition to_value (v : pyval) : M (option prop_value) :=
  warn (fst (_to_value v)) ;;; lift (snd (_to_value v)).

Definition property (s : nat) (nm : string) (v : pyval) : M unit :=
  x <- to_value v ;; modify_file (create_property s nm x).

(** [_add_annotations(annotations, metadata)]. *)
Definition _add_annotations (annots : list (string * pyval)) (metadata : nat) : M unit :=
  for_each annots (λ kv, property metadata (fst kv) (snd kv)).

(** [_write_attr_annotations(nix_object, attr, object_path)]. *)
Definition _write_attr_annotations (nix_object : obj_ref) (attr : nix_attrs)
    (object_path : string) : M unit :=
  match a_created_at attr with
  | Some dt => modify_file (force_created_at nix_object (calculate_timestamp dt))
  | None => ret tt
  end ;;;
  match a_file_datetime attr with
  | Some dt =>
      metadata <- _get_or_init_metadata nix_object object_path ;;
      property metadata "file_datetime" (PDatetime dt)
  | None => ret tt
  end ;;;
  match a_file_origin attr with
  | Some fo =>
      metadata <- _get_or_init_metadata nix_object object_path ;;
      property metadata "file_origin" (PStr fo)
  | None => ret tt
  end ;;;
  match a_annotations attr with
  | Some annots =>
      metadata <- _get_or_init_metadata nix_object object_path ;;
      _add_annotations annots metadata
  | None => ret tt
  end.

(** [_get_contained_signals(obj)] for a Group. *)
Definition is_signal_type (ty : string) : bool :=
  String.eqb ty "neo.analogsignal" || String.eqb ty "neo.irregularlysampledsignal".

Definition _get_contained_signals (f : File) (g : nat) : list nat :=
  match h_groups f !! g with
  | Some grp =>
      List.filter (λ d, from_option (λ a, is_signal_type (da_type a)) false
                          (h_data_arrays f !! d)) (grp_data_arrays grp)
  | None => []
  end.

(** [_get_units(quantity, simplify)] on the quantity's unit string. *)
Definition _get_units `{Quantities} (units : string) (simplify : bool) : option string :=
  let u := if simplify then simplified units else units in
  if String.eqb u "dimensionless" then None else Some u.

(** [enumerate(l)]. *)
Definition enumerate {A} (l : list A) : list (nat * A) := zip (seq 0 (length l)) l.

(** [path.split("/")[1]]. *)
Definition block_path_of (parent_path : string) : M string :=
  match split "/" parent_path !! 1 with
  | Some nm => ret ("/" +:+ nm)
  | None => raise IndexError
  end.

(** The Block behind [parent_block]; any other object lacks the
    Block's creators. *)
Definition as_block (r : obj_ref) : M nat :=
  match r with RBlock b => ret b | _ => raise AttributeError end.

(** [parent_group.data_arrays.append(da)]. *)
Definition group_append_data_array (parent_group : obj_ref) (d : nat) : M unit :=
  match parent_group with
  | RGroup g => modify_file (λ f, with_h_groups f (upd (grp_add_data_array d) g (h_groups f)))
  | _ => raise AttributeError
  end.

(** [parent_group.multi_tags.append(tag)]. *)
Definition group_append_multi_tag (parent_group : obj_ref) (t : nat) : M unit :=
  match parent_group with
  | RGroup g => modify_file (λ f, with_h_groups f (upd (grp_add_multi_tag t) g (h_groups f)))
  | _ => raise AttributeError
  end.

Definition da_update (d : nat) (g : DataArray → DataArray) : M unit :=
  modify_file (λ f, with_h_data_arrays f (upd g d (h_data_arrays f))).

Definition mt_update (t : nat) (g : MultiTag → MultiTag) : M unit :=
  modify_file (λ f, with_h_multi_tags f (upd g t (h_multi_tags f))).

(** [target.sources.append(src)] for a MultiTag or DataArray. *)
Definition sources_append (target : obj_ref) (src : obj_ref) : M unit :=
  match src with
  | RSource s =>
      match target with
      | RMultiTag t => mt_update t (mt_add_source s)
      | RDataArray d => da_update d (da_add_source s)
      | _ => raise AttributeError
      end
  | _ => raise TypeError
  end.

(** *** The writer, leaves first *)

Section Writer.
Context `{Quantities}.

(** [write_unit(ut, parent_path)]. *)
Definition write_unit (ut : unit_) (parent_path : string) : M nat :=
  parent_source <- _get_object_at parent_path ;;
  f <- get_file ;;
  sibs <- lift (getattr f parent_source CSources) ;;
  attr <- lift (_neo_attr_to_nix (plain Unit (un_base ut)) (names_of src_name (h_sources f) sibs)) ;;
  match parent_source with
  | RBlock _ | RSource _ => ret tt
  | _ => raise AttributeError
  end ;;;
  nix_source <- create (create_source parent_source (a_name attr) (a_type attr)) ;;
  modify_file (set_definition (RSource nix_source) (a_definition attr)) ;;;
  f1 <- get_file ;;
  nm <- live (obj_name f1 (RSource nix_source)) ;;
  let object_path := parent_path +:+ "/units/" +:+ nm in
  map_set (KNeo (ident (un_base ut))) (MObj (RSource nix_source)) ;;;
  _write_attr_annotations (RSource nix_source) attr object_path ;;;
  sts <- _get_mapped_objects (KNeo <$> un_spiketrains ut) ;;
  for_each sts (λ nix_st,
    match nix_st with
    | MObj t =>
        sources_append t parent_source ;;;
        sources_append t (RSource nix_source)
    | _ => raise AttributeError
    end) ;;;
  ret nix_source.

(** The per-channel body of [write_analogsignal]'s loop. *)
Definition write_analogsignal_channel (parent_block : nat) (parent_group : obj_ref)
    (attr : nix_attrs) (data_units time_units : option string)
    (sampling_interval offset : Q) (section : nat) (idx : nat) (sig : list Q) : M nat :=
  nix_data_array <- create (create_data_array parent_block
                      (a_name attr +:+ "." +:+ str_nat idx) (a_type attr) (Arr1 sig)) ;;
  da_update nix_data_array (da_set_definition (a_definition attr)) ;;;
  da_update nix_data_array (da_set_unit data_units) ;;;
  da_update nix_data_array
    (da_append_dimension (SampledDimension sampling_interval time_units (Some "time") (Some offset))) ;;;
  da_update nix_data_array (da_append_dimension (SetDimension [])) ;;;
  group_append_data_array parent_group nix_data_array ;;;
  da_update nix_data_array (da_set_metadata (Some section)) ;;;
  ret nix_data_array.

(** The opening of both signal writers: resolve the parents, mediate
    the name and create the shared metadata section. *)
Definition signal_section (k : neo_kind) (b : neo_base) (parent_path : string)
  : M (obj_ref * nat * nix_attrs * nat) :=
  parent_group <- _get_object_at parent_path ;;
  block_path <- block_path_of parent_path ;;
  parent_block_obj <- _get_object_at block_path ;;
  parent_metadata <- _get_or_init_metadata parent_group parent_path ;;
  f <- get_file ;;
  sibs <- lift (getattr f parent_block_obj CDataArrays) ;;
  attr <- lift (_neo_attr_to_nix (plain k b) (names_of da_name (h_data_arrays f) sibs)) ;;
  section <- create (create_section (Some parent_metadata) (a_name attr)
                       (a_type attr +:+ ".metadata")) ;;
  match a_file_origin attr with
  | Some fo => property section "file_origin" (PStr fo)
  | None => ret tt
  end ;;;
  match annotations b with
  | [] => ret tt
  | annots => _add_annotations annots section
  end ;;;
  parent_block <- as_block parent_block_obj ;;
  ret (parent_group, parent_block, attr, section).

(** [write_analogsignal(anasig, parent_path)]. *)
Definition write_analogsignal (anasig : analogsignal) (parent_path : string)
  : M (list nat) :=
  parents <- signal_section AnalogSignal (as_base anasig) parent_path ;;
  let '(parent_group, parent_block, attr, section) := parents in
  let data_units := _get_units (as_units anasig) false in
  let time_units := _get_units (q_units (as_sampling_period anasig)) true in
  let offset := rescale (as_t_start anasig) time_units in
  let sampling_interval := rescale (as_sampling_period anasig) time_units in
  nix_data_arrays <-
    map_m (λ p, write_analogsignal_channel parent_block parent_group attr
                  data_units time_units sampling_interval offset section (fst p) (snd p))
          (enumerate (as_signal anasig)) ;;
  map_set (KNeo (ident (as_base anasig))) (MArrays nix_data_arrays) ;;;
  ret nix_data_arrays.

Definition write_irregularlysampledsignal_channel (parent_block : nat)
    (parent_group : obj_ref) (attr : nix_attrs) (data_units time_units : option string)
    (times : list Q) (section : nat) (idx : nat) (sig : list Q) : M nat :=
  nix_data_array <- create (create_data_array parent_block
                      (a_name attr +:+ "." +:+ str_nat idx) (a_type attr) (Arr1 sig)) ;;
  da_update nix_data_array (da_set_definition (a_definition attr)) ;;;
  da_update nix_data_array (da_set_unit data_units) ;;;
  da_update nix_data_array
    (da_append_dimension (RangeDimension times time_units (Some "time"))) ;;;
  da_update nix_data_array (da_append_dimension (SetDimension [])) ;;;
  group_append_data_array parent_group nix_data_array ;;;
  da_update nix_data_array (da_set_metadata (Some section)) ;;;
  ret nix_data_array.

(** [write_irregularlysampledsignal(irsig, parent_path)]. *)
Definition write_irregularlysampledsignal (irsig : irregularlysampledsignal)
    (parent_path : string) : M (list nat) :=
  parents <- signal_section IrregularlySampledSignal (is_base irsig) parent_path ;;
  let '(parent_group, parent_block, attr, section) := parents in
  let data_units := _get_units (is_units irsig) false in
  let time_units := _get_units (qa_units (is_times irsig)) false in
  let times := magnitudes (is_times irsig) in
  nix_data_arrays <-
    map_m (λ p, write_irregularlysampledsignal_channel parent_block parent_group attr
                  data_units time_units times section (fst p) (snd p))
          (enumerate (is_signal irsig)) ;;
  map_set (KNeo (ident (is_base irsig))) (MArrays nix_data_arrays) ;;;
  ret nix_data_arrays.

(** The opening of the three MultiTag writers. *)
Definition tag_parents (k : neo_kind) (b : neo_base) (parent_path : string)
  : M (obj_ref * nat * nix_attrs) :=
  parent_group <- _get_object_at parent_path ;;
  block_path <- block_path_of parent_path ;;
  parent_block_obj <- _get_object_at block_path ;;
  f <- get_file ;;
  sibs <- lift (getattr f parent_block_obj CMultiTags) ;;
  attr <- lift (_neo_attr_to_nix (plain k b) (names_of mt_name (h_multi_tags f) sibs)) ;;
  parent_block <- as_block parent_block_obj ;;
  ret (parent_group, parent_block, attr).

(** [nix_multi_tag.positions.append_set_dimension()] with its labels. *)
Definition positions_labels (t : nat) (labels : list string) : M unit :=
  f <- get_file ;;
  tag <- live (h_multi_tags f !! t) ;;
  da_update (mt_positions tag) (da_append_dimension (SetDimension labels)).

(** [tag.references.extend(_get_contained_signals(parent_group))]. *)
Definition extend_references (t : nat) (parent_group : obj_ref) : M unit :=
  match parent_group with
  | RGroup g =>
      f <- get_file ;;
      mt_update t (mt_extend_references (_get_contained_signals f g))
  | _ => raise AttributeError
  end.

(** [write_epoch(ep, parent_path)]. *)
Definition write_epoch (ep : epoch) (parent_path : string) : M nat :=
  parents <- tag_parents Epoch (ep_base ep) parent_path ;;
  let '(parent_group, parent_block, attr) := parents in
  let times := magnitudes (ep_times ep) in
  let time_units := _get_units (qa_units (ep_times ep)) false in
  times_da <- create (create_data_array parent_block (a_name attr +:+ ".times")
                        (a_type attr +:+ ".times") (Arr1 times)) ;;
  da_update times_da (da_set_unit time_units) ;;;
  let durations := magnitudes (ep_durations ep) in
  let duration_units := _get_units (qa_units (ep_durations ep)) false in
  durations_da <- create (create_data_array parent_block (a_name attr +:+ ".durations")
                            (a_type attr +:+ ".durations") (Arr1 durations)) ;;
  da_update durations_da (da_set_unit duration_units) ;;;
  nix_multi_tag <- create (create_multi_tag parent_block (a_name attr) (a_type attr) times_da) ;;
  positions_labels nix_multi_tag (ep_labels ep) ;;;
  mt_update nix_multi_tag (mt_set_extents (Some durations_da)) ;;;
  group_append_multi_tag parent_group nix_multi_tag ;;;
  mt_update nix_multi_tag (mt_set_definition (a_definition attr)) ;;;
  f <- get_file ;;
  nm <- live (obj_name f (RMultiTag nix_multi_tag)) ;;
  let object_path := parent_path +:+ "/epochs/" +:+ nm in
  map_set (KNeo (ident (ep_base ep))) (MObj (RMultiTag nix_multi_tag)) ;;;
  _write_attr_annotations (RMultiTag nix_multi_tag) attr object_path ;;;
  extend_references nix_multi_tag parent_group ;;;
  ret nix_multi_tag.

(** [write_event(ev, parent_path)]. *)
Definition write_event (ev : event) (parent_path : string) : M nat :=
  parents <- tag_parents Event (ev_base ev) parent_path ;;
  let '(parent_group, parent_block, attr) := parents in
  let times := magnitudes (ev_times ev) in
  let time_units := _get_units (qa_units (ev_times ev)) false in
  times_da <- create (create_data_array parent_block (a_name attr +:+ ".times")
                        (a_type attr +:+ ".times") (Arr1 times)) ;;
  da_update times_da (da_set_unit time_units) ;;;
  nix_multi_tag <- create (create_multi_tag parent_block (a_name attr) (a_type attr) times_da) ;;
  positions_labels nix_multi_tag (ev_labels ev) ;;;
  group_append_multi_tag parent_group nix_multi_tag ;;;
  mt_update nix_multi_tag (mt_set_definition (a_definition attr)) ;;;
  f <- get_file ;;
  nm <- live (obj_name f (RMultiTag nix_multi_tag)) ;;
  let object_path := parent_path +:+ "/events/" +:+ nm in
  map_set (KNeo (ident (ev_base ev))) (MObj (RMultiTag nix_multi_tag)) ;;;
  _write_attr_annotations (RMultiTag nix_multi_tag) attr object_path ;;;
  extend_references nix_multi_tag parent_group ;;;
  ret nix_multi_tag.

(** The [if sptr.waveforms is not None] block of [write_spiketrain]. *)
Definition write_waveforms (sptr : spiketrain) (parent_block nix_multi_tag : nat)
    (attr : nix_attrs) (object_path : string) : M unit :=
  match st_waveforms sptr with
  | None => ret tt
  | Some (wf_data, wf_units) =>
      waveforms_da <- create (create_data_array parent_block (a_name attr +:+ ".waveforms")
                                "neo.waveforms" (Arr3 wf_data)) ;;
      let wf_unit := _get_units wf_units false in
      da_update waveforms_da (da_set_unit wf_unit) ;;;
      mt_update nix_multi_tag (mt_add_feature waveforms_da) ;;;
      let time_units := _get_units (q_units (st_sampling_period sptr)) true in
      let sampling_interval := rescale (st_sampling_period sptr) time_units in
      da_update waveforms_da (da_append_dimension (SetDimension [])) ;;;
      da_update waveforms_da (da_append_dimension (SetDimension [])) ;;;
      da_update waveforms_da
        (da_append_dimension (SampledDimension sampling_interval time_units (Some "time") None)) ;;;
      f <- get_file ;;
      wf_name <- live (obj_name f (RDataArray waveforms_da)) ;;
      let wf_path := object_path +:+ "/waveforms/" +:+ wf_name in
      md <- _get_or_init_metadata (RDataArray waveforms_da) wf_path ;;
      da_update waveforms_da (da_set_metadata (Some md)) ;;;
      match st_left_sweep sptr with
      | Some ls =>
          if truthy_quantity ls then
            let left_sweep := rescale ls time_units in
            f' <- get_file ;;
            wf <- live (h_data_arrays f' !! waveforms_da) ;;
            wmd <- live (da_metadata wf) ;;
            property wmd "left_sweep" (PNumber (NFloat left_sweep))
          else ret tt
      | None => ret tt
      end
  end.

(** [write_spiketrain(sptr, parent_path)]. *)
Definition write_spiketrain (sptr : spiketrain) (parent_path : string) : M nat :=
  parents <- tag_parents SpikeTrain (st_base sptr) parent_path ;;
  let '(parent_group, parent_block, attr) := parents in
  let time_units := _get_units (qa_units (st_times sptr)) false in
  let times := magnitudes (st_times sptr) in
  times_da <- create (create_data_array parent_block (a_name attr +:+ ".times")
                        (a_type attr +:+ ".times") (Arr1 times)) ;;
  da_update times_da (da_set_unit time_units) ;;;
  nix_multi_tag <- create (create_multi_tag parent_block (a_name attr) (a_type attr) times_da) ;;
  group_append_multi_tag parent_group nix_multi_tag ;;;
  mt_update nix_multi_tag (mt_set_definition (a_definition attr)) ;;;
  f <- get_file ;;
  nm <- live (obj_name f (RMultiTag nix_multi_tag)) ;;
  let object_path := parent_path +:+ "/spiketrains/" +:+ nm in
  map_set (KNeo (ident (st_base sptr))) (MObj (RMultiTag nix_multi_tag)) ;;;
  mtag_metadata <- _get_or_init_metadata (RMultiTag nix_multi_tag) object_path ;;
  _write_attr_annotations (RMultiTag nix_multi_tag) attr object_path ;;;
  (if truthy_quantity (st_t_start sptr) then
     let t_start := rescale (st_t_start sptr) time_units in
     property mtag_metadata "t_start" (PNumber (NFloat t_start))
   else ret tt) ;;;
  let t_stop := rescale (st_t_stop sptr) time_units in
  property mtag_metadata "t_stop" (PNumber (NFloat t_stop)) ;;;
  write_waveforms sptr parent_block nix_multi_tag attr object_path ;;;
  ret nix_multi_tag.

(** [write_segment(segment, parent_path)]. *)
Definition write_segment (seg : segment) (parent_path : string) : M nat :=
  parent_block_obj <- _get_object_at parent_path ;;
  f <- get_file ;;
  sibs <- lift (getattr f parent_block_obj CGroups) ;;
  attr <- lift (_neo_attr_to_nix (obj_of_segment seg) (names_of grp_name (h_groups f) sibs)) ;;
  parent_block <- as_block parent_block_obj ;;
  nix_group <- create (create_group parent_block (a_name attr) (a_type attr)) ;;
  modify_file (set_definition (RGroup nix_group) (a_definition attr)) ;;;
  f1 <- get_file ;;
  nm <- live (obj_name f1 (RGroup nix_group)) ;;
  let object_path := parent_path +:+ "/segments/" +:+ nm in
  map_set (KNeo (ident (seg_base seg))) (MObj (RGroup nix_group)) ;;;
  _write_attr_annotations (RGroup nix_group) attr object_path ;;;
  for_each (seg_analogsignals seg) (λ x, write_analogsignal x object_path ;;; ret tt) ;;;
  for_each (seg_irregularlysampledsignals seg)
    (λ x, write_irregularlysampledsignal x object_path ;;; ret tt) ;;;
  for_each (seg_epochs seg) (λ x, write_epoch x object_path ;;; ret tt) ;;;
  for_each (seg_events seg) (λ x, write_event x object_path ;;; ret tt) ;;;
  for_each (seg_spiketrains seg) (λ x, write_spiketrain x object_path ;;; ret tt) ;;;
  ret nix_group.

(** The body of the channel loop of [write_recordingchannelgroup]. *)
Definition write_channel (rcg : recordingchannelgroup) (parent_block nix_source : nat)
    (attr : nix_attrs) (object_path : string) (idx : nat) (channel : Z) : M unit :=
  f <- get_file ;;
  nix_chan_name <-
    (if negb (length (rcg_channel_names rcg) =? 0) then
       match rcg_channel_names rcg !! idx with
       | Some n => ret n
       | None => raise IndexError
       end
     else
       bn <- live (obj_name f (RBlock parent_block)) ;;
       ret (bn +:+ ".RecordingChannel" +:+ str_nat idx)) ;;
  nix_chan <- create (create_source (RSource nix_source) nix_chan_name "neo.recordingchannel") ;;
  f1 <- get_file ;;
  defn <- live (obj_definition f1 (RSource nix_source)) ;;
  modify_file (set_definition (RSource nix_chan) defn) ;;;
  let chan_obj_path := object_path +:+ "/recordingchannels/" +:+ nix_chan_name in
  chan_metadata <- _get_or_init_metadata (RSource nix_chan) chan_obj_path ;;
  property chan_metadata "index" (PNumber (NInt channel)) ;;;
  match a_file_origin attr with
  | Some fo => property chan_metadata "file_origin" (PStr fo)
  | None => ret tt
  end ;;;
  match rcg_coordinates rcg with
  | None => ret tt
  | Some coords =>
      match coords !! idx with
      | None => raise IndexError
      | Some chan_coords =>
          match chan_coords with
          | [] => raise IndexError
          | c0 :: _ =>
              let coord_unit := q_units c0 in
              nix_coord_unit <- to_value (PStr coord_unit) ;;
              let nix_coord_values :=
                Multi ((λ c, VFloat (rescale c (Some coord_unit))) <$> chan_coords) in
              modify_file (create_property chan_metadata "coordinates" (Some nix_coord_values)) ;;;
              modify_file (create_property chan_metadata "coordinates.units" nix_coord_unit)
          end
      end
  end.

(** [for da in nix_sigs: da.sources.append(nix_source)]. *)
Definition reference_signal (nix_source : nat) (nix_sigs : mapped) : M unit :=
  match nix_sigs with
  | MArrays l => for_each l (λ da, sources_append (RDataArray da) (RSource nix_source))
  | _ => raise TypeError
  end.

(** [write_recordingchannelgroup(rcg, parent_path)]. *)
Definition write_recordingchannelgroup (rcg : recordingchannelgroup) (parent_path : string)
  : M nat :=
  parent_block_obj <- _get_object_at parent_path ;;
  f <- get_file ;;
  sibs <- lift (getattr f parent_block_obj CSources) ;;
  attr <- lift (_neo_attr_to_nix (plain RecordingChannelGroup (rcg_base rcg))
                  (names_of src_name (h_sources f) sibs)) ;;
  parent_block <- as_block parent_block_obj ;;
  nix_source <- create (create_source (RBlock parent_block) (a_name attr) (a_type attr)) ;;
  modify_file (set_definition (RSource nix_source) (a_definition attr)) ;;;
  f1 <- get_file ;;
  nm <- live (obj_name f1 (RSource nix_source)) ;;
  let object_path := parent_path +:+ "/recordingchannelgroups/" +:+ nm in
  map_set (KNeo (ident (rcg_base rcg))) (MObj (RSource nix_source)) ;;;
  _write_attr_annotations (RSource nix_source) attr object_path ;;;
  for_each (enumerate (rcg_channel_indexes rcg))
    (λ p, write_channel rcg parent_block nix_source attr object_path (fst p) (snd p)) ;;;
  for_each (rcg_units rcg) (λ u, write_unit u object_path ;;; ret tt) ;;;
  asigs <- _get_mapped_objects (KNeo <$> rcg_analogsignals rcg) ;;
  for_each asigs (reference_signal nix_source) ;;;
  isigs <- _get_mapped_objects (KNeo <$> rcg_irregularlysampledsignals rcg) ;;
  for_each isigs (reference_signal nix_source) ;;;
  ret nix_source.

(** [write_block(neo_block)]. *)
Definition write_block (neo_block : block) : M nat :=
  f <- get_file ;;
  attr <- lift (_neo_attr_to_nix (obj_of_block neo_block)
                  (names_of nb_name (h_blocks f) (blocks f))) ;;
  nix_block <- create (create_block (a_name attr) (a_type attr)) ;;
  modify_file (set_definition (RBlock nix_block) (a_definition attr)) ;;;
  f1 <- get_file ;;
  nm <- live (obj_name f1 (RBlock nix_block)) ;;
  let object_path := "/" +:+ nm in
  map_set (KNeo (ident (blk_base neo_block))) (MObj (RBlock nix_block)) ;;;
  _write_attr_annotations (RBlock nix_block) attr object_path ;;;
  for_each (blk_segments neo_block) (λ s, write_segment s object_path ;;; ret tt) ;;;
  for_each (blk_recordingchannelgroups neo_block)
    (λ r, write_recordingchannelgroup r object_path ;;; ret tt) ;;;
  ret nix_block.

(** [write_all_blocks(neo_blocks)]. *)
Definition write_all_blocks (neo_blocks : list block) : M (list nat) :=
  map_m write_block neo_blocks.

End Writer.

(** *** The reader

    The [read_*] methods are embedded for [cascade=False]: the entity
    itself is built from its container, children are not visited.  The
    reference recovery that [_read_cascade] performs for Units and
    RecordingChannelGroups is embedded separately below. *)

(** The value a property decodes to. *)
Definition prop_attr (p : Property) : attr_val :=
  match prop_values p with
  | [v] => AVal v
  | vs => AList vs
  end.

(** [datetime.fromtimestamp(x)] on a decoded attribute. *)
Definition attr_fromtimestamp (x : attr_val) : outcome attr_val :=
  match x with
  | AVal (VInt z) => Ok (ADatetime (fromtimestamp z))
  | AVal (VFloat q) =>
      Ok (ADatetime {| dt_seconds := Qfloor q;
                       dt_microsecond := Qfloor ((q - inject_Z (Qfloor q)) * 1000000) |})
  | AVal (VBool b) => Ok (ADatetime (fromtimestamp (if b then 1 else 0)))
  | _ => Raise TypeError
  end.

Definition opt_str (o : option string) : attr_val :=
  match o with Some s => AVal (VStr s) | None => ANone end.

(** [_nix_attr_to_neo(nix_obj)]. *)
Definition _nix_attr_to_neo (f : File) (nix_obj : obj_ref) : outcome (gmap string attr_val) :=
  match obj_name f nix_obj, obj_definition f nix_obj, obj_metadata f nix_obj with
  | Some nm, Some defn, Some md =>
      let a0 : gmap string attr_val :=
        <["description" := opt_str defn]> (<["name" := AVal (VStr nm)]> ∅) in
      let a1 :=
        match md ≫= λ s, h_sections f !! s with
        | Some sec => foldl (λ a p, <[prop_name p := prop_attr p]> a) a0 (sec_props sec)
        | None => a0
        end in
      let a2 :=
        match nix_obj with
        | RBlock i =>
            from_option (λ b, <["rec_datetime" := ADatetime (fromtimestamp (nb_created_at b))]> a1)
              a1 (h_blocks f !! i)
        | RGroup i =>
            from_option (λ g, <["rec_datetime" := ADatetime (fromtimestamp (grp_created_at g))]> a1)
              a1 (h_groups f !! i)
        | _ => a1
        end in
      match a2 !! "file_datetime" with
      | Some x =>
          match attr_fromtimestamp x with
          | Ok d => Ok (<["file_datetime" := d]> a2)
          | Raise e => Raise e
          | Diverge => Diverge
          end
      | None => Ok a2
      end
  | _, _, _ => Raise KeyError
  end.

Definition nix_attr_to_neo (nix_obj : obj_ref) : M (gmap string attr_val) :=
  f <- get_file ;; lift (_nix_attr_to_neo f nix_obj).

(** [_block_to_neo], [_group_to_neo], [_source_unit_to_neo]. *)
Definition _block_to_neo (nix_block : obj_ref) : M neo_read :=
  neo_attrs <- nix_attr_to_neo nix_block ;;
  let neo_block := RdBlock neo_attrs in
  map_set (KNix nix_block) (MNeo neo_block) ;;;
  ret neo_block.

Definition _group_to_neo (nix_group : obj_ref) : M neo_read :=
  neo_attrs <- nix_attr_to_neo nix_group ;;
  let neo_segment := RdSegment neo_attrs in
  map_set (KNix nix_group) (MNeo neo_segment) ;;;
  ret neo_segment.

Definition _source_unit_to_neo (nix_unit : obj_ref) : M neo_read :=
  neo_attrs <- nix_attr_to_neo nix_unit ;;
  let neo_unit := RdUnit neo_attrs in
  map_set (KNix nix_unit) (MNeo neo_unit) ;;;
  ret neo_unit.

(** [d[key]] on a decoded dictionary. *)
Definition dict_get (d : gmap string attr_val) (key : string) : M attr_val :=
  live (d !! key).

(** The child Sources of [nix_source] with the given type. *)
Definition child_sources (f : File) (nix_source : obj_ref) (ty : string) : outcome (list nat) :=
  match getattr f nix_source CSources with
  | Ok l => Ok (List.filter (λ c, from_option (λ x, String.eqb (src_type x) ty) false
                                    (h_sources f !! c)) l)
  | Raise e => Raise e
  | Diverge => Diverge
  end.

(** [_source_rcg_to_neo(nix_source)]. *)
Definition _source_rcg_to_neo (nix_source : obj_ref) : M neo_read :=
  neo_attrs <- nix_attr_to_neo nix_source ;;
  f <- get_file ;;
  chans <- lift (child_sources f nix_source "neo.recordingchannel") ;;
  rec_channels <- map_m (λ c, nix_attr_to_neo (RSource c)) chans ;;
  names <- map_m (λ c, dict_get c "name") rec_channels ;;
  let neo_attrs := <["channel_names" := AArray names]> neo_attrs in
  indexes <- map_m (λ c, dict_get c "index") rec_channels ;;
  let neo_attrs := <["channel_indexes" := AArray indexes]> neo_attrs in
  c0 <- match rec_channels with c0 :: _ => ret c0 | [] => raise IndexError end ;;
  neo_attrs <-
    (if bool_decide (is_Some (c0 !! "coordinates")) then
       coord_units <- dict_get c0 "coordinates.units" ;;
       coord_values <- map_m (λ c, dict_get c "coordinates") rec_channels ;;
       ret (<["coordinates" := AQuantity coord_values coord_units]> neo_attrs)
     else ret neo_attrs) ;;
  map_set (KNix nix_source) (MNeo (RdRecordingChannelGroup neo_attrs [])) ;;;
  nix_units <- lift (child_sources f nix_source "neo.unit") ;;
  neo_units <- map_m (λ u, _source_unit_to_neo (RSource u)) nix_units ;;
  ret (RdRecordingChannelGroup neo_attrs neo_units).

(** [sorted(l, key=lambda d: d.name)]: a stable sort on the names. *)
Fixpoint insert_by_name (x : nat * DataArray) (l : list (nat * DataArray))
  : list (nat * DataArray) :=
  match l with
  | [] => [x]
  | y :: l' =>
      if String.leb (da_name (snd x)) (da_name (snd y)) then x :: y :: l'
      else y :: insert_by_name x l'
  end.

Definition sorted_by_name (l : list (nat * DataArray)) : list (nat * DataArray) :=
  foldr insert_by_name [] l.

(** [_get_time_dimension(obj)]: Set dimensions have no label. *)
Definition dim_label (d : Dimension) : option string :=
  match d with
  | SampledDimension _ _ l _ => l
  | RangeDimension _ _ l => l
  | SetDimension _ => None
  end.

Definition _get_time_dimension (a : DataArray) : option Dimension :=
  List.find (λ d, bool_decide (dim_label d = Some "time")) (da_dimensions a).

(** [_signal_da_to_neo(nix_da_group, lazy)]; the result is [None] when
    the method returns [None]. *)
Definition _signal_da_to_neo (nix_da_group : list nat) (lazy : bool) : M (option neo_read) :=
  f <- get_file ;;
  das <- map_m (λ d, a <- live (h_data_arrays f !! d) ;; ret (d, a)) nix_da_group ;;
  let das := sorted_by_name das in
  first <- match das with x :: _ => ret x | [] => raise IndexError end ;;
  neo_attrs <- nix_attr_to_neo (RDataArray (fst first)) ;;
  md <- match da_metadata (snd first) with Some m => ret m | None => raise AttributeError end ;;
  sec <- live (h_sections f !! md) ;;
  let neo_attrs := <["name" := AVal (VStr (sec_name sec))]> neo_attrs in
  let neo_type := da_type (snd first) in
  let unit := da_unit (snd first) in
  let signaldata :=
    if lazy then {| rq_data := []; rq_unit := unit |}
    else {| rq_data := (λ x, da_data (snd x)) <$> das; rq_unit := unit |} in
  let timedim := _get_time_dimension (snd first) in
  let is_sampled := match timedim with Some (SampledDimension _ _ _ _) => true | _ => false end in
  let is_range := match timedim with Some (RangeDimension _ _ _) => true | _ => false end in
  if String.eqb neo_type "neo.analogsignal" || is_sampled then
    match timedim with
    | Some (SampledDimension si u _ off) =>
        let neo_signal :=
          if lazy then RdAnalogSignal signaldata (0%Q, u) (0%Q, u) neo_attrs
          else RdAnalogSignal signaldata (si, u) (default 0%Q off, u) neo_attrs in
        for_each das (λ x, map_set (KNix (RDataArray (fst x))) (MNeo neo_signal)) ;;;
        ret (Some neo_signal)
    | Some (RangeDimension _ u _) =>
        if lazy then
          let neo_signal := RdAnalogSignal signaldata (0%Q, u) (0%Q, u) neo_attrs in
          for_each das (λ x, map_set (KNix (RDataArray (fst x))) (MNeo neo_signal)) ;;;
          ret (Some neo_signal)
        else raise AttributeError
    | _ => raise AttributeError
    end
  else if String.eqb neo_type "neo.irregularlysampledsignal" || is_range then
    match timedim with
    | Some (RangeDimension ticks u _) =>
        let neo_signal :=
          RdIrregularlySampledSignal signaldata (if lazy then [] else ticks, u) neo_attrs in
        for_each das (λ x, map_set (KNix (RDataArray (fst x))) (MNeo neo_signal)) ;;;
        ret (Some neo_signal)
    | _ => raise AttributeError
    end
  else ret None.

(** The [for idx in itertools.count()] loop of [read_signal], entered
    at [idx]; one more round than the container has names always
    reaches the [break]. *)
Fixpoint collect_signal_arrays (fuel : nat) (f : File) (parent_container : list nat)
    (signal_group_name : string) (idx : nat) : outcome (list nat) :=
  match fuel with
  | 0 => Diverge
  | S fuel' =>
      let signal_name := signal_group_name +:+ "." +:+ str_nat idx in
      match find_name da_name (h_data_arrays f) parent_container signal_name with
      | Some d =>
          match collect_signal_arrays fuel' f parent_container signal_group_name (S idx) with
          | Ok l => Ok (d :: l)
          | Raise e => Raise e
          | Diverge => Diverge
          end
      | None => Ok []
      end
  end.

(** [assert da.metadata == group_section] for every array. *)
Definition check_metadata (f : File) (group_section : option nat) (das : list nat) : M unit :=
  for_each das (λ d,
    a <- live (h_data_arrays f !! d) ;;
    if bool_decide (da_metadata a = group_section) then ret tt else raise AssertionError).

(** [read_signal(path, lazy)]. *)
Definition read_signal (path : string) (lazy : bool) : M (option neo_read) :=
  parent_group <- _get_object_at (join "/" (drop_last 2 (split "/" path))) ;;
  f <- get_file ;;
  parent_container <- lift (getattr f parent_group CDataArrays) ;;
  signal_group_name <- match last1 (split "/" path) with
                       | Some n => ret n | None => raise IndexError end ;;
  nix_data_arrays <- lift (collect_signal_arrays (S (length parent_container)) f
                             parent_container signal_group_name 0) ;;
  d0 <- match nix_data_arrays with d :: _ => ret d | [] => raise IndexError end ;;
  a0 <- live (h_data_arrays f !! d0) ;;
  let group_section := da_metadata a0 in
  check_metadata f group_section nix_data_arrays ;;;
  neo_signal <- _signal_da_to_neo nix_data_arrays lazy ;;
  (if lazy then lazy_append path else ret tt) ;;;
  ret neo_signal.

Definition read_analogsignal (path : string) (lazy : bool) := read_signal path lazy.
Definition read_irregularlysampledsignal (path : string) (lazy : bool) := read_signal path lazy.

(** [pq.Quantity(array, array.unit)] of one DataArray. *)
Definition array_quantity (f : File) (d : nat) (lazy : bool) : M read_quantity :=
  a <- live (h_data_arrays f !! d) ;;
  ret {| rq_data := if lazy then [] else [da_data a]; rq_unit := da_unit a |}.

(** [nix_mtag.positions.dimensions[0].labels]. *)
Definition positions_dim_labels (f : File) (d : nat) : M (list string) :=
  a <- live (h_data_arrays f !! d) ;;
  match da_dimensions a with
  | SetDimension l :: _ => ret l
  | _ :: _ => raise AttributeError
  | [] => raise IndexError
  end.

(** [_mtag_eest_to_neo(nix_mtag, lazy)]. *)
Definition _mtag_eest_to_neo (nix_mtag : nat) (lazy : bool) : M (option neo_read) :=
  neo_attrs <- nix_attr_to_neo (RMultiTag nix_mtag) ;;
  f <- get_file ;;
  tag <- live (h_multi_tags f !! nix_mtag) ;;
  let neo_type := mt_type tag in
  times <- array_quantity f (mt_positions tag) lazy ;;
  if String.eqb neo_type "neo.epoch" then
    ext <- match mt_extents tag with Some e => ret e | None => raise AttributeError end ;;
    durations <- array_quantity f ext lazy ;;
    labels <- (if lazy then ret [] else positions_dim_labels f (mt_positions tag)) ;;
    let eest := RdEpoch times durations labels neo_attrs in
    map_set (KNix (RMultiTag nix_mtag)) (MNeo eest) ;;;
    ret (Some eest)
  else if String.eqb neo_type "neo.event" then
    labels <- (if lazy then ret [] else positions_dim_labels f (mt_positions tag)) ;;
    let eest := RdEvent times labels neo_attrs in
    map_set (KNix (RMultiTag nix_mtag)) (MNeo eest) ;;;
    ret (Some eest)
  else if String.eqb neo_type "neo.spiketrain" then
    wf <-
      match mt_features tag with
      | [] => ret None
      | wfda :: _ =>
          a <- live (h_data_arrays f !! wfda) ;;
          match _get_time_dimension a with
          | Some (SampledDimension si u _ _) =>
              if lazy then
                ret (Some ({| rq_data := []; rq_unit := da_unit a |}, (0%Q, u), AVal (VInt 0)))
              else
                md <- match da_metadata a with Some m => ret m | None => raise TypeError end ;;
                sec <- live (h_sections f !! md) ;;
                ls <- match List.find (λ p, String.eqb (prop_name p) "left_sweep") (sec_props sec) with
                      | Some p => ret (prop_attr p)
                      | None => raise KeyError
                      end ;;
                ret (Some ({| rq_data := [da_data a]; rq_unit := da_unit a |}, (si, u), ls))
          | Some (RangeDimension _ u _) =>
              if lazy then
                ret (Some ({| rq_data := []; rq_unit := da_unit a |}, (0%Q, u), AVal (VInt 0)))
              else raise AttributeError
          | _ => raise AttributeError
          end
      end ;;
    let eest := RdSpikeTrain times neo_attrs wf in
    map_set (KNix (RMultiTag nix_mtag)) (MNeo eest) ;;;
    ret (Some eest)
  else ret None.

(** [read_block(path, cascade=False, lazy)] and its siblings. *)
Definition read_block (path : string) (lazy : bool) : M neo_read :=
  nix_block <- _get_object_at path ;;
  neo_block <- _block_to_neo nix_block ;;
  (if lazy then lazy_append path else ret tt) ;;;
  ret neo_block.

Definition read_segment (path : string) (lazy : bool) : M neo_read :=
  nix_group <- _get_object_at path ;;
  neo_segment <- _group_to_neo nix_group ;;
  (if lazy then lazy_append path else ret tt) ;;;
  ret neo_segment.

Definition read_recordingchannelgroup (path : string) (lazy : bool) : M neo_read :=
  nix_source <- _get_object_at path ;;
  neo_rcg <- _source_rcg_to_neo nix_source ;;
  (if lazy then lazy_append path else ret tt) ;;;
  ret neo_rcg.

Definition read_eest (path : string) (lazy : bool) : M (option neo_read) :=
  nix_mtag <- _get_object_at path ;;
  match nix_mtag with
  | RMultiTag t =>
      neo_eest <- _mtag_eest_to_neo t lazy ;;
      (if lazy then lazy_append path else ret tt) ;;;
      ret neo_eest
  | _ => raise AttributeError
  end.

Definition read_epoch (path : string) (lazy : bool) := read_eest path lazy.
Definition read_event (path : string) (lazy : bool) := read_eest path lazy.
Definition read_spiketrain (path : string) (lazy : bool) := read_eest path lazy.

Definition read_unit (path : string) (lazy : bool) : M neo_read :=
  nix_source <- _get_object_at path ;;
  neo_unit <- _source_unit_to_neo nix_source ;;
  (if lazy then lazy_append path else ret tt) ;;;
  ret neo_unit.

(** [_get_referers(nix_obj, obj_list)] over MultiTags and over
    DataArrays: membership is tested on the Sources' names. *)
Definition source_names (f : File) (srcs : list nat) : list string :=
  names_of src_name (h_sources f) srcs.

Definition _get_referers_tags (f : File) (nm : string) (obj_list : list nat) : list nat :=
  List.filter (λ t, from_option (λ x, contains (source_names f (mt_sources x)) nm) false
                      (h_multi_tags f !! t)) obj_list.

Definition _get_referers_arrays (f : File) (nm : string) (obj_list : list nat) : list nat :=
  List.filter (λ d, from_option (λ x, contains (source_names f (da_sources x)) nm) false
                      (h_data_arrays f !! d)) obj_list.

(** The [elif isinstance(neo_obj, Unit)] branch of [_read_cascade] up
    to [nix_sts]: the spike-train MultiTags of the parent Block that
    refer to the Unit's Source. *)
Definition unit_referers (f : File) (nix_obj : obj_ref) (path : string) : outcome (list nat) :=
  match split "/" path !! 1 with
  | None => Raise IndexError
  | Some bn =>
      match _get_object_at_file f ("/" +:+ bn) with
      | Ok parent_block =>
          match getattr f parent_block CMultiTags, obj_name f nix_obj with
          | Ok mts, Some nm =>
              let all_nix_sts :=
                List.filter (λ t, from_option (λ x, String.eqb (mt_type x) "neo.spiketrain")
                                    false (h_multi_tags f !! t)) mts in
              Ok (_get_referers_tags f nm all_nix_sts)
          | Raise e, _ => Raise e
          | _, _ => Raise KeyError
          end
      | Raise e => Raise e
      | Diverge => Diverge
      end
  end.

(** The same branch through to [neo_sts], the Neo spike trains the
    Unit is extended with. *)
Definition read_cascade_unit (nix_obj : obj_ref) (path : string) : M (list mapped) :=
  f <- get_file ;;
  nix_sts <- lift (unit_referers f nix_obj path) ;;
  _get_mapped_objects ((λ t, KNix (RMultiTag t)) <$> nix_sts).

End Neonix.

(** ** neo2nix/nixio.py *)

Module Neo2nix.
Import Py.

(** *** Values and the Neo objects the writer reads *)

(** [nix.Value]. *)
Inductive Value := VInt (z : Z) | VFloat (q : Q) | VBool (b : bool) | VStr (s : string).

(** A metadata value: a scalar, or a list/tuple of scalars. *)
Inductive meta := MOne (v : Value) | MMany (l : list Value).

#[global] Instance Value_eq_dec : EqDecision Value.
Proof. solve_decision. Defined.

(** [if value:]. *)
Definition truthy_value (v : Value) : bool :=
  match v with
  | VInt z => negb (z =? 0)%Z
  | VFloat q => negb (Qnum q =? 0)%Z
  | VBool b => b
  | VStr s => negb (String.eqb s "")
  end.

Definition truthy (m : meta) : bool :=
  match m with
  | MOne v => truthy_value v
  | MMany l => negb (length l =? 0)
  end.

(** [value if type(value) in (list, tuple) else (value,)], wrapped in
    [nix.Value]. *)
Definition values_of (m : meta) : list Value :=
  match m with MOne v => [v] | MMany l => l end.

(** A Python dict kept in insertion order. *)
Fixpoint dict_set {V} (k : string) (v : V) (d : list (string * V)) : list (string * V) :=
  match d with
  | [] => [(k, v)]
  | (k', v') :: d' => if String.eqb k' k then (k, v) :: d' else (k', v') :: dict_set k v d'
  end.

(** What the writer reads from any Neo object: its name, its
    annotations and [getattr(obj, attr_name, None)]. *)
Record neo_base := {
  name : string;
  annotations : list (string * meta);
  attr : string → option meta
}.

Record analogsignal := {
  sig_base : neo_base;
  sig_data : list Q;
  sig_dtype : string;
  sig_units : string;
  sig_sampling_rate : Q * string;
  sig_t_start : Q * string
}.

Record segment := {
  seg_base : neo_base;
  seg_analogsignals : list analogsignal
}.

Record block := {
  blk_base : neo_base;
  blk_segments : list segment
}.

(** *** The NIX file *)

Record Property := { prop_name : string; prop_values : list Value }.

(** Sections are shared between the file tree and the objects whose
    [metadata] they are: they live in a table and are referred to by
    handle. *)
Record Section := {
  sec_name : string;
  sec_type : string;
  sec_props : list Property;
  sec_sections : list nat
}.

Record DataArray := {
  da_name : string;
  da_type : string;
  da_dtype : string;
  da_data : list Q;
  da_unit : option string;
  da_dimensions : list (Q * option string);
  da_metadata : option nat
}.

(** A Tag refers to DataArrays of its Block; names are the keys of
    [nix_block.data_arrays]. *)
Record Tag := {
  tag_name : string;
  tag_type : string;
  tag_position : list Q;
  tag_references : list string;
  tag_metadata : option nat
}.

Record NixBlock := {
  nb_name : string;
  nb_type : string;
  nb_tags : list Tag;
  nb_data_arrays : list DataArray;
  nb_metadata : option nat
}.

Record File := {
  blocks : list NixBlock;
  sections : list nat;
  h_sections : list Section
}.

Definition empty_file : File := {| blocks := []; sections := []; h_sections := [] |}.

Definition with_blocks (f : File) (l : list NixBlock) : File :=
  {| blocks := l; sections := sections f; h_sections := h_sections f |}.

Definition nb_with (b : NixBlock) (tags : list Tag) (das : list DataArray)
    (md : option nat) : NixBlock :=
  {| nb_name := nb_name b; nb_type := nb_type b; nb_tags := tags;
     nb_data_arrays := das; nb_metadata := md |}.

Definition tag_with (t : Tag) (refs : list string) (md : option nat) : Tag :=
  {| tag_name := tag_name t; tag_type := tag_type t; tag_position := tag_position t;
     tag_references := refs; tag_metadata := md |}.

(** Lookup and in-place update of the first entry with a given name. *)
Definition find_by {A} (nm : A → string) (l : list A) (key : string) : option A :=
  List.find (λ x, String.eqb (nm x) key) l.

Fixpoint update_by {A} (nm : A → string) (key : string) (g : A → A) (l : list A) : list A :=
  match l with
  | [] => []
  | x :: l' => if String.eqb (nm x) key then g x :: l' else x :: update_by nm key g l'
  end.

(** [del container[key]]. *)
Fixpoint delete_by {A} (nm : A → string) (key : string) (l : list A) : list A :=
  match l with
  | [] => []
  | x :: l' => if String.eqb (nm x) key then l' else x :: delete_by nm key l'
  end.

Definition update_block (block_id : string) (g : NixBlock → NixBlock) (f : File) : File :=
  with_blocks f (update_by nb_name block_id g (blocks f)).

(** [set(a) - set(b)] as a duplicate-free list. *)
Definition set_minus (a b : list string) : list string :=
  remove_dups (List.filter (λ x, negb (contains b x)) a).

(** [parent.sections[key]] among the children [ids]. *)
Definition find_section (f : File) (ids : list nat) (key : string) : option nat :=
  List.find (λ i, from_option (λ s, String.eqb (sec_name s) key) false (h_sections f !! i)) ids.

(** [parent.create_section(nm, ty)]; [None] is the file itself. *)
Definition create_section (parent : option nat) (nm ty : string) (f : File) : nat * File :=
  let i := length (h_sections f) in
  let h := h_sections f ++ [{| sec_name := nm; sec_type := ty; sec_props := [];
                               sec_sections := [] |}] in
  (i, match parent with
      | None => {| blocks := blocks f; sections := sections f ++ [i]; h_sections := h |}
      | Some p =>
          {| blocks := blocks f; sections := sections f;
             h_sections := alter (λ s, {| sec_name := sec_name s; sec_type := sec_type s;
                                          sec_props := sec_props s;
                                          sec_sections := sec_sections s ++ [i] |}) p h |}
      end).

(** *** The IO instance

    [disk] is the file behind [filename] ([None] while it does not
    exist); [f] is the attribute [self.f]; [open_handles] are the
    handles opened and not yet closed. *)
Record NixIO := {
  disk : option File;
  readonly : bool;
  f : option nat;
  open_handles : list nat;
  opened : nat
}.

Definition new_io (d : option File) (ro : bool) : NixIO :=
  {| disk := d; readonly := ro; f := None; open_handles := []; opened := 0 |}.

(** A method runs on the instance and leaves it in some state whether
    it returns or raises. *)
Definition M (A : Type) : Type := NixIO → outcome A * NixIO.

Definition ret {A} (a : A) : M A := λ io, (Ok a, io).
Definition bind {A B} (m : M A) (k : A → M B) : M B :=
  λ io, match m io with
        | (Ok a, io') => k a io'
        | (Raise e, io') => (Raise e, io')
        | (Diverge, io') => (Diverge, io')
        end.
Definition raise {A} (e : exn) : M A := λ io, (Raise e, io).

#[local] Notation "x <- m ;; k" := (bind m (λ x, k))
  (at level 100, m at next level, right associativity).
#[local] Notation "m ;;; k" := (bind m (λ _, k))
  (at level 100, right associativity).

Fixpoint for_each {A} (l : list A) (body : A → M unit) : M unit :=
  match l with
  | [] => ret tt
  | x :: l' => body x ;;; for_each l' body
  end.

Fixpoint map_m {A B} (g : A → M B) (l : list A) : M (list B) :=
  match l with
  | [] => ret []
  | x :: l' => y <- g x ;; ys <- map_m g l' ;; ret (y :: ys)
  end.

(** The contents of the open file. *)
Definition get_file : M File :=
  λ io, match disk io with
        | Some d => (Ok d, io)
        | None => (Raise KeyError, io)
        end.

Definition modify_file (g : File → File) : M unit :=
  λ io, (Ok tt, {| disk := g <$> disk io; readonly := readonly io; f := f io;
                   open_handles := open_handles io; opened := opened io |}).

Definition create (g : File → nat * File) : M nat :=
  λ io, match disk io with
        | Some d =>
            let '(i, d') := g d in
            (Ok i, {| disk := Some d'; readonly := readonly io; f := f io;
                      open_handles := open_handles io; opened := opened io |})
        | None => (Raise KeyError, io)
        end.

(** [self._open()]: a missing file is created ([FileMode.Overwrite]). *)
Definition _open : M nat :=
  λ io, let h := opened io in
        (Ok h, {| disk := Some (default empty_file (disk io)); readonly := readonly io;
                  f := f io; open_handles := open_handles io ++ [h];
                  opened := S (opened io) |}).

(** [instance.f = h]. *)
Definition set_f (h : nat) : M unit :=
  λ io, (Ok tt, {| disk := disk io; readonly := readonly io; f := Some h;
                   open_handles := open_handles io; opened := opened io |}).

(** [instance.f.close()]. *)
Definition close_f : M unit :=
  λ io, match f io with
        | Some h =>
            (Ok tt, {| disk := disk io; readonly := readonly io; f := f io;
                       open_handles := List.filter (λ x, negb (x =? h)) (open_handles io);
                       opened := opened io |})
        | None => (Raise AttributeError, io)
        end.

(** [file_transaction(method)]: the [wrapped] function. *)
Definition file_transaction {A} (method : M A) : M A :=
  h <- _open ;;
  set_f h ;;;
  result <- method ;;
  close_f ;;;
  ret result.

(** *** NixHelp *)

(** [NixHelp.get_block(nix_file, block_id)]. *)
Definition get_block (block_id : string) : M NixBlock :=
  d <- get_file ;;
  match find_by nb_name (blocks d) block_id with
  | Some b => ret b
  | None => raise NameError
  end.

(** [NixHelp.get_or_create_section(root_section, group_name, name)]. *)
Definition get_or_create_section (root_section : nat) (group_name nm : string) : M nat :=
  d <- get_file ;;
  root <- match h_sections d !! root_section with
          | Some s => ret s | None => raise KeyError end ;;
  group_sec <-
    match find_section d (sec_sections root) (group_name +:+ "s") with
    | Some g => ret g
    | None => create (create_section (Some root_section) (group_name +:+ "s") group_name)
    end ;;
  d' <- get_file ;;
  grp <- match h_sections d' !! group_sec with
         | Some s => ret s | None => raise KeyError end ;;
  match find_section d' (sec_sections grp) nm with
  | Some t => ret t
  | None => create (create_section (Some group_sec) nm group_name)
  end.

(** [NixHelp.get_obj_nix_name(obj, parent_id, 'analogsignal')]. *)
Definition get_obj_nix_name (obj_name parent_id : string) : string :=
  obj_name +:+ " @@ " +:+ parent_id.

(** [NixHelp.get_obj_neo_name(nix_name, 'analogsignal')]:
    [x.split('@@')[0][:-1]]. *)
Definition get_obj_neo_name (nix_name : string) : string :=
  drop_last_char (split_head "@@" nix_name).

(** One round of [write_metadata]'s loop on the section's properties. *)
Definition store_property (attr_name : string) (values : list Value)
    (props : list Property) : list Property :=
  match find_by prop_name props attr_name with
  | None => props ++ [{| prop_name := attr_name; prop_values := values |}]
  | Some p =>
      if bool_decide (prop_values p = values) then props
      else update_by prop_name attr_name
             (λ _, {| prop_name := attr_name; prop_values := values |}) props
  end.

(** [NixHelp.write_metadata(nix_section, dict_to_store)]. *)
Definition write_metadata (nix_section : nat) (dict_to_store : list (string * meta)) : M unit :=
  for_each dict_to_store (λ kv,
    if truthy (snd kv) then
      modify_file (λ d,
        {| blocks := blocks d; sections := sections d;
           h_sections :=
             alter (λ s, {| sec_name := sec_name s; sec_type := sec_type s;
                            sec_props := store_property (fst kv) (values_of (snd kv)) (sec_props s);
                            sec_sections := sec_sections s |})
                   nix_section (h_sections d) |})
    else ret tt).

(** The dictionary both writers build: the annotations, then every
    listed attribute that is not [None]. *)
Definition metadata_dict (b : neo_base) (meta_attrs : list string) : list (string * meta) :=
  foldl (λ d a, match attr b a with Some v => dict_set a v d | None => d end)
        (annotations b) meta_attrs.

Definition _default_meta_attr_names : list string := ["description"; "file_origin"].
Definition _block_meta_attrs : list string := ["file_datetime"; "rec_datetime"; "index"].
Definition _segment_meta_attrs : list string := ["file_datetime"; "rec_datetime"; "index"].
Definition _analogsignal_meta_attrs : list string := ["channel_index"].

(** *** Internal writers *)

(** [_write_analogsignal(nix_file, block_id, tag_id, signal)]. *)
Definition _write_analogsignal (block_id tag_id : string) (signal : analogsignal) : M string :=
  nix_block <- get_block block_id ;;
  let obj_name := get_obj_nix_name (name (sig_base signal)) tag_id in
  match find_by da_name (nb_data_arrays nix_block) obj_name with
  | Some _ => ret tt
  | None =>
      modify_file (update_block block_id (λ b,
        nb_with b (nb_tags b)
          (nb_data_arrays b ++ [{| da_name := obj_name; da_type := "neo_analogsignal";
                                   da_dtype := sig_dtype signal; da_data := sig_data signal;
                                   da_unit := None; da_dimensions := [];
                                   da_metadata := None |}])
          (nb_metadata b)))
  end ;;;
  let set_array (g : DataArray → DataArray) :=
    modify_file (update_block block_id (λ b,
      nb_with b (nb_tags b) (update_by da_name obj_name g (nb_data_arrays b)) (nb_metadata b))) in
  set_array (λ a, {| da_name := da_name a; da_type := da_type a; da_dtype := da_dtype a;
                     da_data := da_data a; da_unit := Some (sig_units signal);
                     da_dimensions :=
                       match da_dimensions a with
                       | [] => [(fst (sig_sampling_rate signal), Some (snd (sig_sampling_rate signal)))]
                       | (i, _) :: ds => (i, Some (snd (sig_sampling_rate signal))) :: ds
                       end;
                     da_metadata := da_metadata a |}) ;;;
  let metadata :=
    dict_set "t_start__unit" (MOne (VStr (snd (sig_t_start signal))))
      (dict_set "t_start" (MOne (VFloat (fst (sig_t_start signal))))
         (metadata_dict (sig_base signal)
            (_default_meta_attr_names ++ _analogsignal_meta_attrs))) in
  md <- match nb_metadata nix_block with
        | Some m => get_or_create_section m "analogsignal" obj_name
        | None => raise AttributeError
        end ;;
  set_array (λ a, {| da_name := da_name a; da_type := da_type a; da_dtype := da_dtype a;
                     da_data := da_data a; da_unit := da_unit a;
                     da_dimensions := da_dimensions a; da_metadata := Some md |}) ;;;
  write_metadata md metadata ;;;
  ret obj_name.

(** [for da in nix_tag.references: if da.name in to_remove: del ...]:
    the iterator walks the container by position while entries are
    deleted from it. *)
Fixpoint prune_references (fuel : nat) (to_remove : list string) (i : nat)
    (refs : list string) : list string :=
  match fuel with
  | 0 => refs
  | S fuel' =>
      match refs !! i with
      | None => refs
      | Some nm =>
          if contains to_remove nm
          then prune_references fuel' to_remove (S i) (delete i refs)
          else prune_references fuel' to_remove (S i) refs
      end
  end.

(** [_write_segment(nix_file, block_id, segment, recursive)]. *)
Definition _write_segment (block_id : string) (seg : segment) (recursive : bool) : M string :=
  nix_block <- get_block block_id ;;
  let nm := name (seg_base seg) in
  match find_by tag_name (nb_tags nix_block) nm with
  | Some _ => ret tt
  | None =>
      modify_file (update_block block_id (λ b,
        nb_with b (nb_tags b ++ [{| tag_name := nm; tag_type := "neo_segment";
                                    tag_position := [0%Q]; tag_references := [];
                                    tag_metadata := None |}])
          (nb_data_arrays b) (nb_metadata b)))
  end ;;;
  let set_tag (g : Tag → Tag) :=
    modify_file (update_block block_id (λ b,
      nb_with b (update_by tag_name nm g (nb_tags b)) (nb_data_arrays b) (nb_metadata b))) in
  let metadata := metadata_dict (seg_base seg)
                    (_default_meta_attr_names ++ _segment_meta_attrs) in
  md <- match nb_metadata nix_block with
        | Some m => get_or_create_section m "segment" nm
        | None => raise AttributeError
        end ;;
  set_tag (λ t, tag_with t (tag_references t) (Some md)) ;;;
  write_metadata md metadata ;;;
  (if recursive then
     let convert (x : analogsignal) := get_obj_nix_name (name (sig_base x)) nm in
     b1 <- get_block block_id ;;
     tag1 <- match find_by tag_name (nb_tags b1) nm with
             | Some t => ret t | None => raise KeyError end ;;
     let existing :=
       List.filter (λ r, from_option (λ a, String.eqb (da_type a) "neo_analogsignal") false
                           (find_by da_name (nb_data_arrays b1) r)) (tag_references tag1) in
     let wanted := convert <$> seg_analogsignals seg in
     let to_remove := set_minus existing wanted in
     let to_append := set_minus wanted existing in
     for_each (seg_analogsignals seg)
       (λ signal, _write_analogsignal block_id nm signal ;;; ret tt) ;;;
     set_tag (λ t, tag_with t
                (prune_references (length (tag_references t)) to_remove 0 (tag_references t))
                (tag_metadata t)) ;;;
     for_each to_append (λ a,
       b2 <- get_block block_id ;;
       match find_by da_name (nb_data_arrays b2) a with
       | Some _ => set_tag (λ t, tag_with t (tag_references t ++ [a]) (tag_metadata t))
       | None => raise KeyError
       end)
   else ret tt) ;;;
  ret nm.

(** [_write_block(nix_file, block, recursive)]. *)
Definition _write_block (blk : block) (recursive : bool) : M string :=
  d <- get_file ;;
  let nm := name (blk_base blk) in
  match find_by nb_name (blocks d) nm with
  | Some _ => ret tt
  | None =>
      modify_file (λ d, with_blocks d
        (blocks d ++ [{| nb_name := nm; nb_type := "neo_block"; nb_tags := [];
                         nb_data_arrays := []; nb_metadata := None |}]))
  end ;;;
  let metadata := metadata_dict (blk_base blk)
                    (_default_meta_attr_names ++ _block_meta_attrs) in
  d1 <- get_file ;;
  md <- match find_section d1 (sections d1) nm with
        | Some s => ret s
        | None => create (create_section None nm "block")
        end ;;
  modify_file (update_block nm (λ b, nb_with b (nb_tags b) (nb_data_arrays b) (Some md))) ;;;
  write_metadata md metadata ;;;
  (if recursive then
     nix_block <- get_block nm ;;
     let existing := List.filter (λ x, String.eqb (tag_type x) "neo_segment") (nb_tags nix_block) in
     let to_remove := set_minus (tag_name <$> existing)
                                ((λ x, name (seg_base x)) <$> blk_segments blk) in
     for_each (blk_segments blk)
       (λ seg, _write_segment nm seg recursive ;;; ret tt) ;;;
     for_each to_remove (λ n,
       b <- get_block nm ;;
       match find_by tag_name (nb_tags b) n with
       | Some _ =>
           modify_file (update_block nm (λ b,
             nb_with b (delete_by tag_name n (nb_tags b)) (nb_data_arrays b) (nb_metadata b)))
       | None => raise KeyError
       end)
   else ret tt) ;;;
  ret nm.

(** *** Readers and the public methods *)

(** What [_read_block] builds: the name, the direct attributes found
    in the metadata and the remaining properties as annotations. *)
Record read_block_result := {
  rb_name : string;
  rb_attrs : list (string * list Value);
  rb_annotations : list (string * list Value)
}.

(** [_read_block(nix_file, block_id)]. *)
Definition _read_block (block_id : string) : M read_block_result :=
  nix_block <- get_block block_id ;;
  d <- get_file ;;
  sec <- match nb_metadata nix_block ≫= λ m, h_sections d !! m with
         | Some s => ret s
         | None => raise TypeError
         end ;;
  let direct_attrs := _default_meta_attr_names ++ _block_meta_attrs in
  let props := (λ p, (prop_name p, prop_values p)) <$> sec_props sec in
  ret {| rb_name := nb_name nix_block;
         rb_attrs := List.filter (λ kv, contains direct_attrs (fst kv)) props;
         rb_annotations := List.filter (λ kv, negb (contains direct_attrs (fst kv))) props |}.

(** [read_all_blocks], [read_block] and [write_block], each wrapped by
    [@file_transaction]. *)
Definition read_all_blocks : M (list read_block_result) :=
  file_transaction (d <- get_file ;; map_m (λ b, _read_block (nb_name b)) (blocks d)).

Definition read_block (block_id : string) : M read_block_result :=
  file_transaction (_read_block block_id).

Definition write_block (blk : block) (recursive : bool) : M unit :=
  file_transaction (_write_block blk recursive ;;; ret tt).

End Neo2nix.

(** ** Vocabulary for the statements about the NIX file *)

Module Frame.
Import Py Neonix.

(** [m'] is [m], or [m] was unset and [m'] is a section created at or
    after table position [n0]. *)
Definition md_le (n0 : nat) (m m' : option nat) : Prop :=
  m' = m ∨ (m = None ∧ ∃ s, m' = Some s ∧ n0 ≤ s).

(** Every object of the old table is still there, related by [R]. *)
Definition tab_ext {A} (R : A → A → Prop) (h0 h : list A) : Prop :=
  ∀ i o, h0 !! i = Some o → ∃ o', h !! i = Some o' ∧ R o o'.

Definition R_block (n0 : nat) (o o' : NixBlock) : Prop :=
  nb_name o' = nb_name o ∧ nb_type o' = nb_type o ∧
  nb_definition o' = nb_definition o ∧ nb_created_at o' = nb_created_at o ∧
  md_le n0 (nb_metadata o) (nb_metadata o') ∧
  nb_groups o `prefix_of` nb_groups o' ∧
  nb_data_arrays o `prefix_of` nb_data_arrays o' ∧
  nb_multi_tags o `prefix_of` nb_multi_tags o' ∧
  nb_sources o `prefix_of` nb_sources o'.

Definition R_group (n0 : nat) (o o' : Group) : Prop :=
  grp_name o' = grp_name o ∧ grp_type o' = grp_type o ∧
  grp_definition o' = grp_definition o ∧ grp_created_at o' = grp_created_at o ∧
  md_le n0 (grp_metadata o) (grp_metadata o') ∧
  grp_data_arrays o `prefix_of` grp_data_arrays o' ∧
  grp_multi_tags o `prefix_of` grp_multi_tags o'.

Definition R_source (n0 : nat) (o o' : Source) : Prop :=
  src_name o' = src_name o ∧ src_type o' = src_type o ∧
  src_definition o' = src_definition o ∧
  md_le n0 (src_metadata o) (src_metadata o') ∧
  src_sources o `prefix_of` src_sources o'.

Definition R_data_array (o o' : DataArray) : Prop :=
  da_name o' = da_name o ∧ da_type o' = da_type o ∧
  da_sources o `prefix_of` da_sources o'.

Definition R_multi_tag (o o' : MultiTag) : Prop :=
  mt_name o' = mt_name o ∧ mt_type o' = mt_type o ∧
  mt_sources o `prefix_of` mt_sources o'.

Definition R_section (o o' : Section) : Prop :=
  sec_name o' = sec_name o ∧ sec_type o' = sec_type o ∧
  sec_props o' = sec_props o ∧
  sec_sections o `prefix_of` sec_sections o'.

(** The objects that carry children: Blocks, Groups and Sources. *)
Definition is_container (r : obj_ref) : Prop :=
  match r with RBlock _ | RGroup _ | RSource _ => True | _ => False end.

(** A container that had no metadata in [f0] and has some in [f] got
    an empty section. *)
Definition fresh_md_empty (f0 f : File) : Prop :=
  ∀ r s, is_container r → obj_metadata f0 r = Some None →
         obj_metadata f r = Some (Some s) →
         sec_props <$> h_sections f !! s = Some [].

(** [f] extends [f0]: what [f0] held is still there under the same
    names, collections only grew at their end, and the attributes of
    the containers of [f0] read the same. *)
Definition ext (f0 f : File) : Prop :=
  blocks f0 `prefix_of` blocks f ∧
  sections f0 `prefix_of` sections f ∧
  tab_ext (R_block (length (h_sections f0))) (h_blocks f0) (h_blocks f) ∧
  tab_ext (R_group (length (h_sections f0))) (h_groups f0) (h_groups f) ∧
  tab_ext (R_source (length (h_sections f0))) (h_sources f0) (h_sources f) ∧
  tab_ext R_data_array (h_data_arrays f0) (h_data_arrays f) ∧
  tab_ext R_multi_tag (h_multi_tags f0) (h_multi_tags f) ∧
  tab_ext R_section (h_sections f0) (h_sections f) ∧
  fresh_md_empty f0 f.

(** Handles stored in a collection point into the table. *)
Definition live_ids {A} (h : list A) (ids : list nat) : Prop :=
  Forall (λ i, i < length h) ids.

(** A well-formed file: every stored handle is live. *)
Definition wf (f : File) : Prop :=
  live_ids (h_blocks f) (blocks f) ∧
  (∀ i o, h_blocks f !! i = Some o →
     live_ids (h_groups f) (nb_groups o) ∧ live_ids (h_data_arrays f) (nb_data_arrays o) ∧
     live_ids (h_multi_tags f) (nb_multi_tags o) ∧ live_ids (h_sources f) (nb_sources o)) ∧
  (∀ i o, h_groups f !! i = Some o →
     live_ids (h_data_arrays f) (grp_data_arrays o) ∧ live_ids (h_multi_tags f) (grp_multi_tags o)) ∧
  (∀ i o, h_sources f !! i = Some o → live_ids (h_sources f) (src_sources o)) ∧
  (∀ i o, h_data_arrays f !! i = Some o → live_ids (h_sources f) (da_sources o)) ∧
  (∀ i o, h_multi_tags f !! i = Some o → live_ids (h_sources f) (mt_sources o)) ∧
  (∀ r m, obj_metadata f r = Some (Some m) → m < length (h_sections f)).

(** The handle [r] does not exist in [f0]. *)
Definition fresh (f0 : File) (r : obj_ref) : Prop := obj_name f0 r = None.

(** Decimal digits, the characters of a collision index. *)
Definition digit (c : ascii) : Prop :=
  c ∈ ["0"; "1"; "2"; "3"; "4"; "5"; "6"; "7"; "8"; "9"]%char.

(** The table a container's handles point into. *)
Definition table_live (f : File) (c : container) (ids : list nat) : Prop :=
  match c with
  | CGroups => live_ids (h_groups f) ids
  | CDataArrays => live_ids (h_data_arrays f) ids
  | CMultiTags => live_ids (h_multi_tags f) ids
  | CSources => live_ids (h_sources f) ids
  end.

(** Updates of a DataArray that leave its name, type and Sources alone
    or add a Source. *)
Definition da_step (g : DataArray → DataArray) : Prop :=
  ∀ o, da_name (g o) = da_name o ∧ da_type (g o) = da_type o ∧
       da_sources o `prefix_of` da_sources (g o).
Definition mt_step (g : MultiTag → MultiTag) : Prop :=
  ∀ o, mt_name (g o) = mt_name o ∧ mt_type (g o) = mt_type o ∧
       mt_sources o `prefix_of` mt_sources (g o).

(** The instance with its file replaced. *)
Definition with_file (io : NixIO) (f : File) : NixIO :=
  {| nix_file := f; _object_map := _object_map io;
     _lazy_loaded := _lazy_loaded io; warnings := warnings io |}.

(** What [_get_or_init_metadata] leaves behind. *)
Definition metadata_post (obj : obj_ref) (io : NixIO) (s : nat) (io' : NixIO) : Prop :=
  ext (nix_file io) (nix_file io') ∧ wf (nix_file io') ∧
  io' = with_file io (nix_file io') ∧
  obj_metadata (nix_file io') obj = Some (Some s) ∧
  (∀ s0, obj_metadata (nix_file io) obj = Some (Some s0) → s = s0 ∧ io' = io) ∧
  (obj_metadata (nix_file io) obj = Some None →
     length (h_sections (nix_file io)) ≤ s ∧
     sec_props <$> h_sections (nix_file io') !! s = Some [] ∧
     ∀ r' m, r' ≠ obj → obj_metadata (nix_file io') r' = Some (Some m) → m < s).

(** *** Paths of the grammar [/block(/collection/name)*]

    The specification's reading of path resolution: the root name is
    looked up among the Blocks of the file, and every further pair
    selects a collection of the object reached so far by its label and
    indexes it by name. *)
Definition index_child (f : File) (parent : obj_ref) (label nm : string) : outcome obj_ref :=
  match _container_map label with
  | None => Raise KeyError
  | Some c =>
      match getattr f parent c with
      | Ok ids => container_get f c ids nm
      | Raise e => Raise e
      | Diverge => Diverge
      end
  end.

Definition resolve_steps (f : File) (b : string) (steps : list (string * string))
  : outcome obj_ref :=
  foldl (λ acc st, match acc with
                   | Ok parent => index_child f parent (fst st) (snd st)
                   | Raise e => Raise e
                   | Diverge => Diverge
                   end) (blocks_get f b) steps.

Definition path_of (b : string) (steps : list (string * string)) : string :=
  foldl (λ p st, p +:+ "/" +:+ fst st +:+ "/" +:+ snd st) ("/" +:+ b) steps.

Definition slash_free (s : string) : Prop := "/"%char ∉ list_ascii_of_string s.

(** The names a collection answers to. *)
Definition collection_names (f : File) (c : container) (ids : list nat) : list string :=
  match c with
  | CGroups => names_of grp_name (h_groups f) ids
  | CDataArrays => names_of da_name (h_data_arrays f) ids
  | CMultiTags => names_of mt_name (h_multi_tags f) ids
  | CSources => names_of src_name (h_sources f) ids
  end.

(** *** Relations every step of a method maintains *)

(** The file after a successful run of [m] is related by [R] to the
    file before it. *)
Definition preserves {A} (R : File → File → Prop) (m : M A) : Prop :=
  ∀ io a io', m io = Ok (a, io') → R (nix_file io) (nix_file io').

(** No Block was added and no Block changed its name. *)
Definition same_blocks (f f' : File) : Prop :=
  blocks f' = blocks f ∧ nb_name <$> h_blocks f' = nb_name <$> h_blocks f.

(** The names of the Blocks of the file. *)
Definition block_names (f : File) : list string := names_of nb_name (h_blocks f) (blocks f).

(** Units in which nothing is converted; enough to run the writer on
    sample data. *)
Definition plain_units : Quantities :=
  {| simplified := λ u, u; rescale := λ q _, magnitude q |}.

(** Sample data: a Block that carries a name only. *)
Definition named_base (i : nat) (n : string) : neo_base :=
  {| ident := i; name := Some n; description := None; file_origin := None;
     annotations := [] |}.
Definition bare_block (n : string) : block :=
  {| blk_base := named_base 1 n; blk_rec_datetime := None; blk_file_datetime := None;
     blk_segments := []; blk_recordingchannelgroups := [] |}.

(** *** What the signal writers store *)

(** The DataArray one channel of an AnalogSignal is stored as. *)
Definition channel_array (attr : nix_attrs) (data_units time_units : option string)
    (sampling_interval offset : Q) (section : nat) (idx : nat) (sig : list Q) : DataArray :=
  {| da_name := a_name attr +:+ "." +:+ str_nat idx; da_type := a_type attr;
     da_definition := a_definition attr; da_unit := data_units; da_data := Arr1 sig;
     da_dimensions := [SampledDimension sampling_interval time_units (Some "time") (Some offset);
                       SetDimension []];
     da_metadata := Some section; da_sources := [] |}.

(** The tables of DataArrays and of Sections only grow, the former not
    at all. *)
Definition arrays_kept (f f' : File) : Prop :=
  length (h_data_arrays f') = length (h_data_arrays f) ∧
  length (h_sections f) ≤ length (h_sections f').

(** Sample data: a signal of two channels with three samples each. *)
Definition two_channel_signal : analogsignal :=
  {| as_base := named_base 2 "sig";
     as_signal := [[1%Q; 2%Q; 3%Q]; [4%Q; 5%Q; 6%Q]];
     as_units := "mV";
     as_t_start := {| magnitude := 0%Q; q_units := "s" |};
     as_sampling_period := {| magnitude := 1%Q; q_units := "ms" |} |}.

(** *** The arrays of a signal, as [read_signal] collects them

    The parent of the path is resolved, and the arrays named
    [<name>.0], [<name>.1], ... are looked up in its collection until a
    name is missing. *)
Definition signal_group (f : File) (path : string) : outcome (list nat) :=
  match _get_object_at_file f (join "/" (drop_last 2 (split "/" path))) with
  | Ok parent =>
      match getattr f parent CDataArrays with
      | Ok ids =>
          match last1 (split "/" path) with
          | Some name => collect_signal_arrays (S (length ids)) f ids name 0
          | None => Raise IndexError
          end
      | Raise e => Raise e
      | Diverge => Diverge
      end
  | Raise e => Raise e
  | Diverge => Diverge
  end.

(** The metadata pointer of the array behind a handle. *)
Definition array_metadata (f : File) (d : nat) : option (option nat) :=
  da_metadata <$> h_data_arrays f !! d.

(** *** The properties of a Section *)

Definition props_at (f : File) (s : nat) : option (list Property) :=
  sec_props <$> h_sections f !! s.

(** The properties [create_property(nm, _to_value(v))] adds. *)
Definition encode (nm : string) (v : pyval) : list Property :=
  match snd (_to_value v) with
  | Ok (Some (Single x)) => [{| prop_name := nm; prop_values := [x] |}]
  | Ok (Some (Multi xs)) => [{| prop_name := nm; prop_values := xs |}]
  | _ => []
  end.

(** The properties [_write_attr_annotations] adds for [attr]. *)
Definition attr_props (attr : nix_attrs) : list Property :=
  from_option (λ dt, encode "file_datetime" (PDatetime dt)) [] (a_file_datetime attr)
  ++ from_option (λ fo, encode "file_origin" (PStr fo)) [] (a_file_origin attr)
  ++ from_option (λ l, l ≫= λ kv, encode (fst kv) (snd kv)) [] (a_annotations attr).

(** The properties a Neo object's own attributes are stored as when
    the object is neither a Block nor a Segment. *)
Definition own_props (b : neo_base) : list Property :=
  (if truthy_str (file_origin b)
   then from_option (λ fo, encode "file_origin" (PStr fo)) [] (file_origin b) else [])
  ++ (annotations b ≫= λ kv, encode (fst kv) (snd kv)).

(** Section [s] got the properties [ps] appended; no other property
    and no metadata pointer changed. *)
Definition props_grow (s : nat) (ps : list Property) (f f' : File) : Prop :=
  (∀ r, obj_metadata f' r = obj_metadata f r) ∧
  length (h_sections f') = length (h_sections f) ∧
  (∀ i, i ≠ s → props_at f' i = props_at f i) ∧
  props_at f' s = (λ l, l ++ ps) <$> props_at f s.

(** No metadata pointer that was set changed, no Section was removed
    and no property of a Section that existed changed. *)
Definition quiet (f f' : File) : Prop :=
  (∀ r m, obj_metadata f r = Some (Some m) → obj_metadata f' r = Some (Some m)) ∧
  length (h_sections f) ≤ length (h_sections f') ∧
  (∀ i, i < length (h_sections f) → props_at f' i = props_at f i).

(** The properties [write_spiketrain] leaves in the Section of the
    MultiTag: the object's own, the start time when it is not zero, and
    the stop time. *)
Definition spiketrain_props `{Quantities} (sptr : spiketrain) : list Property :=
  let time_units := _get_units (qa_units (st_times sptr)) false in
  own_props (st_base sptr)
  ++ (if truthy_quantity (st_t_start sptr)
      then [{| prop_name := "t_start";
               prop_values := [VFloat (rescale (st_t_start sptr) time_units)] |}]
      else [])
  ++ [{| prop_name := "t_stop";
         prop_values := [VFloat (rescale (st_t_stop sptr) time_units)] |}].

(** *** Who refers to a Source *)

(** [obj.sources] of a MultiTag or a DataArray. *)
Definition sources_of (f : File) (r : obj_ref) : option (list nat) :=
  match r with
  | RMultiTag t => mt_sources <$> h_multi_tags f !! t
  | RDataArray d => da_sources <$> h_data_arrays f !! d
  | _ => None
  end.

(** Every reference to a Source that was there still is. *)
Definition sources_grow (f f' : File) : Prop :=
  ∀ r srcs, sources_of f r = Some srcs →
    ∃ srcs', sources_of f' r = Some srcs' ∧ srcs ⊆ srcs'.

(** A method that leaves [_object_map] as it was. *)
Definition keeps_map {A} (m : M A) : Prop :=
  ∀ io a io', m io = Ok (a, io') → _object_map io' = _object_map io.

End Frame.

(** ** Vocabulary for the statements about the [neo2nix] file *)

Module Skeleton.
Import Py Neo2nix.

(** What identifies a Tag among its siblings: name and type. *)
Definition tag_sig (t : Tag) : string * string := (tag_name t, tag_type t).

(** The Blocks of a file with the Tags under each. *)
Definition skeleton (d : File) : list (string * list (string * string)) :=
  (λ b, (nb_name b, tag_sig <$> nb_tags b)) <$> blocks d.

(** The Tags under the Block [bid] answers to. *)
Definition block_tags (d : File) (bid : string) : option (list (string * string)) :=
  snd <$> find_by fst (skeleton d) bid.

Definition skel_update (bid : string) (g : list (string * string) → list (string * string))
    (sk : list (string * list (string * string))) : list (string * list (string * string)) :=
  update_by fst bid (λ p, (fst p, g (snd p))) sk.

(** [nix_block.tags[nm]], or a fresh Segment Tag. *)
Definition add_tag (nm : string) (ts : list (string * string)) : list (string * string) :=
  match find_by fst ts nm with
  | Some _ => ts
  | None => ts ++ [(nm, "neo_segment")]
  end.

(** The Segment containers under a Block. *)
Definition segment_tags (ts : list Tag) : list Tag :=
  List.filter (λ t, String.eqb (tag_type t) "neo_segment") ts.

(** A Block as this writer leaves it: Tag names are unique (NIX keeps
    them so) and every Tag is a Segment container. *)
Definition written_tags (ts : list (string * string)) : Prop :=
  NoDup (fst <$> ts) ∧ Forall (λ p, snd p = "neo_segment") ts.

(** A method that changes neither the Blocks nor the Tags of a file. *)
Definition keeps {A} (m : M A) : Prop :=
  ∀ io, skeleton <$> disk (snd (m io)) = skeleton <$> disk io.

(** Sample data: objects that carry a name only, and an instance on an
    empty file. *)
Definition base_of (n : string) : neo_base :=
  {| name := n; annotations := []; attr := λ _, None |}.
Definition segment_named (n : string) : segment :=
  {| seg_base := base_of n; seg_analogsignals := [] |}.
Definition block_of (n : string) (segs : list string) : block :=
  {| blk_base := base_of n; blk_segments := segment_named <$> segs |}.
Definition fresh_io : NixIO := new_io (Some empty_file) false.

(** The number of Segment containers under the Block [bid]. *)
Definition count_segments (io : NixIO) (bid : string) : option nat :=
  d ← disk io; b ← find_by nb_name (blocks d) bid; Some (length (segment_tags (nb_tags b))).

End Skeleton.

(** ** Vocabulary for the metadata of the [neo2nix] file *)

Module Stored.
Import Py Neo2nix.

(** [dict_to_store[k]], the dictionary being a list of items. *)
Definition dict_lookup (dict : list (string * meta)) (k : string) : option meta :=
  snd <$> List.find (λ kv, String.eqb (fst kv) k) dict.

(** [nix_section.props[k]] of the Section behind handle [s]. *)
Definition stored (io : NixIO) (s : nat) (k : string) : option (list Value) :=
  d ← disk io; sec ← h_sections d !! s; prop_values <$> find_by prop_name (sec_props sec) k.

(** What the instance knows about its file handle. *)
Definition handle_state (io : NixIO) : option nat * list nat * nat * bool :=
  (f io, open_handles io, opened io, readonly io).

(** A method that leaves the file handle of the instance alone. *)
Definition keeps_handle {A} (m : M A) : Prop :=
  ∀ io, handle_state (snd (m io)) = handle_state io.

(** Handles are numbered in the order they are opened. *)
Definition handles_numbered (io : NixIO) : Prop :=
  Forall (λ h, h < opened io) (open_handles io).

(** Sample data: an instance whose file holds one empty Section. *)
Definition one_section_io : NixIO :=
  new_io (Some {| blocks := []; sections := [0];
                  h_sections := [{| sec_name := "m"; sec_type := "block"; sec_props := [];
                                    sec_sections := [] |}] |}) false.

(** A method that leaves an observation [obs] of the instance alone,
    whether it returns or raises. *)
Definition keeps_on {A X} (obs : NixIO → X) (m : M A) : Prop :=
  ∀ io, obs (snd (m io)) = obs io.

(** For every Block of the file, its name and the Section it points to. *)
Definition block_pointers (io : NixIO) : option (list (string * option nat)) :=
  (λ d, (λ b, (nb_name b, nb_metadata b)) <$> blocks d) <$> disk io.

(** The Sections of the file. *)
Definition all_sections (io : NixIO) : option (list Section) := h_sections <$> disk io.

(** How a transaction leaves the handles: closed when the method
    returned, still open when it raised. *)
Definition handle_after {A} (io : NixIO) (r : outcome A * NixIO) : Prop :=
  match fst r with
  | Ok _ => open_handles (snd r) = open_handles io
  | _ => open_handles (snd r) = open_handles io ++ [opened io]
  end.

(** Sample data: a Block with a description, an index of zero and one
    annotation, and no Segments. *)
Definition described_block : block :=
  {| blk_base := {| name := "B"; annotations := [("area", MOne (VStr "V1"))];
                    attr := λ a, if String.eqb a "description" then Some (MOne (VStr "first"))
                                 else if String.eqb a "index" then Some (MOne (VInt 0))
                                 else None |};
     blk_segments := [] |}.

(** [sep in s]: the string [sep] occurs somewhere in [s]. *)
Fixpoint occurs (sep s : string) : bool :=
  String.prefix sep s ||
  match s with
  | EmptyString => false
  | String _ s' => occurs sep s'
  end.

(** Every Section listed as a child of a Section is in the file. *)
Definition sections_live (d : File) : Prop :=
  ∀ i s, h_sections d !! i = Some s →
    Forall (λ c, c < length (h_sections d)) (sec_sections s).

End Stored.
(** * Statements *)

(** ** Strings *)

Section Strings.
Import Py Frame.

Lemma str_app_nil_l (s : string) : "" +:+ s = s.
Proof. reflexivity. Qed.

Lemma str_app_cons (a : ascii) (s t : string) : String a s +:+ t = String a (s +:+ t).
Proof. reflexivity. Qed.

Lemma str_app_nil_r (s : string) : s +:+ "" = s.
Proof. induction s as [|a s IH]; [done | by rewrite str_app_cons, IH]. Qed.

Lemma str_app_assoc (a b c : string) : (a +:+ b) +:+ c = a +:+ (b +:+ c).
Proof. induction a as [|x a IH]; [done | by rewrite !str_app_cons, IH]. Qed.

Lemma str_length_app (a b : string) :
  String.length (a +:+ b) = String.length a + String.length b.
Proof. induction a as [|x a IH]; [done | rewrite str_app_cons; simpl; by rewrite IH]. Qed.

Lemma chars_app (a b : string) :
  list_ascii_of_string (a +:+ b) = list_ascii_of_string a ++ list_ascii_of_string b.
Proof. induction a as [|x a IH]; [done | rewrite str_app_cons; simpl; by rewrite IH]. Qed.

Lemma chars_inj (a b : string) :
  list_ascii_of_string a = list_ascii_of_string b → a = b.
Proof.
  intros E. rewrite <- (string_of_list_ascii_of_string a),
    <- (string_of_list_ascii_of_string b). by rewrite E.
Qed.

(** Cancelling a common suffix. *)
Lemma str_app_inj_r (a b s : string) : a +:+ s = b +:+ s → a = b.
Proof.
  intros E. apply chars_inj. apply (f_equal list_ascii_of_string) in E.
  rewrite !chars_app in E. by apply app_inv_tail in E.
Qed.

Lemma str_app_inj_l (s a b : string) : s +:+ a = s +:+ b → a = b.
Proof. apply String.app_inj. Qed.

(** [split] never returns the empty list, and [join] undoes it. *)
Lemma split_nonempty (c : ascii) (s : string) : split c s ≠ [].
Proof.
  induction s as [|a s IH]; simpl; [done|].
  destruct (Ascii.eqb a c); [done|]. by destruct (split c s).
Qed.

Lemma join_split (c : ascii) (s : string) :
  join (String c "") (split c s) = s.
Proof.
  induction s as [|a s IH]; simpl; [done|].
  destruct (Ascii.eqb_spec a c) as [->|Hne].
  - pose proof (split_nonempty c s) as Hn.
    destruct (split c s) as [|w ws] eqn:E; [done|].
    simpl in *. by rewrite IH.
  - pose proof (split_nonempty c s) as Hn.
    destruct (split c s) as [|w ws] eqn:E; [done|].
    destruct ws as [|w' ws]; simpl in *; by rewrite <- IH.
Qed.

(** A string without the separator is one part. *)
Lemma split_no_sep (c : ascii) (s : string) :
  c ∉ list_ascii_of_string s → split c s = [s].
Proof.
  induction s as [|a s IH]; simpl; [done|]. intros Hn.
  destruct (Ascii.eqb_spec a c) as [->|Hne]; [set_solver|].
  rewrite IH; [done | set_solver].
Qed.

(** Appending [sep ++ w] with a separator-free [w] adds the part [w]. *)
Lemma split_app_sep (c : ascii) (s w : string) :
  c ∉ list_ascii_of_string w →
  split c (s +:+ String c w) = split c s ++ [w].
Proof.
  intros Hw. induction s as [|a s IH]; [rewrite str_app_nil_l|rewrite str_app_cons]; simpl.
  - rewrite Ascii.eqb_refl. by rewrite split_no_sep.
  - destruct (Ascii.eqb a c); rewrite IH; [done|].
    pose proof (split_nonempty c s). by destruct (split c s).
Qed.

Lemma split_length_pos (c : ascii) (s : string) : 0 < length (split c s).
Proof. pose proof (split_nonempty c s). destruct (split c s); simpl; [done | lia]. Qed.

(** The first part of a path that starts with the separator is empty. *)
Lemma split_head_sep (c : ascii) (s : string) :
  split c (String c s) = "" :: split c s.
Proof. simpl. by rewrite Ascii.eqb_refl. Qed.

End Strings.

(** ** Decimal numerals *)

Section Numerals.
Import Py Frame.

Lemma pretty_N_char_digit (x : N) : digit (pretty_N_char x).
Proof.
  unfold digit, pretty_N_char. repeat case_match; set_solver.
Qed.

Lemma pretty_N_go_digits (x : N) (s : string) :
  Forall digit (list_ascii_of_string s) →
  Forall digit (list_ascii_of_string (pretty_N_go x s)).
Proof.
  revert s. induction (N.lt_wf_0 x) as [x _ IH]; intros s Hs.
  assert (x = 0 ∨ 0 < x)%N as [->|Hx] by lia.
  - by rewrite pretty_N_go_0.
  - rewrite pretty_N_go_step by done. apply IH.
    + by apply N.div_lt.
    + simpl. constructor; [apply pretty_N_char_digit | done].
Qed.

(** [str(n)] consists of decimal digits. *)
Lemma str_nat_digits (n : nat) : Forall digit (list_ascii_of_string (str_nat n)).
Proof.
  unfold str_nat, pretty, pretty_nat, pretty, pretty_N.
  case_decide.
  - simpl. constructor; [unfold digit; set_solver | constructor].
  - apply pretty_N_go_digits. simpl. constructor.
Qed.

Lemma str_nat_no_char (n : nat) (c : ascii) :
  ¬ digit c → c ∉ list_ascii_of_string (str_nat n).
Proof.
  intros Hc Hin. pose proof (str_nat_digits n) as Hd.
  rewrite Forall_forall in Hd. by apply Hc, Hd.
Qed.

Lemma slash_not_digit : ¬ digit "/"%char.
Proof.
  unfold digit. intros H.
  repeat (apply elem_of_cons in H as [?|H]; [done|]). by apply elem_of_nil in H.
Qed.

Lemma dot_not_digit : ¬ digit "."%char.
Proof.
  unfold digit. intros H.
  repeat (apply elem_of_cons in H as [?|H]; [done|]). by apply elem_of_nil in H.
Qed.

Lemma str_nat_inj (i j : nat) : str_nat i = str_nat j → i = j.
Proof. apply pretty_nat_inj. Qed.

End Numerals.

(** ** Name mediation *)

Section Mediation.
Import Py Neonix Frame.

Lemma contains_true (l : list string) (x : string) : contains l x = true ↔ x ∈ l.
Proof. unfold contains. apply bool_decide_eq_true. Qed.

Lemma contains_false (l : list string) (x : string) : contains l x = false ↔ x ∉ l.
Proof. unfold contains. apply bool_decide_eq_false. Qed.

(** Distinct indices give distinct probes. *)
Lemma probe_inj (base sfx : string) (i j : nat) :
  indexed_name base i +:+ sfx = indexed_name base j +:+ sfx → i = j.
Proof.
  intros E. apply str_app_inj_r in E. unfold indexed_name in E.
  apply str_app_inj_l, str_app_inj_l in E. by apply str_nat_inj.
Qed.

(** The loop returns the first free index at or after [idx], provided
    one lies within the fuel. *)
Lemma name_loop_first_free (base sfx : string) (container : list string) (fuel idx i : nat) :
  idx ≤ i → i < idx + fuel →
  (indexed_name base i +:+ sfx) ∉ container →
  (∀ j, idx ≤ j < i → (indexed_name base j +:+ sfx) ∈ container) →
  name_loop fuel base sfx container idx = Some (indexed_name base i).
Proof.
  revert idx. induction fuel as [|fuel IH]; intros idx Hle Hlt Hfree Hbusy; [lia|].
  simpl. destruct (decide (idx = i)) as [->|Hne].
  - by apply contains_false in Hfree as ->.
  - assert (contains container (indexed_name base idx +:+ sfx) = true) as ->.
    { apply contains_true, Hbusy. lia. }
    apply IH; [lia | lia | done | intros j Hj; apply Hbusy; lia].
Qed.

(** Pigeonhole: the probes [idx .. idx + length container] cannot all
    be taken. *)
Lemma free_index_exists (base sfx : string) (container : list string) (idx : nat) :
  ∃ i, idx ≤ i ∧ i < idx + S (length container) ∧
       ((indexed_name base i +:+ sfx) ∉ container) ∧
       (∀ j, idx ≤ j < i → (indexed_name base j +:+ sfx) ∈ container).
Proof.
  set (P := λ i, (indexed_name base i +:+ sfx) ∉ container).
  assert (∃ i, idx ≤ i < idx + S (length container) ∧ P i) as Hex.
  { destruct (decide (Exists (λ i, P i) (seq idx (S (length container))))) as [He|Hn].
    - apply Exists_exists in He as (i & Hi & HP). exists i. split; [|done].
      apply elem_of_seq in Hi. lia.
    - exfalso. apply not_Exists_Forall in Hn; [|intros; apply _].
      rewrite Forall_forall in Hn.
      set (probes := (λ i, indexed_name base i +:+ sfx) <$> seq idx (S (length container))).
      assert (probes ⊆+ container) as Hsub.
      { apply NoDup_submseteq.
        - apply NoDup_fmap_2; [|apply NoDup_seq].
          intros i j. apply probe_inj.
        - intros x Hx. apply list_elem_of_fmap in Hx as (i & -> & Hi).
          specialize (Hn i Hi). unfold P in Hn. simpl in Hn.
          by apply dec_stable in Hn. }
      apply submseteq_length in Hsub. unfold probes in Hsub.
      rewrite length_fmap, length_seq in Hsub. lia. }
  (* least such index *)
  destruct Hex as (i0 & Hi0 & HP0).
  assert (∀ n i, i < idx + n → idx ≤ i → P i →
            ∃ i', idx ≤ i' ∧ i' ≤ i ∧ P i' ∧ ∀ j, idx ≤ j < i' → ¬ P j) as Hleast.
  { induction n as [|n IHn]; intros i Hlt Hle HPi; [lia|].
    destruct (decide (Exists P (seq idx (i - idx)))) as [He|Hn].
    - apply Exists_exists in He as (k & Hk & HPk). apply elem_of_seq in Hk.
      destruct (IHn k) as (i' & ? & ? & ? & ?); [lia | lia | done|].
      exists i'. repeat split; [done | lia | done | done].
    - exists i. repeat split; [done | lia | done|].
      intros j Hj HPj. apply Hn, Exists_exists. exists j. split; [|done].
      apply elem_of_seq. lia. }
  destruct (Hleast (S (length container)) i0) as (i & ? & ? & HPi & Hmin); [lia | lia | done|].
  exists i. repeat split; [done | lia | done|].
  intros j Hj. specialize (Hmin j Hj). unfold P in Hmin. by apply dec_stable in Hmin.
Qed.

(** The loop always ends, with the first free index. *)
Lemma name_loop_total (base sfx : string) (container : list string) :
  ∃ i, 1 ≤ i ∧
    name_loop (S (length container)) base sfx container 1 = Some (indexed_name base i) ∧
    ((indexed_name base i +:+ sfx) ∉ container) ∧
    (∀ j, 1 ≤ j < i → (indexed_name base j +:+ sfx) ∈ container).
Proof.
  destruct (free_index_exists base sfx container 1) as (i & Hle & Hlt & Hfree & Hbusy).
  exists i. repeat split; [done | | done | done].
  by apply name_loop_first_free.
Qed.

Lemma nix_name_free (k : neo_kind) (nm : option string) (container : list string) :
  (nix_basename k nm +:+ suffix k) ∉ container →
  nix_name k nm container = Some (nix_basename k nm).
Proof.
  intros Hfree. unfold nix_name. by apply contains_false in Hfree as ->.
Qed.

Lemma nix_name_taken (k : neo_kind) (nm : option string) (container : list string) :
  (nix_basename k nm +:+ suffix k) ∈ container →
  ∃ i, 1 ≤ i ∧
    nix_name k nm container = Some (indexed_name (nix_basename k nm) i) ∧
    ((indexed_name (nix_basename k nm) i +:+ suffix k) ∉ container) ∧
    (∀ j, 1 ≤ j < i → (indexed_name (nix_basename k nm) j +:+ suffix k) ∈ container).
Proof.
  intros Htaken. unfold nix_name. apply contains_true in Htaken as ->. simpl.
  apply name_loop_total.
Qed.

(** The mediated name always exists and its probe is free. *)
Lemma nix_name_total (k : neo_kind) (nm : option string) (container : list string) :
  ∃ n, nix_name k nm container = Some n ∧ (n +:+ suffix k) ∉ container.
Proof.
  destruct (decide ((nix_basename k nm +:+ suffix k) ∈ container)) as [Hin|Hout].
  - destruct (nix_name_taken k nm container Hin) as (i & _ & E & Hfree & _). eauto.
  - eauto using nix_name_free.
Qed.

Lemma neo_attr_to_nix_name (o : neo_obj) (container : list string) (n : string) :
  nix_name (no_kind o) (name (no_base o)) container = Some n →
  ∃ attr, _neo_attr_to_nix o container = Ok attr ∧ a_name attr = n ∧
          a_type attr = "neo." +:+ lower (type_name (no_kind o)) ∧
          a_definition attr = description (no_base o).
Proof. intros E. unfold _neo_attr_to_nix. rewrite E. eauto. Qed.

(** C3.  The container name follows the mediation policy: the base is
    the logical name, or the synthesized tag ["neo.<Kind>"] when the
    entity has none; the probe is the base followed by [".0"] for the
    two signal kinds and the base itself otherwise; a free probe keeps
    the base unchanged, and a taken one yields ["base-k"] for the least
    [k >= 1] whose probe is free. *)
Theorem name_mediation_policy (o : neo_obj) (container : list string) :
  let k := no_kind o in
  let base := if truthy_str (name (no_base o)) then default "" (name (no_base o))
              else "neo." +:+ type_name k in
  let probe := λ n, n +:+ (if is_signal_kind k then ".0" else "") in
  ∃ attr, _neo_attr_to_nix o container = Ok attr ∧
    (probe base ∉ container → a_name attr = base) ∧
    (probe base ∈ container →
       ∃ i, 1 ≤ i ∧ a_name attr = base +:+ "-" +:+ str_nat i ∧
            (probe (base +:+ "-" +:+ str_nat i) ∉ container) ∧
            (∀ j, 1 ≤ j < i → probe (base +:+ "-" +:+ str_nat j) ∈ container)).
Proof.
  intros k base probe.
  assert (base = nix_basename k (name (no_base o))) as Hbase by reflexivity.
  assert (∀ n, probe n = n +:+ suffix k) as Hprobe by reflexivity.
  clearbody base probe. subst base.
  destruct (nix_name_total k (name (no_base o)) container) as (n & En & _).
  destruct (neo_attr_to_nix_name o container n En) as (attr & Ea & Hn & _).
  exists attr. split; [done|]. rewrite Hprobe. split.
  - intros Hfree. rewrite Hn.
    pose proof (nix_name_free k (name (no_base o)) container Hfree) as E.
    congruence.
  - intros Htaken.
    destruct (nix_name_taken k (name (no_base o)) container Htaken) as (i & Hi & E & Hf & Hb).
    exists i. rewrite Hprobe. repeat split; [done | | done |].
    + rewrite Hn. unfold indexed_name in E. congruence.
    + intros j Hj. rewrite Hprobe. by apply Hb.
Qed.

End Mediation.

(** ** Extension of tables and files *)

Section ExtBasics.
Import Py Neonix Frame.

Lemma md_le_refl (n0 : nat) (m : option nat) : md_le n0 m m.
Proof. by left. Qed.

Lemma md_le_trans (n0 n1 : nat) (m0 m1 m2 : option nat) :
  n0 ≤ n1 → md_le n0 m0 m1 → md_le n1 m1 m2 → md_le n0 m0 m2.
Proof.
  intros Hn [->|[-> (s & -> & Hs)]] [->|[E (s' & -> & Hs')]]; unfold md_le; eauto.
  - right. split; [done|]. exists s'. split; [done | lia].
  - discriminate.
Qed.

Lemma tab_ext_refl {A} (R : A → A → Prop) (h : list A) :
  (∀ o, R o o) → tab_ext R h h.
Proof. intros HR i o Hi. eauto. Qed.

Lemma tab_ext_trans {A} (R0 R1 R2 : A → A → Prop) (h0 h1 h2 : list A) :
  (∀ a b c, R0 a b → R1 b c → R2 a c) →
  tab_ext R0 h0 h1 → tab_ext R1 h1 h2 → tab_ext R2 h0 h2.
Proof.
  intros HR H01 H12 i o Hi.
  destruct (H01 i o Hi) as (o1 & Hi1 & Ho1).
  destruct (H12 i o1 Hi1) as (o2 & Hi2 & Ho2). eauto.
Qed.

Lemma tab_ext_length {A} (R : A → A → Prop) (h0 h : list A) :
  tab_ext R h0 h → length h0 ≤ length h.
Proof.
  intros H. destruct (decide (length h0 ≤ length h)) as [|Hn]; [done|].
  destruct (lookup_lt_is_Some_2 h0 (length h)) as [o Ho]; [lia|].
  destruct (H _ _ Ho) as (o' & Ho' & _).
  apply lookup_lt_Some in Ho'. lia.
Qed.

(** Appending to the table. *)
Lemma tab_ext_app {A} (R : A → A → Prop) (h0 h l : list A) :
  tab_ext R h0 h → tab_ext R h0 (h ++ l).
Proof.
  intros H i o Hi. destruct (H i o Hi) as (o' & Ho' & HR).
  exists o'. split; [by apply lookup_app_l_Some | done].
Qed.

(** Updating an object in place by a step that respects the relation. *)
Lemma tab_ext_alter {A} (R : A → A → Prop) (g : A → A) (h0 h : list A) (i : nat) :
  (∀ o o', h0 !! i = Some o → h !! i = Some o' → R o o' → R o (g o')) →
  tab_ext R h0 h → tab_ext R h0 (alter g i h).
Proof.
  intros Hg H j o Hj. destruct (H j o Hj) as (o' & Ho' & HR).
  destruct (decide (i = j)) as [->|Hne].
  - exists (g o'). split; [by rewrite list_lookup_alter_eq, Ho' | by eapply Hg].
  - exists o'. split; [by rewrite list_lookup_alter_ne | done].
Qed.

(** Updating an object that the old table does not have. *)
Lemma tab_ext_alter_fresh {A} (R : A → A → Prop) (g : A → A) (h0 h : list A) (i : nat) :
  h0 !! i = None → tab_ext R h0 h → tab_ext R h0 (alter g i h).
Proof. intros Hi. apply tab_ext_alter. intros o o' E. congruence. Qed.

Lemma R_block_refl n0 o : R_block n0 o o.
Proof. unfold R_block. repeat split; try done; apply md_le_refl. Qed.
Lemma R_group_refl n0 o : R_group n0 o o.
Proof. unfold R_group. repeat split; try done; apply md_le_refl. Qed.
Lemma R_source_refl n0 o : R_source n0 o o.
Proof. unfold R_source. repeat split; try done; apply md_le_refl. Qed.
Lemma R_data_array_refl o : R_data_array o o.
Proof. unfold R_data_array. repeat split; done. Qed.
Lemma R_multi_tag_refl o : R_multi_tag o o.
Proof. unfold R_multi_tag. repeat split; done. Qed.
Lemma R_section_refl o : R_section o o.
Proof. unfold R_section. repeat split; done. Qed.

Lemma R_block_trans n0 n1 a b c :
  n0 ≤ n1 → R_block n0 a b → R_block n1 b c → R_block n0 a c.
Proof.
  unfold R_block. intros Hn (?&?&?&?&?&?&?&?&?) (?&?&?&?&?&?&?&?&?).
  repeat split; try congruence; try (etrans; eassumption).
  eapply (md_le_trans n0 n1); eauto.
Qed.
Lemma R_group_trans n0 n1 a b c :
  n0 ≤ n1 → R_group n0 a b → R_group n1 b c → R_group n0 a c.
Proof.
  unfold R_group. intros Hn (?&?&?&?&?&?&?) (?&?&?&?&?&?&?).
  repeat split; try congruence; try (etrans; eassumption).
  eapply (md_le_trans n0 n1); eauto.
Qed.
Lemma R_source_trans n0 n1 a b c :
  n0 ≤ n1 → R_source n0 a b → R_source n1 b c → R_source n0 a c.
Proof.
  unfold R_source. intros Hn (?&?&?&?&?) (?&?&?&?&?).
  repeat split; try congruence; try (etrans; eassumption).
  eapply (md_le_trans n0 n1); eauto.
Qed.
Lemma R_data_array_trans a b c : R_data_array a b → R_data_array b c → R_data_array a c.
Proof.
  unfold R_data_array. intros (?&?&?) (?&?&?).
  repeat split; try congruence; etrans; eassumption.
Qed.
Lemma R_multi_tag_trans a b c : R_multi_tag a b → R_multi_tag b c → R_multi_tag a c.
Proof.
  unfold R_multi_tag. intros (?&?&?) (?&?&?).
  repeat split; try congruence; etrans; eassumption.
Qed.
Lemma R_section_trans a b c : R_section a b → R_section b c → R_section a c.
Proof.
  unfold R_section. intros (?&?&?&?) (?&?&?&?).
  repeat split; try congruence; etrans; eassumption.
Qed.

Lemma ext_refl (f : File) : ext f f.
Proof.
  unfold ext. repeat split; try done;
    try (apply tab_ext_refl; auto using R_block_refl, R_group_refl, R_source_refl,
           R_data_array_refl, R_multi_tag_refl, R_section_refl).
  intros r s _ H0 H1. congruence.
Qed.

Lemma ext_sections_length (f0 f : File) :
  ext f0 f → length (h_sections f0) ≤ length (h_sections f).
Proof. intros (_&_&_&_&_&_&_&H&_). by eapply tab_ext_length. Qed.

(** Metadata of an object of [f0] as [f] sees it. *)
Lemma ext_obj_metadata (f0 f : File) (r : obj_ref) (m : option nat) :
  ext f0 f → is_container r → obj_metadata f0 r = Some m →
  ∃ m', obj_metadata f r = Some m' ∧ md_le (length (h_sections f0)) m m'.
Proof.
  intros (_&_&Hb&Hg&Hs&_) Hc Hm. destruct r as [i|i|i|i|i]; simpl in *; try done.
  - destruct (h_blocks f0 !! i) as [o|] eqn:E; [|done].
    destruct (Hb _ _ E) as (o' & -> & HR). simpl. injection Hm as <-.
    eexists. split; [done|]. apply HR.
  - destruct (h_groups f0 !! i) as [o|] eqn:E; [|done].
    destruct (Hg _ _ E) as (o' & -> & HR). simpl. injection Hm as <-.
    eexists. split; [done|]. apply HR.
  - destruct (h_sources f0 !! i) as [o|] eqn:E; [|done].
    destruct (Hs _ _ E) as (o' & -> & HR). simpl. injection Hm as <-.
    eexists. split; [done|]. apply HR.
Qed.

Lemma ext_trans (f0 f1 f2 : File) : ext f0 f1 → ext f1 f2 → ext f0 f2.
Proof.
  intros H01 H12.
  pose proof (ext_sections_length _ _ H01) as Hlen.
  pose proof H01 as (Hb&Hs&Tb&Tg&Ts&Td&Tm&Tsec&Hf).
  pose proof H12 as (Hb'&Hs'&Tb'&Tg'&Ts'&Td'&Tm'&Tsec'&Hf').
  unfold ext. repeat split.
  - etrans; eassumption.
  - etrans; eassumption.
  - eapply tab_ext_trans; [|done|done]. intros. by eapply R_block_trans.
  - eapply tab_ext_trans; [|done|done]. intros. by eapply R_group_trans.
  - eapply tab_ext_trans; [|done|done]. intros. by eapply R_source_trans.
  - eapply tab_ext_trans; [|done|done]. intros. by eapply R_data_array_trans.
  - eapply tab_ext_trans; [|done|done]. intros. by eapply R_multi_tag_trans.
  - eapply tab_ext_trans; [|done|done]. intros. by eapply R_section_trans.
  - intros r s Hc H0 H2.
    destruct (ext_obj_metadata _ _ r None H01 Hc H0) as (m1 & H1 & Hle).
    destruct m1 as [s1|].
    + destruct (ext_obj_metadata _ _ r (Some s1) H12 Hc H1) as (m2 & H2' & Hle2).
      assert (m2 = Some s1) as ->.
      { destruct Hle2 as [->|[? _]]; [done | discriminate]. }
      assert (s = s1) as -> by congruence.
      pose proof (Hf r s1 Hc H0 H1) as Hp.
      destruct (h_sections f1 !! s1) as [sec|] eqn:E; [|done].
      destruct (Tsec' _ _ E) as (sec' & -> & (_&_&Hprops&_)).
      simpl in *. congruence.
    + by eapply Hf'.
Qed.

End ExtBasics.

(** ** Path resolution in an extended file *)

Section Resolution.
Import Py Neonix Frame.

Lemma find_name_Some {A} (nm : A → string) (h : list A) (ids : list nat) (key : string) (i : nat) :
  find_name nm h ids key = Some i ↔
  ∃ k, ids !! k = Some i ∧ (nm <$> h !! i) = Some key ∧
       ∀ j y, ids !! j = Some y → j < k → (nm <$> h !! y) ≠ Some key.
Proof.
  unfold find_name. split.
  - destruct (list_find _ ids) as [[k x]|] eqn:E; simpl; [|done].
    intros [= ->]. apply list_find_Some in E as (?&?&?). eauto.
  - intros (k & Hk & HP & Hmin).
    assert (list_find (λ i, (nm <$> h !! i) = Some key) ids = Some (k, i)) as ->; [|done].
    apply list_find_Some. eauto.
Qed.

Lemma find_name_None {A} (nm : A → string) (h : list A) (ids : list nat) (key : string) :
  find_name nm h ids key = None ↔ key ∉ names_of nm h ids.
Proof.
  unfold find_name, names_of. split.
  - destruct (list_find _ ids) as [[k x]|] eqn:E; simpl; [done|]. intros _.
    rewrite list_find_None in E. rewrite Forall_forall in E.
    intros Hin. apply list_elem_of_omap in Hin as (i & Hi & Hn). by apply (E i).
  - intros Hn. destruct (list_find _ ids) as [[k x]|] eqn:E; simpl; [|done].
    exfalso. apply list_find_Some in E as (Hk & HP & _). apply Hn.
    apply list_elem_of_omap. exists x. split; [|done]. by eapply list_elem_of_lookup_2.
Qed.

Lemma find_name_is_Some {A} (nm : A → string) (h : list A) (ids : list nat) (key : string) :
  key ∈ names_of nm h ids → is_Some (find_name nm h ids key).
Proof.
  intros Hin. destruct (find_name nm h ids key) eqn:E; [done|].
  by apply find_name_None in E.
Qed.

(** A name found among old handles is found at the same handle later. *)
Lemma find_name_ext {A} (nm : A → string) (R : A → A → Prop)
    (h0 h : list A) (ids0 ids : list nat) (key : string) (i : nat) :
  (∀ o o', R o o' → nm o' = nm o) →
  tab_ext R h0 h → live_ids h0 ids0 → ids0 `prefix_of` ids →
  find_name nm h0 ids0 key = Some i → find_name nm h ids key = Some i.
Proof.
  intros HR Hext Hlive [l ->] Hfind.
  assert (∀ y, y ∈ ids0 → nm <$> h !! y = nm <$> h0 !! y) as Hsame.
  { intros y Hy. unfold live_ids in Hlive. rewrite Forall_forall in Hlive.
    destruct (lookup_lt_is_Some_2 h0 y (Hlive y Hy)) as [o Ho].
    destruct (Hext _ _ Ho) as (o' & Ho' & Hoo). rewrite Ho, Ho'. simpl.
    by rewrite (HR _ _ Hoo). }
  apply find_name_Some in Hfind as (k & Hk & HP & Hmin).
  apply find_name_Some. exists k. split; [by apply lookup_app_l_Some|]. split.
  - rewrite Hsame; [done|]. by eapply list_elem_of_lookup_2.
  - intros j y Hj Hlt. rewrite lookup_app_l in Hj by (apply lookup_lt_Some in Hk; lia).
    rewrite Hsame by (by eapply list_elem_of_lookup_2). by eapply Hmin.
Qed.

(** The names of old handles do not change. *)
Lemma names_of_ext {A} (nm : A → string) (R : A → A → Prop)
    (h0 h : list A) (ids0 : list nat) :
  (∀ o o', R o o' → nm o' = nm o) →
  tab_ext R h0 h → live_ids h0 ids0 →
  names_of nm h ids0 = names_of nm h0 ids0.
Proof.
  intros HR Hext Hlive. unfold names_of. induction Hlive as [|y ids0 Hy _ IH]; [done|].
  destruct (lookup_lt_is_Some_2 h0 y Hy) as [o Ho].
  destruct (Hext _ _ Ho) as (o' & Ho' & Hoo).
  simpl. rewrite Ho, Ho'. simpl. rewrite (HR _ _ Hoo). f_equal. apply IH.
Qed.

Lemma names_of_app {A} (nm : A → string) (h : list A) (l1 l2 : list nat) :
  names_of nm h (l1 ++ l2) = names_of nm h l1 ++ names_of nm h l2.
Proof. unfold names_of. apply omap_app. Qed.

Lemma getattr_live (f : File) (r : obj_ref) (c : container) (ids : list nat) :
  wf f → getattr f r c = Ok ids → table_live f c ids.
Proof.
  intros (_&Hb&Hg&Hs&Hd&Hm&_) E.
  destruct r as [i|i|i|i|i], c; simpl in *; try done.
  all: match type of E with
       | from_option _ _ (_ <$> ?h !! ?i) = _ =>
           destruct (h !! i) as [o|] eqn:Eo; simpl in E; [|done]; injection E as <-
       end.
  - by apply (Hb _ _ Eo).
  - by apply (Hb _ _ Eo).
  - by apply (Hb _ _ Eo).
  - by apply (Hb _ _ Eo).
  - by apply (Hg _ _ Eo).
  - by apply (Hg _ _ Eo).
  - by apply (Hd _ _ Eo).
  - by apply (Hm _ _ Eo).
  - by apply (Hs _ _ Eo).
Qed.

Lemma getattr_ext (f0 f : File) (r : obj_ref) (c : container) (ids0 : list nat) :
  ext f0 f → getattr f0 r c = Ok ids0 →
  ∃ ids, getattr f r c = Ok ids ∧ ids0 `prefix_of` ids.
Proof.
  intros (_&_&Tb&Tg&Ts&Td&Tm&_) E.
  destruct r as [i|i|i|i|i], c; simpl in *; try done.
  all: match type of E with
       | from_option _ _ (_ <$> ?h !! ?i) = _ =>
           destruct (h !! i) as [o|] eqn:Eo; simpl in E; [|done]; injection E as <-
       end.
  all: first [ destruct (Tb _ _ Eo) as (o' & -> & HR)
             | destruct (Tg _ _ Eo) as (o' & -> & HR)
             | destruct (Ts _ _ Eo) as (o' & -> & HR)
             | destruct (Td _ _ Eo) as (o' & -> & HR)
             | destruct (Tm _ _ Eo) as (o' & -> & HR) ];
    simpl; eexists; (split; [done|]); apply HR.
Qed.

Lemma container_get_ext (f0 f : File) (c : container) (ids0 ids : list nat)
    (key : string) (r : obj_ref) :
  ext f0 f → table_live f0 c ids0 → ids0 `prefix_of` ids →
  container_get f0 c ids0 key = Ok r → container_get f c ids key = Ok r.
Proof.
  intros (_&_&Tb&Tg&Ts&Td&Tm&_) Hlive Hpre E.
  destruct c; simpl in *.
  - destruct (find_name grp_name (h_groups f0) ids0 key) as [i|] eqn:Ef; [|done].
    erewrite (find_name_ext grp_name); [done| |done|done|done|done].
    intros o o' HR. apply HR.
  - destruct (find_name da_name (h_data_arrays f0) ids0 key) as [i|] eqn:Ef; [|done].
    erewrite (find_name_ext da_name); [done| |done|done|done|done].
    intros o o' HR. apply HR.
  - destruct (find_name mt_name (h_multi_tags f0) ids0 key) as [i|] eqn:Ef; [|done].
    erewrite (find_name_ext mt_name); [done| |done|done|done|done].
    intros o o' HR. apply HR.
  - destruct (find_name src_name (h_sources f0) ids0 key) as [i|] eqn:Ef; [|done].
    erewrite (find_name_ext src_name); [done| |done|done|done|done].
    intros o o' HR. apply HR.
Qed.

Lemma blocks_get_ext (f0 f : File) (key : string) (r : obj_ref) :
  wf f0 → ext f0 f → blocks_get f0 key = Ok r → blocks_get f key = Ok r.
Proof.
  intros (Hl&_) (Hpre&_&Tb&_) E. unfold blocks_get in *.
  destruct (find_name nb_name (h_blocks f0) (blocks f0) key) as [i|] eqn:Ef; [|done].
  erewrite (find_name_ext nb_name); [done| |done|done|done|done].
  intros o o' HR. apply HR.
Qed.

(** Whatever a path named in [f0], it names in every extension of [f0]. *)
Lemma get_object_at_depth_ext (f0 f : File) (depth : nat) (path : string) (r : obj_ref) :
  wf f0 → ext f0 f →
  get_object_at_depth depth f0 path = Ok r → get_object_at_depth depth f path = Ok r.
Proof.
  intros Hwf Hext. revert path r.
  induction depth as [|depth IH]; intros path r E; simpl in *; [done|].
  destruct (length (split "/" path) =? 2).
  - destruct (split "/" path !! 1); [|done]. by eapply blocks_get_ext.
  - destruct (get_object_at_depth depth f0 _) as [p| |] eqn:Ep; [|done|done].
    rewrite (IH _ _ Ep).
    destruct (last2 _); [|done]. destruct (_container_map _) as [c|]; [|done].
    destruct (getattr f0 p c) as [ids0| |] eqn:Eg; [|done|done].
    destruct (getattr_ext _ _ _ _ _ Hext Eg) as (ids & -> & Hpre).
    destruct (last1 _); [|done].
    eapply container_get_ext; [done| |done|done]. by eapply getattr_live.
Qed.

(** More depth does not change a result. *)
Lemma get_object_at_depth_mono (f : File) (d d' : nat) (path : string) (r : obj_ref) :
  d ≤ d' → get_object_at_depth d f path = Ok r → get_object_at_depth d' f path = Ok r.
Proof.
  revert d' path r. induction d as [|d IH]; intros d' path r Hle E; simpl in *; [done|].
  destruct d' as [|d']; [lia|]. simpl.
  destruct (length (split "/" path) =? 2); [done|].
  destruct (get_object_at_depth d f _) as [p| |] eqn:Ep; [|done|done].
  rewrite (IH d' _ _ ltac:(lia) Ep). done.
Qed.

End Resolution.

(** ** The store operations extend the file *)

Section ExtPrimitives.
Import Py Neonix Frame.

Lemma lookup_alter_proj {A B} (p : A → B) (g : A → A) (i j : nat) (h : list A) :
  (∀ o, p (g o) = p o) → p <$> alter g i h !! j = p <$> h !! j.
Proof.
  intros Hp. rewrite list_lookup_alter. case_decide; [subst|done].
  destruct (h !! j); simpl; [by rewrite Hp | done].
Qed.

Lemma lookup_snoc_proj {A B} (p : A → B) (h : list A) (x : A) (j : nat) (y : B) :
  p <$> (h ++ [x]) !! j = Some y →
  p <$> h !! j = Some y ∨ (j = length h ∧ p x = y).
Proof.
  intros E. destruct (decide (j < length h)) as [Hlt|Hge].
  - left. by rewrite lookup_app_l in E.
  - right. rewrite lookup_app_r in E by lia.
    destruct (j - length h) as [|k] eqn:Ek; simpl in E; [|done].
    split; [lia | congruence].
Qed.

Lemma fresh_md_empty_step (f0 f f' : File) :
  fresh_md_empty f0 f →
  (∀ r m, is_container r → is_Some (obj_metadata f0 r) →
          obj_metadata f' r = Some (Some m) → obj_metadata f r = Some (Some m)) →
  (∀ s, sec_props <$> h_sections f !! s = Some [] →
        sec_props <$> h_sections f' !! s = Some []) →
  fresh_md_empty f0 f'.
Proof.
  intros Hf P1 P2 r s Hc H0 H'. apply P2. eapply Hf; [done|done|].
  apply P1; [done | by rewrite H0 | done].
Qed.

(** Steps on single objects that keep them related to what they were. *)
Ltac solve_R :=
  let o := fresh "o" in let o' := fresh "o'" in
  intros o o'; unfold R_block, R_group, R_source, R_data_array, R_multi_tag, R_section;
  intros; destruct_and?; simpl; repeat split; try done;
  try (by apply prefix_app_r).

Lemma R_block_add_group n0 i : ∀ o o', R_block n0 o o' → R_block n0 o (nb_add_group i o').
Proof. solve_R. Qed.
Lemma R_block_add_data_array n0 i : ∀ o o', R_block n0 o o' → R_block n0 o (nb_add_data_array i o').
Proof. solve_R. Qed.
Lemma R_block_add_multi_tag n0 i : ∀ o o', R_block n0 o o' → R_block n0 o (nb_add_multi_tag i o').
Proof. solve_R. Qed.
Lemma R_block_add_source n0 i : ∀ o o', R_block n0 o o' → R_block n0 o (nb_add_source i o').
Proof. solve_R. Qed.
Lemma R_group_add_data_array n0 i : ∀ o o', R_group n0 o o' → R_group n0 o (grp_add_data_array i o').
Proof. solve_R. Qed.
Lemma R_group_add_multi_tag n0 i : ∀ o o', R_group n0 o o' → R_group n0 o (grp_add_multi_tag i o').
Proof. solve_R. Qed.
Lemma R_source_add_source n0 i : ∀ o o', R_source n0 o o' → R_source n0 o (src_add_source i o').
Proof. solve_R. Qed.
Lemma R_section_add_section i : ∀ o o', R_section o o' → R_section o (sec_add_section i o').
Proof. solve_R. Qed.

(** Any update of a DataArray or MultiTag through [da_with]/[mt_with]
    that keeps or extends its Sources. *)
Lemma R_data_array_with defn u dims md srcs :
  ∀ o o', R_data_array o o' → da_sources o' `prefix_of` srcs →
          R_data_array o (da_with o' defn u dims md srcs).
Proof.
  intros o o'. unfold R_data_array. intros (?&?&?) ?. simpl.
  repeat split; try done. by etrans.
Qed.
Lemma R_multi_tag_with defn ext refs feats md srcs :
  ∀ o o', R_multi_tag o o' → mt_sources o' `prefix_of` srcs →
          R_multi_tag o (mt_with o' defn ext refs feats md srcs).
Proof.
  intros o o'. unfold R_multi_tag. intros (?&?&?) ?. simpl.
  repeat split; try done. by etrans.
Qed.

Lemma R_data_array_step g : da_step g → ∀ o o', R_data_array o o' → R_data_array o (g o').
Proof.
  intros Hg o o' (?&?&?). destruct (Hg o') as (?&?&?).
  unfold R_data_array. repeat split; try congruence. by etrans.
Qed.
Lemma R_multi_tag_step g : mt_step g → ∀ o o', R_multi_tag o o' → R_multi_tag o (g o').
Proof.
  intros Hg o o' (?&?&?). destruct (Hg o') as (?&?&?).
  unfold R_multi_tag. repeat split; try congruence. by etrans.
Qed.

Lemma da_step_set_definition d : da_step (da_set_definition d).
Proof. intros o. by repeat split. Qed.
Lemma da_step_set_unit u : da_step (da_set_unit u).
Proof. intros o. by repeat split. Qed.
Lemma da_step_append_dimension d : da_step (da_append_dimension d).
Proof. intros o. by repeat split. Qed.
Lemma da_step_set_metadata m : da_step (da_set_metadata m).
Proof. intros o. by repeat split. Qed.
Lemma da_step_add_source s : da_step (da_add_source s).
Proof. intros o. repeat split; try done. simpl. by apply prefix_app_r. Qed.
Lemma mt_step_set_definition d : mt_step (mt_set_definition d).
Proof. intros o. by repeat split. Qed.
Lemma mt_step_set_extents e : mt_step (mt_set_extents e).
Proof. intros o. by repeat split. Qed.
Lemma mt_step_extend_references r : mt_step (mt_extend_references r).
Proof. intros o. by repeat split. Qed.
Lemma mt_step_add_feature a : mt_step (mt_add_feature a).
Proof. intros o. by repeat split. Qed.
Lemma mt_step_set_metadata m : mt_step (mt_set_metadata m).
Proof. intros o. by repeat split. Qed.
Lemma mt_step_add_source s : mt_step (mt_add_source s).
Proof. intros o. repeat split; try done. simpl. by apply prefix_app_r. Qed.

(** Metadata of containers under updates of the tables. *)
Lemma obj_metadata_snoc_block (f : File) l b r m :
  obj_metadata (with_blocks f l (h_blocks f ++ [b])) r = Some (Some m) →
  nb_metadata b = None → obj_metadata f r = Some (Some m).
Proof.
  destruct r; simpl; try done. intros E Hb.
  apply lookup_snoc_proj in E as [E|[_ E]]; [done | congruence].
Qed.

Lemma ext_create_block (f0 f : File) (nm ty : string) :
  ext f0 f → ext f0 (snd (create_block nm ty f)).
Proof.
  intros (Hb&Hs&Tb&Tg&Ts&Td&Tm&Tsec&Hf). unfold ext. simpl. unfold upd. repeat split; try done.
  - by apply prefix_app_r.
  - by apply tab_ext_app.
  - eapply fresh_md_empty_step; [done| |done].
    intros r m Hc _ E. by eapply obj_metadata_snoc_block.
Qed.

Lemma ext_create_group (f0 f : File) (b : nat) (nm ty : string) :
  ext f0 f → ext f0 (snd (create_group b nm ty f)).
Proof.
  intros (Hb&Hs&Tb&Tg&Ts&Td&Tm&Tsec&Hf). unfold ext. simpl. unfold upd. repeat split; try done.
  - apply tab_ext_alter; [|done]. intros. by apply R_block_add_group.
  - by apply tab_ext_app.
  - eapply fresh_md_empty_step; [done| |done].
    intros r m Hc _ E. destruct r; simpl in *; try done.
    + by rewrite (lookup_alter_proj nb_metadata) in E.
    + apply lookup_snoc_proj in E as [E|[_ E]]; [done | discriminate].
Qed.

Lemma ext_create_data_array (f0 f : File) (b : nat) (nm ty : string) (data : ndarray) :
  ext f0 f → ext f0 (snd (create_data_array b nm ty data f)).
Proof.
  intros (Hb&Hs&Tb&Tg&Ts&Td&Tm&Tsec&Hf). unfold ext. simpl. unfold upd. repeat split; try done.
  - apply tab_ext_alter; [|done]. intros. by apply R_block_add_data_array.
  - by apply tab_ext_app.
  - eapply fresh_md_empty_step; [done| |done].
    intros r m Hc _ E. destruct r; simpl in *; try done.
    by rewrite (lookup_alter_proj nb_metadata) in E.
Qed.

Lemma ext_create_multi_tag (f0 f : File) (b : nat) (nm ty : string) (pos : nat) :
  ext f0 f → ext f0 (snd (create_multi_tag b nm ty pos f)).
Proof.
  intros (Hb&Hs&Tb&Tg&Ts&Td&Tm&Tsec&Hf). unfold ext. simpl. unfold upd. repeat split; try done.
  - apply tab_ext_alter; [|done]. intros. by apply R_block_add_multi_tag.
  - by apply tab_ext_app.
  - eapply fresh_md_empty_step; [done| |done].
    intros r m Hc _ E. destruct r; simpl in *; try done.
    by rewrite (lookup_alter_proj nb_metadata) in E.
Qed.

Lemma ext_create_source (f0 f : File) (parent : obj_ref) (nm ty : string) :
  ext f0 f → ext f0 (snd (create_source parent nm ty f)).
Proof.
  intros (Hb&Hs&Tb&Tg&Ts&Td&Tm&Tsec&Hf). unfold ext.
  destruct parent as [p|p|p|p|p]; simpl; unfold upd; repeat split; try done;
    try (by apply tab_ext_app).
  - apply tab_ext_alter; [|done]. intros. by apply R_block_add_source.
  - eapply fresh_md_empty_step; [done| |done].
    intros r m Hc _ E. destruct r; simpl in *; try done.
    + by rewrite (lookup_alter_proj nb_metadata) in E.
    + apply lookup_snoc_proj in E as [E|[_ E]]; [done | discriminate].
  - eapply fresh_md_empty_step; [done| |done].
    intros r m Hc _ E. destruct r; simpl in *; try done.
    apply lookup_snoc_proj in E as [E|[_ E]]; [done | discriminate].
  - eapply fresh_md_empty_step; [done| |done].
    intros r m Hc _ E. destruct r; simpl in *; try done.
    apply lookup_snoc_proj in E as [E|[_ E]]; [done | discriminate].
  - eapply fresh_md_empty_step; [done| |done].
    intros r m Hc _ E. destruct r; simpl in *; try done.
    apply lookup_snoc_proj in E as [E|[_ E]]; [done | discriminate].
  - apply tab_ext_alter; [|by apply tab_ext_app]. intros. by apply R_source_add_source.
  - eapply fresh_md_empty_step; [done| |done].
    intros r m Hc _ E. destruct r; simpl in *; try done.
    rewrite (lookup_alter_proj src_metadata) in E by done.
    apply lookup_snoc_proj in E as [E|[_ E]]; [done | discriminate].
Qed.

Lemma ext_create_section (f0 f : File) (parent : option nat) (nm ty : string) :
  ext f0 f → ext f0 (snd (create_section parent nm ty f)).
Proof.
  intros (Hb&Hs&Tb&Tg&Ts&Td&Tm&Tsec&Hf). unfold ext.
  destruct parent as [p|]; simpl; unfold upd; repeat split; try done.
  - apply tab_ext_alter; [|by apply tab_ext_app]. intros. by apply R_section_add_section.
  - eapply fresh_md_empty_step; [done|by destruct r|].
    intros s E. simpl. rewrite (lookup_alter_proj sec_props) by done.
    destruct (h_sections f !! s) eqn:Es; [|done]. by erewrite lookup_app_l_Some.
  - by apply prefix_app_r.
  - by apply tab_ext_app.
  - eapply fresh_md_empty_step; [done|by destruct r|].
    intros s E. simpl.
    destruct (h_sections f !! s) eqn:Es; [|done]. by erewrite lookup_app_l_Some.
Qed.

Lemma ext_da_update (f0 f : File) (d : nat) (g : DataArray → DataArray) :
  da_step g → ext f0 f → ext f0 (with_h_data_arrays f (upd g d (h_data_arrays f))).
Proof.
  intros Hg (Hb&Hs&Tb&Tg&Ts&Td&Tm&Tsec&Hf). unfold ext. simpl. unfold upd.
  repeat split; try done.
  - apply tab_ext_alter; [|done]. intros. by apply R_data_array_step.
  - eapply fresh_md_empty_step; [done| |done]. intros r m Hc _ E. by destruct r.
Qed.

Lemma ext_mt_update (f0 f : File) (t : nat) (g : MultiTag → MultiTag) :
  mt_step g → ext f0 f → ext f0 (with_h_multi_tags f (upd g t (h_multi_tags f))).
Proof.
  intros Hg (Hb&Hs&Tb&Tg&Ts&Td&Tm&Tsec&Hf). unfold ext. simpl. unfold upd.
  repeat split; try done.
  - apply tab_ext_alter; [|done]. intros. by apply R_multi_tag_step.
  - eapply fresh_md_empty_step; [done| |done]. intros r m Hc _ E. by destruct r.
Qed.

Lemma ext_group_append_data_array (f0 f : File) (g d : nat) :
  ext f0 f → ext f0 (with_h_groups f (upd (grp_add_data_array d) g (h_groups f))).
Proof.
  intros (Hb&Hs&Tb&Tg&Ts&Td&Tm&Tsec&Hf). unfold ext. simpl. unfold upd.
  repeat split; try done.
  - apply tab_ext_alter; [|done]. intros. by apply R_group_add_data_array.
  - eapply fresh_md_empty_step; [done| |done].
    intros r m Hc _ E. destruct r; simpl in *; try done.
    by rewrite (lookup_alter_proj grp_metadata) in E.
Qed.

Lemma ext_group_append_multi_tag (f0 f : File) (g t : nat) :
  ext f0 f → ext f0 (with_h_groups f (upd (grp_add_multi_tag t) g (h_groups f))).
Proof.
  intros (Hb&Hs&Tb&Tg&Ts&Td&Tm&Tsec&Hf). unfold ext. simpl. unfold upd.
  repeat split; try done.
  - apply tab_ext_alter; [|done]. intros. by apply R_group_add_multi_tag.
  - eapply fresh_md_empty_step; [done| |done].
    intros r m Hc _ E. destruct r; simpl in *; try done.
    by rewrite (lookup_alter_proj grp_metadata) in E.
Qed.

(** A handle that [f0] lacks has no entry in its table. *)
Lemma fresh_block f0 i : fresh f0 (RBlock i) → h_blocks f0 !! i = None.
Proof. unfold fresh. simpl. by destruct (h_blocks f0 !! i). Qed.
Lemma fresh_group f0 i : fresh f0 (RGroup i) → h_groups f0 !! i = None.
Proof. unfold fresh. simpl. by destruct (h_groups f0 !! i). Qed.
Lemma fresh_source f0 i : fresh f0 (RSource i) → h_sources f0 !! i = None.
Proof. unfold fresh. simpl. by destruct (h_sources f0 !! i). Qed.

Lemma fresh_no_metadata f0 r : fresh f0 r → obj_metadata f0 r = None.
Proof.
  unfold fresh. destruct r; simpl; intros E;
    match goal with |- _ <$> ?x = None => by destruct x end.
Qed.

(** Updating a field of an object that [f0] does not have, or of a
    DataArray or MultiTag. *)
Lemma ext_set_definition (f0 f : File) (r : obj_ref) (d : option string) :
  fresh f0 r ∨ ¬ is_container r →
  ext f0 f → ext f0 (set_definition r d f).
Proof.
  intros Hr Hext. destruct r as [i|i|i|i|i]; simpl.
  - destruct Hr as [Hr|Hr]; [|by destruct Hr].
    destruct Hext as (Hb&Hs&Tb&Tg&Ts&Td&Tm&Tsec&Hf). unfold ext. simpl. unfold upd.
    repeat split; try done.
    + apply tab_ext_alter_fresh; [by apply fresh_block | done].
    + eapply fresh_md_empty_step; [done| |done].
      intros r m Hc _ E. destruct r; simpl in *; try done.
      by rewrite (lookup_alter_proj nb_metadata) in E.
  - destruct Hr as [Hr|Hr]; [|by destruct Hr].
    destruct Hext as (Hb&Hs&Tb&Tg&Ts&Td&Tm&Tsec&Hf). unfold ext. simpl. unfold upd.
    repeat split; try done.
    + apply tab_ext_alter_fresh; [by apply fresh_group | done].
    + eapply fresh_md_empty_step; [done| |done].
      intros r m Hc _ E. destruct r; simpl in *; try done.
      by rewrite (lookup_alter_proj grp_metadata) in E.
  - apply ext_da_update; [apply da_step_set_definition | done].
  - apply ext_mt_update; [apply mt_step_set_definition | done].
  - destruct Hr as [Hr|Hr]; [|by destruct Hr].
    destruct Hext as (Hb&Hs&Tb&Tg&Ts&Td&Tm&Tsec&Hf). unfold ext. simpl. unfold upd.
    repeat split; try done.
    + apply tab_ext_alter_fresh; [by apply fresh_source | done].
    + eapply fresh_md_empty_step; [done| |done].
      intros r m Hc _ E. destruct r; simpl in *; try done.
      by rewrite (lookup_alter_proj src_metadata) in E.
Qed.

Lemma ext_force_created_at (f0 f : File) (r : obj_ref) (t : Z) :
  fresh f0 r → ext f0 f → ext f0 (force_created_at r t f).
Proof.
  intros Hr Hext. destruct r as [i|i|i|i|i]; simpl; try done.
  - destruct Hext as (Hb&Hs&Tb&Tg&Ts&Td&Tm&Tsec&Hf). unfold ext. simpl. unfold upd.
    repeat split; try done.
    + apply tab_ext_alter_fresh; [by apply fresh_block | done].
    + eapply fresh_md_empty_step; [done| |done].
      intros r m Hc _ E. destruct r; simpl in *; try done.
      by rewrite (lookup_alter_proj nb_metadata) in E.
  - destruct Hext as (Hb&Hs&Tb&Tg&Ts&Td&Tm&Tsec&Hf). unfold ext. simpl. unfold upd.
    repeat split; try done.
    + apply tab_ext_alter_fresh; [by apply fresh_group | done].
    + eapply fresh_md_empty_step; [done| |done].
      intros r m Hc _ E. destruct r; simpl in *; try done.
      by rewrite (lookup_alter_proj grp_metadata) in E.
Qed.

(** Metadata of [r'] after [r.metadata = m]. *)
Lemma obj_metadata_set_metadata (f : File) (r r' : obj_ref) (m : nat) :
  obj_metadata (set_metadata r m f) r' =
  if decide (r' = r) then (λ _, Some m) <$> obj_metadata f r' else obj_metadata f r'.
Proof.
  destruct (decide (r' = r)) as [->|Hne].
  - destruct r as [i|i|i|i|i]; simpl; unfold upd; rewrite list_lookup_alter_eq;
      match goal with |- _ <$> (_ <$> ?x) = _ => by destruct x end.
  - destruct r as [i|i|i|i|i], r' as [j|j|j|j|j]; simpl; unfold upd; try done;
      rewrite list_lookup_alter_ne; congruence.
Qed.

Lemma ext_set_metadata_fresh (f0 f : File) (r : obj_ref) (m : nat) :
  fresh f0 r ∨ ¬ is_container r →
  ext f0 f → ext f0 (set_metadata r m f).
Proof.
  intros Hr Hext.
  assert (fresh_md_empty f0 (set_metadata r m f)) as Hfresh.
  { destruct Hext as (_&_&_&_&_&_&_&_&Hf).
    eapply fresh_md_empty_step; [done| |by destruct r].
    intros r' m' Hc Hs E. rewrite obj_metadata_set_metadata in E.
    case_decide; [subst|done]. destruct Hr as [Hr|Hr]; [|done].
    apply fresh_no_metadata in Hr. rewrite Hr in Hs. by destruct Hs. }
  destruct r as [i|i|i|i|i]; simpl.
  - destruct Hr as [Hr|Hr]; [|by destruct Hr].
    destruct Hext as (Hb&Hs&Tb&Tg&Ts&Td&Tm&Tsec&Hf). unfold ext. simpl. unfold upd.
    repeat split; try done.
    apply tab_ext_alter_fresh; [by apply fresh_block | done].
  - destruct Hr as [Hr|Hr]; [|by destruct Hr].
    destruct Hext as (Hb&Hs&Tb&Tg&Ts&Td&Tm&Tsec&Hf). unfold ext. simpl. unfold upd.
    repeat split; try done.
    apply tab_ext_alter_fresh; [by apply fresh_group | done].
  - apply ext_da_update; [apply da_step_set_metadata | done].
  - apply ext_mt_update; [apply mt_step_set_metadata | done].
  - destruct Hr as [Hr|Hr]; [|by destruct Hr].
    destruct Hext as (Hb&Hs&Tb&Tg&Ts&Td&Tm&Tsec&Hf). unfold ext. simpl. unfold upd.
    repeat split; try done.
    apply tab_ext_alter_fresh; [by apply fresh_source | done].
Qed.

Lemma md_le_None_inv (n0 : nat) (m : option nat) : md_le n0 m None → m = None.
Proof. by intros [<-|[-> _]]. Qed.

(** Giving an object without metadata a new, empty section. *)
Lemma ext_set_metadata_none (f0 f : File) (r : obj_ref) (m : nat) :
  obj_metadata f r = Some None →
  length (h_sections f0) ≤ m →
  sec_props <$> h_sections f !! m = Some [] →
  ext f0 f → ext f0 (set_metadata r m f).
Proof.
  intros Hnone Hm Hprops Hext.
  assert (fresh_md_empty f0 (set_metadata r m f)) as Hfresh.
  { destruct Hext as (_&_&_&_&_&_&_&_&Hf).
    intros r' s Hc H0 E. rewrite obj_metadata_set_metadata in E.
    assert (h_sections (set_metadata r m f) = h_sections f) as -> by (by destruct r).
    case_decide; [subst|by eapply Hf].
    rewrite Hnone in E. simpl in E. by injection E as <-. }
  assert (md_le (length (h_sections f0)) None (Some m)) as Hle.
  { right. eauto. }
  destruct r as [i|i|i|i|i]; simpl in *.
  - destruct Hext as (Hb&Hs&Tb&Tg&Ts&Td&Tm&Tsec&Hf). unfold ext. simpl. unfold upd.
    repeat split; try done.
    apply tab_ext_alter; [|done]. intros o o' Ho Ho' HR.
    rewrite Ho' in Hnone. simpl in Hnone. injection Hnone as Hnone.
    destruct HR as (?&?&?&?&Hmd&?&?&?&?). unfold R_block. simpl.
    repeat split; try done. rewrite Hnone in Hmd.
    by apply md_le_None_inv in Hmd as ->.
  - destruct Hext as (Hb&Hs&Tb&Tg&Ts&Td&Tm&Tsec&Hf). unfold ext. simpl. unfold upd.
    repeat split; try done.
    apply tab_ext_alter; [|done]. intros o o' Ho Ho' HR.
    rewrite Ho' in Hnone. simpl in Hnone. injection Hnone as Hnone.
    destruct HR as (?&?&?&?&Hmd&?&?). unfold R_group. simpl.
    repeat split; try done. rewrite Hnone in Hmd.
    by apply md_le_None_inv in Hmd as ->.
  - apply ext_da_update; [apply da_step_set_metadata | done].
  - apply ext_mt_update; [apply mt_step_set_metadata | done].
  - destruct Hext as (Hb&Hs&Tb&Tg&Ts&Td&Tm&Tsec&Hf). unfold ext. simpl. unfold upd.
    repeat split; try done.
    apply tab_ext_alter; [|done]. intros o o' Ho Ho' HR.
    rewrite Ho' in Hnone. simpl in Hnone. injection Hnone as Hnone.
    destruct HR as (?&?&?&Hmd&?). unfold R_source. simpl.
    repeat split; try done. rewrite Hnone in Hmd.
    by apply md_le_None_inv in Hmd as ->.
Qed.

(** A property written to a section that no container of [f0] uses. *)
Lemma ext_create_property (f0 f : File) (s : nat) (nm : string) (v : option prop_value) :
  length (h_sections f0) ≤ s →
  (∀ r, is_container r → is_Some (obj_metadata f0 r) → obj_metadata f r ≠ Some (Some s)) →
  ext f0 f → ext f0 (create_property s nm v f).
Proof.
  intros Hs Havoid Hext.
  destruct v as [[x|xs]|]; simpl; [| |done].
  all: destruct Hext as (Hb&Hss&Tb&Tg&Ts&Td&Tm&Tsec&Hf); unfold ext; simpl; unfold upd.
  all: repeat split; try done.
  all: try (apply tab_ext_alter_fresh; [|done]; apply lookup_ge_None; lia).
  all: intros r s' Hc H0 E; simpl in *.
  all: assert (obj_metadata f r = Some (Some s')) as E' by (by destruct r).
  all: assert (s' ≠ s) as Hne
         by (intros ->; eapply Havoid; [done | by rewrite H0 | done]).
  all: rewrite list_lookup_alter_ne by done; by eapply Hf.
Qed.

End ExtPrimitives.

(** ** The store operations keep the file well formed *)

Section WfPrimitives.
Import Py Neonix Frame.

Lemma live_ids_app {A} (h l : list A) (ids : list nat) :
  live_ids h ids → live_ids (h ++ l) ids.
Proof.
  unfold live_ids. intros H. eapply Forall_impl; [done|].
  intros i Hi. simpl in *. rewrite length_app. lia.
Qed.

Lemma live_ids_alter {A} (g : A → A) (i : nat) (h : list A) (ids : list nat) :
  live_ids h ids → live_ids (alter g i h) ids.
Proof. unfold live_ids. by rewrite length_alter. Qed.

Lemma live_ids_snoc {A} (h : list A) (ids : list nat) (i : nat) :
  live_ids h ids → i < length h → live_ids h (ids ++ [i]).
Proof. intros H Hi. apply Forall_app. split; [done|]. by constructor. Qed.

Lemma live_ids_nil {A} (h : list A) : live_ids h [].
Proof. constructor. Qed.

Lemma live_ids_le {A B} (h : list A) (h' : list B) (ids : list nat) :
  length h ≤ length h' → live_ids h ids → live_ids h' ids.
Proof.
  intros Hle. unfold live_ids. intros H. eapply Forall_impl; [done|].
  intros i Hi. simpl in *. lia.
Qed.

Lemma lookup_snoc_inv {A} (h : list A) (x o : A) (i : nat) :
  (h ++ [x]) !! i = Some o → h !! i = Some o ∨ (i = length h ∧ o = x).
Proof.
  intros E. destruct (decide (i < length h)).
  - left. by rewrite lookup_app_l in E.
  - right. rewrite lookup_app_r in E by lia.
    destruct (i - length h) as [|k] eqn:Ek; simpl in E; [|done].
    split; [lia | congruence].
Qed.

Lemma lookup_alter_inv {A} (g : A → A) (i j : nat) (h : list A) (o : A) :
  alter g i h !! j = Some o →
  h !! j = Some o ∨ (i = j ∧ ∃ o0, h !! j = Some o0 ∧ o = g o0).
Proof.
  rewrite list_lookup_alter. case_decide; [subst|by left].
  destruct (h !! j) as [o0|]; simpl; [|done]. intros [= <-]. right. eauto.
Qed.

(** A file is well formed when its handles stay within the tables;
    the clauses are named for use below. *)
Lemma wf_intro (f : File) :
  live_ids (h_blocks f) (blocks f) →
  (∀ i o, h_blocks f !! i = Some o →
     live_ids (h_groups f) (nb_groups o) ∧ live_ids (h_data_arrays f) (nb_data_arrays o) ∧
     live_ids (h_multi_tags f) (nb_multi_tags o) ∧ live_ids (h_sources f) (nb_sources o)) →
  (∀ i o, h_groups f !! i = Some o →
     live_ids (h_data_arrays f) (grp_data_arrays o) ∧ live_ids (h_multi_tags f) (grp_multi_tags o)) →
  (∀ i o, h_sources f !! i = Some o → live_ids (h_sources f) (src_sources o)) →
  (∀ i o, h_data_arrays f !! i = Some o → live_ids (h_sources f) (da_sources o)) →
  (∀ i o, h_multi_tags f !! i = Some o → live_ids (h_sources f) (mt_sources o)) →
  (∀ r m, obj_metadata f r = Some (Some m) → m < length (h_sections f)) →
  wf f.
Proof. intros. unfold wf. repeat (split; [assumption|]). assumption. Qed.

Lemma wf_empty (t : Z) : wf (empty_file t).
Proof.
  apply wf_intro; simpl; try done;
    first [ by constructor | intros r m; by destruct r ].
Qed.

Ltac wf_cases H :=
  first
    [ let Heq := fresh "Heq" in
      apply lookup_alter_inv in H as [H|[Heq (? & H & ->)]]; [|try subst]
    | apply lookup_snoc_inv in H as [H|[_ ->]] ].

(** Metadata found after a creating operation was there before. *)
Ltac md_inv E :=
  match type of E with
  | obj_metadata _ ?r = _ =>
      destruct r; simpl in *; unfold upd in *;
      repeat first
        [ rewrite (lookup_alter_proj nb_metadata) in E by done
        | rewrite (lookup_alter_proj grp_metadata) in E by done
        | rewrite (lookup_alter_proj src_metadata) in E by done
        | rewrite (lookup_alter_proj da_metadata) in E by done
        | rewrite (lookup_alter_proj mt_metadata) in E by done ];
      try (apply lookup_snoc_proj in E as [E|[_ E]]; [|discriminate]);
      exact E
  end.

Lemma md_create_block f nm ty r m :
  obj_metadata (snd (create_block nm ty f)) r = Some (Some m) →
  obj_metadata f r = Some (Some m).
Proof. intros E. md_inv E. Qed.
Lemma md_create_group f b nm ty r m :
  obj_metadata (snd (create_group b nm ty f)) r = Some (Some m) →
  obj_metadata f r = Some (Some m).
Proof. intros E. md_inv E. Qed.
Lemma md_create_data_array f b nm ty data r m :
  obj_metadata (snd (create_data_array b nm ty data f)) r = Some (Some m) →
  obj_metadata f r = Some (Some m).
Proof. intros E. md_inv E. Qed.
Lemma md_create_multi_tag f b nm ty pos r m :
  obj_metadata (snd (create_multi_tag b nm ty pos f)) r = Some (Some m) →
  obj_metadata f r = Some (Some m).
Proof. intros E. md_inv E. Qed.
Lemma md_create_source f parent nm ty r m :
  obj_metadata (snd (create_source parent nm ty f)) r = Some (Some m) →
  obj_metadata f r = Some (Some m).
Proof. intros E. destruct parent; md_inv E. Qed.
Lemma md_create_section f parent nm ty r :
  obj_metadata (snd (create_section parent nm ty f)) r = obj_metadata f r.
Proof. by destruct parent, r. Qed.
Lemma md_create_property f s nm v r :
  obj_metadata (create_property s nm v f) r = obj_metadata f r.
Proof. by destruct v as [[?|?]|], r. Qed.

Lemma wf_create_block (f : File) (nm ty : string) :
  wf f → wf (snd (create_block nm ty f)).
Proof.
  intros (W1&W2&W3&W4&W5&W6&W7). apply wf_intro.
  - simpl. apply live_ids_snoc; [by apply live_ids_app|]. rewrite length_app. simpl. lia.
  - simpl. intros i o E. wf_cases E; [by eapply W2|]. simpl.
    repeat split; apply live_ids_nil.
  - done.
  - done.
  - done.
  - done.
  - intros r m E. apply md_create_block in E. by apply W7 in E.
Qed.

Lemma wf_create_group (f : File) (b : nat) (nm ty : string) :
  wf f → wf (snd (create_group b nm ty f)).
Proof.
  intros (W1&W2&W3&W4&W5&W6&W7). apply wf_intro.
  - simpl. by apply live_ids_alter.
  - simpl. unfold upd. intros i o E. wf_cases E.
    + destruct (W2 _ _ E) as (?&?&?&?). repeat split; try done. by apply live_ids_app.
    + destruct (W2 _ _ E) as (?&?&?&?). simpl. repeat split; try done.
      apply live_ids_snoc; [by apply live_ids_app|]. rewrite length_app. simpl. lia.
  - simpl. intros i o E. wf_cases E; [by eapply W3|]. simpl. split; apply live_ids_nil.
  - done.
  - done.
  - done.
  - intros r m E. apply md_create_group in E. by apply W7 in E.
Qed.

Lemma wf_create_data_array (f : File) (b : nat) (nm ty : string) (data : ndarray) :
  wf f → wf (snd (create_data_array b nm ty data f)).
Proof.
  intros (W1&W2&W3&W4&W5&W6&W7). apply wf_intro.
  - simpl. by apply live_ids_alter.
  - simpl. unfold upd. intros i o E. wf_cases E.
    + destruct (W2 _ _ E) as (?&?&?&?). repeat split; try done. by apply live_ids_app.
    + destruct (W2 _ _ E) as (?&?&?&?). simpl. repeat split; try done.
      apply live_ids_snoc; [by apply live_ids_app|]. rewrite length_app. simpl. lia.
  - simpl. intros i o E. destruct (W3 _ _ E). split; [by apply live_ids_app | done].
  - done.
  - simpl. intros i o E. wf_cases E; [by eapply W5|]. simpl. apply live_ids_nil.
  - done.
  - intros r m E. apply md_create_data_array in E. by apply W7 in E.
Qed.

Lemma wf_create_multi_tag (f : File) (b : nat) (nm ty : string) (pos : nat) :
  wf f → wf (snd (create_multi_tag b nm ty pos f)).
Proof.
  intros (W1&W2&W3&W4&W5&W6&W7). apply wf_intro.
  - simpl. by apply live_ids_alter.
  - simpl. unfold upd. intros i o E. wf_cases E.
    + destruct (W2 _ _ E) as (?&?&?&?). repeat split; try done. by apply live_ids_app.
    + destruct (W2 _ _ E) as (?&?&?&?). simpl. repeat split; try done.
      apply live_ids_snoc; [by apply live_ids_app|]. rewrite length_app. simpl. lia.
  - simpl. intros i o E. destruct (W3 _ _ E). split; [done | by apply live_ids_app].
  - done.
  - done.
  - simpl. intros i o E. wf_cases E; [by eapply W6|]. simpl. apply live_ids_nil.
  - intros r m E. apply md_create_multi_tag in E. by apply W7 in E.
Qed.

Lemma wf_create_source (f : File) (parent : obj_ref) (nm ty : string) :
  wf f → wf (snd (create_source parent nm ty f)).
Proof.
  intros (W1&W2&W3&W4&W5&W6&W7).
  assert (∀ ids, live_ids (h_sources f) ids → live_ids (h_sources f ++ [new_source nm ty]) ids)
    as Happ by (intros; by apply live_ids_app).
  assert (∀ ids, live_ids (h_sources f) ids →
            live_ids (h_sources f ++ [new_source nm ty]) (ids ++ [length (h_sources f)]))
    as Hsnoc.
  { intros. apply live_ids_snoc; [by apply Happ|]. rewrite length_app. simpl. lia. }
  assert (∀ i o, (h_sources f ++ [new_source nm ty]) !! i = Some o →
            live_ids (h_sources f ++ [new_source nm ty]) (src_sources o)) as Hsrc.
  { intros i o E. wf_cases E; [by eapply Happ, W4 | apply live_ids_nil]. }
  destruct parent as [p|p|p|p|p]; apply wf_intro; simpl; unfold upd;
    try done; try (by eauto using live_ids_alter).
  all: try (intros i o E; destruct (W2 _ _ E) as (?&?&?&?); by auto).
  - intros i o E. wf_cases E; destruct (W2 _ _ E) as (?&?&?&?); simpl; by auto.
  - intros r m E. by apply (md_create_source f (RBlock p)), W7 in E.
  - intros r m E. by apply (md_create_source f (RGroup p)), W7 in E.
  - intros r m E. by apply (md_create_source f (RDataArray p)), W7 in E.
  - intros r m E. by apply (md_create_source f (RMultiTag p)), W7 in E.
  - intros i o E. destruct (W2 _ _ E) as (?&?&?&?). repeat split; try done.
    apply live_ids_alter. by apply Happ.
  - intros i o E. wf_cases E; [by apply live_ids_alter, (Hsrc i)|].
    simpl. apply live_ids_alter. apply Hsrc in E.
    apply live_ids_snoc; [done|]. rewrite length_app. simpl. lia.
  - intros r m E. by apply (md_create_source f (RSource p)), W7 in E.
Qed.

Lemma wf_create_section (f : File) (parent : option nat) (nm ty : string) :
  wf f → wf (snd (create_section parent nm ty f)).
Proof.
  intros (W1&W2&W3&W4&W5&W6&W7). apply wf_intro; try (by destruct parent).
  intros r m E. rewrite md_create_section in E. apply W7 in E.
  destruct parent; simpl; unfold upd; rewrite ?length_alter, length_app; lia.
Qed.

Lemma wf_create_property (f : File) (s : nat) (nm : string) (v : option prop_value) :
  wf f → wf (create_property s nm v f).
Proof.
  intros (W1&W2&W3&W4&W5&W6&W7). apply wf_intro; try (by destruct v as [[?|?]|]).
  intros r m E. rewrite md_create_property in E. apply W7 in E.
  destruct v as [[?|?]|]; simpl; unfold upd; rewrite ?length_alter; lia.
Qed.

Lemma wf_da_update (f : File) (d : nat) (g : DataArray → DataArray) :
  wf f →
  (∀ o, h_data_arrays f !! d = Some o →
        live_ids (h_sources f) (da_sources (g o)) ∧
        ∀ m, da_metadata (g o) = Some m → m < length (h_sections f)) →
  wf (with_h_data_arrays f (upd g d (h_data_arrays f))).
Proof.
  intros (W1&W2&W3&W4&W5&W6&W7) Hg. apply wf_intro; simpl; unfold upd; try done.
  - intros i o E. destruct (W2 _ _ E) as (?&?&?&?). repeat split; try done.
    by apply live_ids_alter.
  - intros i o E. destruct (W3 _ _ E) as (?&?). split; [by apply live_ids_alter | done].
  - intros i o E. wf_cases E; [by eapply W5|]. by apply Hg.
  - intros r m E. destruct r as [i|i|i|i|i]; simpl in *;
      try (by eapply (W7 (RBlock _))); try (by eapply (W7 (RGroup _)));
      try (by eapply (W7 (RMultiTag _))); try (by eapply (W7 (RSource _))).
    destruct (alter g d (h_data_arrays f) !! i) as [o|] eqn:Eo; [|done].
    simpl in E. injection E as E. wf_cases Eo.
    + apply (W7 (RDataArray i)). simpl. by rewrite Eo, <- E.
    + by eapply Hg.
Qed.

Lemma wf_mt_update (f : File) (t : nat) (g : MultiTag → MultiTag) :
  wf f →
  (∀ o, h_multi_tags f !! t = Some o →
        live_ids (h_sources f) (mt_sources (g o)) ∧
        ∀ m, mt_metadata (g o) = Some m → m < length (h_sections f)) →
  wf (with_h_multi_tags f (upd g t (h_multi_tags f))).
Proof.
  intros (W1&W2&W3&W4&W5&W6&W7) Hg. apply wf_intro; simpl; unfold upd; try done.
  - intros i o E. destruct (W2 _ _ E) as (?&?&?&?). repeat split; try done.
    by apply live_ids_alter.
  - intros i o E. destruct (W3 _ _ E) as (?&?). split; [done | by apply live_ids_alter].
  - intros i o E. wf_cases E; [by eapply W6|]. by apply Hg.
  - intros r m E. destruct r as [i|i|i|i|i]; simpl in *;
      try (by eapply (W7 (RBlock _))); try (by eapply (W7 (RGroup _)));
      try (by eapply (W7 (RDataArray _))); try (by eapply (W7 (RSource _))).
    destruct (alter g t (h_multi_tags f) !! i) as [o|] eqn:Eo; [|done].
    simpl in E. injection E as E. wf_cases Eo.
    + apply (W7 (RMultiTag i)). simpl. by rewrite Eo, <- E.
    + by eapply Hg.
Qed.

(** An update that leaves Sources and metadata alone. *)
Lemma wf_da_update_plain (f : File) (d : nat) (g : DataArray → DataArray) :
  (∀ o, da_sources (g o) = da_sources o ∧ da_metadata (g o) = da_metadata o) →
  wf f → wf (with_h_data_arrays f (upd g d (h_data_arrays f))).
Proof.
  intros Hg Hwf. apply wf_da_update; [done|]. intros o Ho.
  destruct (Hg o) as [-> ->]. destruct Hwf as (_&_&_&_&W5&_&W7). split; [by eapply W5|].
  intros m Hm. apply (W7 (RDataArray d)). simpl. by rewrite Ho, <- Hm.
Qed.

Lemma wf_mt_update_plain (f : File) (t : nat) (g : MultiTag → MultiTag) :
  (∀ o, mt_sources (g o) = mt_sources o ∧ mt_metadata (g o) = mt_metadata o) →
  wf f → wf (with_h_multi_tags f (upd g t (h_multi_tags f))).
Proof.
  intros Hg Hwf. apply wf_mt_update; [done|]. intros o Ho.
  destruct (Hg o) as [-> ->]. destruct Hwf as (_&_&_&_&_&W6&W7). split; [by eapply W6|].
  intros m Hm. apply (W7 (RMultiTag t)). simpl. by rewrite Ho, <- Hm.
Qed.

Lemma wf_da_add_source (f : File) (d s : nat) :
  s < length (h_sources f) →
  wf f → wf (with_h_data_arrays f (upd (da_add_source s) d (h_data_arrays f))).
Proof.
  intros Hs Hwf. apply wf_da_update; [done|]. intros o Ho.
  destruct Hwf as (_&_&_&_&W5&_&W7). split.
  - simpl. apply live_ids_snoc; [by eapply W5 | done].
  - intros m Hm. apply (W7 (RDataArray d)). simpl. by rewrite Ho, <- Hm.
Qed.

Lemma wf_mt_add_source (f : File) (t s : nat) :
  s < length (h_sources f) →
  wf f → wf (with_h_multi_tags f (upd (mt_add_source s) t (h_multi_tags f))).
Proof.
  intros Hs Hwf. apply wf_mt_update; [done|]. intros o Ho.
  destruct Hwf as (_&_&_&_&_&W6&W7). split.
  - simpl. apply live_ids_snoc; [by eapply W6 | done].
  - intros m Hm. apply (W7 (RMultiTag t)). simpl. by rewrite Ho, <- Hm.
Qed.

Lemma wf_da_set_metadata (f : File) (d m : nat) :
  m < length (h_sections f) →
  wf f → wf (with_h_data_arrays f (upd (da_set_metadata (Some m)) d (h_data_arrays f))).
Proof.
  intros Hm Hwf. apply wf_da_update; [done|]. intros o Ho.
  destruct Hwf as (_&_&_&_&W5&_&W7). simpl. split; [by eapply W5|].
  by intros ? [= <-].
Qed.

Lemma wf_group_append_data_array (f : File) (g d : nat) :
  d < length (h_data_arrays f) →
  wf f → wf (with_h_groups f (upd (grp_add_data_array d) g (h_groups f))).
Proof.
  intros Hd (W1&W2&W3&W4&W5&W6&W7). apply wf_intro; simpl; unfold upd; try done.
  - intros i o E. destruct (W2 _ _ E) as (?&?&?&?). repeat split; try done.
    by apply live_ids_alter.
  - intros i o E. wf_cases E; [by eapply W3|]. destruct (W3 _ _ E) as (?&?). simpl.
    split; [by apply live_ids_snoc | done].
  - intros r m E. destruct r as [i|i|i|i|i]; simpl in *;
      try (by eapply (W7 (RBlock _))); try (by eapply (W7 (RDataArray _)));
      try (by eapply (W7 (RMultiTag _))); try (by eapply (W7 (RSource _))).
    rewrite (lookup_alter_proj grp_metadata) in E by done. by eapply (W7 (RGroup _)).
Qed.

Lemma wf_group_append_multi_tag (f : File) (g t : nat) :
  t < length (h_multi_tags f) →
  wf f → wf (with_h_groups f (upd (grp_add_multi_tag t) g (h_groups f))).
Proof.
  intros Hd (W1&W2&W3&W4&W5&W6&W7). apply wf_intro; simpl; unfold upd; try done.
  - intros i o E. destruct (W2 _ _ E) as (?&?&?&?). repeat split; try done.
    by apply live_ids_alter.
  - intros i o E. wf_cases E; [by eapply W3|]. destruct (W3 _ _ E) as (?&?). simpl.
    split; [done | by apply live_ids_snoc].
  - intros r m E. destruct r as [i|i|i|i|i]; simpl in *;
      try (by eapply (W7 (RBlock _))); try (by eapply (W7 (RDataArray _)));
      try (by eapply (W7 (RMultiTag _))); try (by eapply (W7 (RSource _))).
    rewrite (lookup_alter_proj grp_metadata) in E by done. by eapply (W7 (RGroup _)).
Qed.

(** Updates of a Block, Group or Source that leave its collections and
    metadata alone. *)
Lemma wf_blocks_plain (f : File) (i : nat) (g : NixBlock → NixBlock) :
  (∀ o, nb_groups (g o) = nb_groups o ∧ nb_data_arrays (g o) = nb_data_arrays o ∧
        nb_multi_tags (g o) = nb_multi_tags o ∧ nb_sources (g o) = nb_sources o ∧
        nb_metadata (g o) = nb_metadata o) →
  wf f → wf (with_h_blocks f (upd g i (h_blocks f))).
Proof.
  intros Hg (W1&W2&W3&W4&W5&W6&W7). apply wf_intro; simpl; unfold upd; try done.
  - by apply live_ids_alter.
  - intros j o E. wf_cases E; [by eapply W2|].
    destruct (Hg x) as (->&->&->&->&_). by eapply W2.
  - intros r m E. destruct r as [j|j|j|j|j]; simpl in *;
      try (by eapply (W7 (RGroup _))); try (by eapply (W7 (RDataArray _)));
      try (by eapply (W7 (RMultiTag _))); try (by eapply (W7 (RSource _))).
    rewrite (lookup_alter_proj nb_metadata) in E by (intros; apply Hg).
    by eapply (W7 (RBlock _)).
Qed.

Lemma wf_groups_plain (f : File) (i : nat) (g : Group → Group) :
  (∀ o, grp_data_arrays (g o) = grp_data_arrays o ∧
        grp_multi_tags (g o) = grp_multi_tags o ∧ grp_metadata (g o) = grp_metadata o) →
  wf f → wf (with_h_groups f (upd g i (h_groups f))).
Proof.
  intros Hg (W1&W2&W3&W4&W5&W6&W7). apply wf_intro; simpl; unfold upd; try done.
  - intros j o E. destruct (W2 _ _ E) as (?&?&?&?). repeat split; try done.
    by apply live_ids_alter.
  - intros j o E. wf_cases E; [by eapply W3|].
    destruct (Hg x) as (->&->&_). by eapply W3.
  - intros r m E. destruct r as [j|j|j|j|j]; simpl in *;
      try (by eapply (W7 (RBlock _))); try (by eapply (W7 (RDataArray _)));
      try (by eapply (W7 (RMultiTag _))); try (by eapply (W7 (RSource _))).
    rewrite (lookup_alter_proj grp_metadata) in E by (intros; apply Hg).
    by eapply (W7 (RGroup _)).
Qed.

Lemma wf_sources_plain (f : File) (i : nat) (g : Source → Source) :
  (∀ o, src_sources (g o) = src_sources o ∧ src_metadata (g o) = src_metadata o) →
  wf f → wf (with_h_sources f (upd g i (h_sources f))).
Proof.
  intros Hg (W1&W2&W3&W4&W5&W6&W7). apply wf_intro; simpl; unfold upd; try done.
  - intros j o E. destruct (W2 _ _ E) as (?&?&?&?). repeat split; try done.
    by apply live_ids_alter.
  - intros j o E. apply live_ids_alter. wf_cases E; [by eapply W4|].
    destruct (Hg x) as (->&_). by eapply W4.
  - intros j o E. apply live_ids_alter. by eapply W5.
  - intros j o E. apply live_ids_alter. by eapply W6.
  - intros r m E. destruct r as [j|j|j|j|j]; simpl in *;
      try (by eapply (W7 (RBlock _))); try (by eapply (W7 (RDataArray _)));
      try (by eapply (W7 (RMultiTag _))); try (by eapply (W7 (RGroup _))).
    rewrite (lookup_alter_proj src_metadata) in E by (intros; apply Hg).
    by eapply (W7 (RSource _)).
Qed.

Lemma wf_set_definition (f : File) (r : obj_ref) (d : option string) :
  wf f → wf (set_definition r d f).
Proof.
  intros Hwf. destruct r; simpl.
  - by apply wf_blocks_plain.
  - by apply wf_groups_plain.
  - by apply wf_da_update_plain.
  - by apply wf_mt_update_plain.
  - by apply wf_sources_plain.
Qed.

Lemma wf_force_created_at (f : File) (r : obj_ref) (t : Z) :
  wf f → wf (force_created_at r t f).
Proof.
  intros Hwf. destruct r; simpl; try done.
  - by apply wf_blocks_plain.
  - by apply wf_groups_plain.
Qed.

Lemma wf_set_metadata (f : File) (r : obj_ref) (m : nat) :
  m < length (h_sections f) → wf f → wf (set_metadata r m f).
Proof.
  intros Hm Hwf.
  assert (∀ r' m', obj_metadata (set_metadata r m f) r' = Some (Some m') →
                   m' < length (h_sections (set_metadata r m f))) as H7.
  { intros r' m' E. rewrite obj_metadata_set_metadata in E.
    assert (h_sections (set_metadata r m f) = h_sections f) as -> by (by destruct r).
    destruct Hwf as (_&_&_&_&_&_&W7).
    case_decide; [subst|by eapply W7].
    destruct (obj_metadata f r); simpl in E; [|done]. by injection E as <-. }
  destruct Hwf as (W1&W2&W3&W4&W5&W6&W7).
  destruct r as [i|i|i|i|i]; apply wf_intro; simpl in *; unfold upd in *; try done.
  - by apply live_ids_alter.
  - intros j o E. wf_cases E; simpl; by eapply W2.
  - intros j o E. destruct (W2 _ _ E) as (?&?&?&?). repeat split; try done.
    by apply live_ids_alter.
  - intros j o E. wf_cases E; simpl; by eapply W3.
  - intros j o E. destruct (W2 _ _ E) as (?&?&?&?). repeat split; try done.
    by apply live_ids_alter.
  - intros j o E. destruct (W3 _ _ E) as (?&?). split; [by apply live_ids_alter | done].
  - intros j o E. wf_cases E; simpl; by eapply W5.
  - intros j o E. destruct (W2 _ _ E) as (?&?&?&?). repeat split; try done.
    by apply live_ids_alter.
  - intros j o E. destruct (W3 _ _ E) as (?&?). split; [done | by apply live_ids_alter].
  - intros j o E. wf_cases E; simpl; by eapply W6.
  - intros j o E. destruct (W2 _ _ E) as (?&?&?&?). repeat split; try done.
    by apply live_ids_alter.
  - intros j o E. apply live_ids_alter. wf_cases E; simpl; by eapply W4.
  - intros j o E. apply live_ids_alter. by eapply W5.
  - intros j o E. apply live_ids_alter. by eapply W6.
Qed.

End WfPrimitives.

(** ** Running the monad *)

Section MonadFacts.
Import Py Neonix Frame.

Lemma bind_Ok {A B} (m : M A) (k : A → M B) (io : NixIO) (b : B) (io' : NixIO) :
  bind m k io = Ok (b, io') ↔ ∃ a io1, m io = Ok (a, io1) ∧ k a io1 = Ok (b, io').
Proof.
  unfold bind. split.
  - destruct (m io) as [[a io1]| |]; [|done|done]. eauto.
  - intros (a & io1 & -> & H). done.
Qed.

Lemma ret_Ok {A} (a b : A) (io io' : NixIO) :
  ret a io = Ok (b, io') ↔ b = a ∧ io' = io.
Proof. unfold ret. split; [by intros [= -> ->] | by intros [-> ->]]. Qed.

Lemma raise_Ok {A} (e : exn) (io : NixIO) (a : A) (io' : NixIO) :
  raise e io = Ok (a, io') → False.
Proof. done. Qed.

Lemma lift_Ok {A} (o : outcome A) (io : NixIO) (a : A) (io' : NixIO) :
  lift o io = Ok (a, io') ↔ o = Ok a ∧ io' = io.
Proof.
  unfold lift. destruct o; split; try done.
  - by intros [= -> ->].
  - by intros [[= ->] ->].
  - by intros [? ?].
  - by intros [? ?].
Qed.

Lemma live_Ok {A} (o : option A) (io : NixIO) (a : A) (io' : NixIO) :
  Neonix.live o io = Ok (a, io') ↔ o = Some a ∧ io' = io.
Proof.
  unfold Neonix.live. destruct o; split; try done.
  - by intros [= -> ->].
  - by intros [[= ->] ->].
  - by intros [? ?].
Qed.

Lemma get_file_Ok (io : NixIO) (f : File) (io' : NixIO) :
  get_file io = Ok (f, io') ↔ f = nix_file io ∧ io' = io.
Proof. unfold get_file. split; [by intros [= <- <-] | by intros [-> ->]]. Qed.

Lemma modify_file_Ok (g : File → File) (io : NixIO) (u : unit) (io' : NixIO) :
  modify_file g io = Ok (u, io') ↔ io' = with_file io (g (nix_file io)).
Proof. unfold modify_file, with_file. destruct u. split; [by intros [= <-] | by intros ->]. Qed.

Lemma create_Ok (g : File → nat * File) (io : NixIO) (i : nat) (io' : NixIO) :
  create g io = Ok (i, io') ↔
  i = fst (g (nix_file io)) ∧ io' = with_file io (snd (g (nix_file io))).
Proof.
  unfold create, with_file. destruct (g (nix_file io)) as [j f]. simpl.
  split; [by intros [= <- <-] | by intros [-> ->]].
Qed.

Lemma map_set_Ok (k : map_key) (v : mapped) (io : NixIO) (u : unit) (io' : NixIO) :
  map_set k v io = Ok (u, io') ↔
  io' = {| nix_file := nix_file io; _object_map := (k, v) :: _object_map io;
           _lazy_loaded := _lazy_loaded io; warnings := warnings io |}.
Proof. unfold map_set. destruct u. split; [by intros [= <-] | by intros ->]. Qed.

Lemma warn_Ok (w : list string) (io : NixIO) (u : unit) (io' : NixIO) :
  warn w io = Ok (u, io') ↔
  io' = {| nix_file := nix_file io; _object_map := _object_map io;
           _lazy_loaded := _lazy_loaded io; warnings := warnings io ++ w |}.
Proof. unfold warn. destruct u. split; [by intros [= <-] | by intros ->]. Qed.

Lemma lazy_append_Ok (p : string) (io : NixIO) (u : unit) (io' : NixIO) :
  lazy_append p io = Ok (u, io') ↔
  io' = {| nix_file := nix_file io; _object_map := _object_map io;
           _lazy_loaded := _lazy_loaded io ++ [p]; warnings := warnings io |}.
Proof. unfold lazy_append. destruct u. split; [by intros [= <-] | by intros ->]. Qed.

Lemma get_object_at_Ok (path : string) (io : NixIO) (r : obj_ref) (io' : NixIO) :
  _get_object_at path io = Ok (r, io') ↔
  _get_object_at_file (nix_file io) path = Ok r ∧ io' = io.
Proof.
  unfold _get_object_at. rewrite bind_Ok. split.
  - intros (f & io1 & Hf & Hl). apply get_file_Ok in Hf as [-> ->].
    by apply lift_Ok in Hl.
  - intros [E ->]. exists (nix_file io), io. split; [by apply get_file_Ok | by apply lift_Ok].
Qed.

End MonadFacts.

(** Inversion of a successful run, one bind at a time. *)
Ltac minv H :=
  lazymatch type of H with
  | Neonix.bind _ _ _ = Py.Ok _ =>
      let a := fresh "a" in let io := fresh "io" in let Ha := fresh "Ha" in
      apply bind_Ok in H as (a & io & Ha & H); minv Ha
  | Neonix.ret _ _ = Py.Ok _ => apply ret_Ok in H as [? ?]; subst
  | Neonix.raise _ _ = Py.Ok _ => by apply raise_Ok in H
  | Neonix.lift _ _ = Py.Ok _ => apply lift_Ok in H as [H ?]; subst
  | Neonix.live _ _ = Py.Ok _ => apply live_Ok in H as [H ?]; subst
  | Neonix.get_file _ = Py.Ok _ => apply get_file_Ok in H as [? ?]; subst
  | Neonix.modify_file _ _ = Py.Ok _ => apply modify_file_Ok in H; subst
  | Neonix.create _ _ = Py.Ok _ => apply create_Ok in H as [? ?]; subst
  | Neonix.map_set _ _ _ = Py.Ok _ => apply map_set_Ok in H; subst
  | Neonix.warn _ _ = Py.Ok _ => apply warn_Ok in H; subst
  | Neonix.lazy_append _ _ = Py.Ok _ => apply lazy_append_Ok in H; subst
  | Neonix._get_object_at _ _ = Py.Ok _ => apply get_object_at_Ok in H as [H ?]; subst
  | _ => idtac
  end.

Section Metadata.
Import Py Neonix Frame.

Lemma obj_metadata_with_file_irrel (io : NixIO) (f : File) : nix_file (with_file io f) = f.
Proof. done. Qed.

(** Overwriting the metadata of an object that had none in [f0]. *)
Lemma ext_set_metadata_over (f0 f : File) (r : obj_ref) (m : nat) :
  obj_metadata f0 r = Some None →
  length (h_sections f0) ≤ m →
  sec_props <$> h_sections f !! m = Some [] →
  ext f0 f → ext f0 (set_metadata r m f).
Proof.
  intros H0 Hm Hprops Hext.
  assert (fresh_md_empty f0 (set_metadata r m f)) as Hfresh.
  { destruct Hext as (_&_&_&_&_&_&_&_&Hf).
    intros r' s Hc H0' E. rewrite obj_metadata_set_metadata in E.
    assert (h_sections (set_metadata r m f) = h_sections f) as -> by (by destruct r).
    case_decide; [subst|by eapply Hf].
    destruct (obj_metadata f r); simpl in E; [|done]. by injection E as <-. }
  assert (md_le (length (h_sections f0)) None (Some m)) as Hle.
  { right. eauto. }
  destruct r as [i|i|i|i|i]; simpl in *.
  - destruct Hext as (Hb&Hs&Tb&Tg&Ts&Td&Tm&Tsec&Hf). unfold ext. simpl. unfold upd.
    repeat split; try done.
    apply tab_ext_alter; [|done]. intros o o' Ho Ho' HR.
    rewrite Ho in H0. simpl in H0. injection H0 as H0.
    destruct HR as (?&?&?&?&Hmd&?&?&?&?). unfold R_block. simpl.
    repeat split; try done. by rewrite H0.
  - destruct Hext as (Hb&Hs&Tb&Tg&Ts&Td&Tm&Tsec&Hf). unfold ext. simpl. unfold upd.
    repeat split; try done.
    apply tab_ext_alter; [|done]. intros o o' Ho Ho' HR.
    rewrite Ho in H0. simpl in H0. injection H0 as H0.
    destruct HR as (?&?&?&?&Hmd&?&?). unfold R_group. simpl.
    repeat split; try done. by rewrite H0.
  - apply ext_da_update; [apply da_step_set_metadata | done].
  - apply ext_mt_update; [apply mt_step_set_metadata | done].
  - destruct Hext as (Hb&Hs&Tb&Tg&Ts&Td&Tm&Tsec&Hf). unfold ext. simpl. unfold upd.
    repeat split; try done.
    apply tab_ext_alter; [|done]. intros o o' Ho Ho' HR.
    rewrite Ho in H0. simpl in H0. injection H0 as H0.
    destruct HR as (?&?&?&Hmd&?). unfold R_source. simpl.
    repeat split; try done. by rewrite H0.
Qed.

Lemma with_file_same (io : NixIO) : with_file io (nix_file io) = io.
Proof. by destruct io. Qed.

Lemma with_file_with_file (io : NixIO) (f f' : File) :
  with_file (with_file io f) f' = with_file io f'.
Proof. done. Qed.

Lemma ext_obj_name (f0 f : File) (r : obj_ref) (n : string) :
  ext f0 f → obj_name f0 r = Some n → obj_name f r = Some n.
Proof.
  intros (Hb&Hs&Tb&Tg&Ts&Td&Tm&Tsec&Hf) E.
  destruct r as [i|i|i|i|i]; simpl in *.
  - destruct (h_blocks f0 !! i) as [o|] eqn:Ho; [|done].
    destruct (Tb i o Ho) as (o' & -> & HR). simpl in *.
    destruct HR as (->&_). done.
  - destruct (h_groups f0 !! i) as [o|] eqn:Ho; [|done].
    destruct (Tg i o Ho) as (o' & -> & HR). simpl in *.
    destruct HR as (->&_). done.
  - destruct (h_data_arrays f0 !! i) as [o|] eqn:Ho; [|done].
    destruct (Td i o Ho) as (o' & -> & HR). simpl in *.
    destruct HR as (->&_). done.
  - destruct (h_multi_tags f0 !! i) as [o|] eqn:Ho; [|done].
    destruct (Tm i o Ho) as (o' & -> & HR). simpl in *.
    destruct HR as (->&_). done.
  - destruct (h_sources f0 !! i) as [o|] eqn:Ho; [|done].
    destruct (Ts i o Ho) as (o' & -> & HR). simpl in *.
    destruct HR as (->&_). done.
Qed.

Lemma obj_metadata_is_Some (f : File) (r : obj_ref) :
  is_Some (obj_metadata f r) ↔ is_Some (obj_name f r).
Proof.
  destruct r as [i|i|i|i|i]; simpl;
    rewrite !fmap_is_Some; done.
Qed.

Lemma get_or_init_metadata_depth_spec (depth : nat) (obj : obj_ref) (path : string)
    (io : NixIO) (s : nat) (io' : NixIO) :
  wf (nix_file io) →
  get_or_init_metadata_depth depth obj path io = Ok (s, io') →
  metadata_post obj io s io'.
Proof.
  revert obj path io s io'.
  induction depth as [|depth IH]; intros obj path io s io' Hwf H; [done|].
  simpl in H.
  apply bind_Ok in H as (f & io0 & Hf & H). minv Hf.
  apply bind_Ok in H as (md & io0 & Hmd & H). minv Hmd.
  destruct md as [s0|].
  - (* the object already has metadata *)
    minv H. unfold metadata_post. rewrite with_file_same.
    split_and!; try done; try apply ext_refl.
    + intros s1 E. rewrite Hmd in E. by injection E as [= <-].
    + intros E. rewrite Hmd in E. done.
  - (* a new section under the parent's metadata *)
    apply bind_Ok in H as (pm & io1 & Hpm & H).
    assert (ext (nix_file io) (nix_file io1) ∧ wf (nix_file io1) ∧
            io1 = with_file io (nix_file io1)) as (Hext1 & Hwf1 & Hio1).
    { destruct (length (drop_last 2 (split "/" path)) =? 0).
      - minv Hpm. rewrite with_file_same. split_and!; [apply ext_refl | done | done].
      - apply bind_Ok in Hpm as (par & io2 & Hpar & Hpm). minv Hpar.
        apply bind_Ok in Hpm as (sp & io2 & Hsp & Hpm). minv Hpm.
        destruct (IH _ _ _ _ _ Hwf Hsp) as (?&?&?&_). done. }
    apply bind_Ok in H as (f' & io2 & Hf' & H). minv Hf'.
    apply bind_Ok in H as (nm & io2 & Hnm & H). minv Hnm.
    apply bind_Ok in H as (ty & io2 & Hty & H). minv Hty.
    apply bind_Ok in H as (s1 & io2 & Hs1 & H). minv Hs1.
    apply bind_Ok in H as (u & io2 & Hu & H). minv Hu. minv H.
    cbn [nix_file with_file] in *.
    set (f1 := nix_file io1) in *.
    set (f2 := snd (create_section pm nm (ty +:+ ".metadata") f1)).
    set (s := fst (create_section pm nm (ty +:+ ".metadata") f1)).
    assert (s = length (h_sections f1)) as Hs by (by destruct pm).
    assert (ext (nix_file io) f2) as Hext2 by (by apply ext_create_section).
    assert (wf f2) as Hwf2 by (by apply wf_create_section).
    assert (sec_props <$> h_sections f2 !! s = Some []) as Hprops.
    { rewrite Hs. unfold f2. destruct pm; simpl; unfold upd.
      - rewrite (lookup_alter_proj sec_props) by done.
        by rewrite list_lookup_middle.
      - by rewrite list_lookup_middle. }
    assert (length (h_sections (nix_file io)) ≤ s) as Hlen.
    { rewrite Hs. by apply ext_sections_length. }
    assert (s < length (h_sections f2)) as Hlive.
    { destruct (h_sections f2 !! s) eqn:E; [by apply lookup_lt_Some in E | done]. }
    unfold metadata_post. cbn [nix_file with_file]. fold f1 s f2. split_and!.
    + by apply ext_set_metadata_over.
    + by apply wf_set_metadata.
    + by rewrite Hio1.
    + rewrite obj_metadata_set_metadata. rewrite decide_True by done.
      assert (is_Some (obj_metadata f2 obj)) as [x Hx].
      { unfold f2. rewrite md_create_section.
        apply obj_metadata_is_Some. eauto. }
      fold s f2. by rewrite Hx.
    + intros s1 E. rewrite Hmd in E. done.
    + intros _. split_and!.
      * done.
      * by destruct obj.
      * intros r' m Hne E. rewrite obj_metadata_set_metadata in E.
        rewrite decide_False in E by done.
        unfold f2 in E. rewrite md_create_section in E.
        destruct Hwf1 as (_&_&_&_&_&_&W7). apply W7 in E. lia.
Qed.

End Metadata.

(** ** Annotation values: [_to_value] *)

Section ToValue.
Import Py Neonix Frame.

(** C8.  The claim promises that a flat sequence of plain scalars is
    stored as the ordered sequence of its converted elements.  In the
    code the test inside the loop is made on the sequence [v], not on
    the element [item], so the first round of the loop always takes the
    nested-container exit: every non-empty sequence, flat or not, is
    answered with the warning and [None], and nothing is stored. *)
Theorem to_value_drops_every_sequence (item : pyval) (rest : list pyval) :
  _to_value (PIter (item :: rest)) = ([warn_nested], Ok None).
Proof. reflexivity. Qed.

(** The list [[1, 2, 3]] in particular. *)
Lemma to_value_flat_ints :
  _to_value (PIter [PNumber (NInt 1); PNumber (NInt 2); PNumber (NInt 3)])
  = ([warn_nested], Ok None).
Proof. reflexivity. Qed.

(** An empty sequence never enters the loop and is not stored either. *)
Lemma to_value_empty_sequence : _to_value (PIter []) = ([], Ok None).
Proof. reflexivity. Qed.

(** The scalars themselves are converted. *)
Lemma to_value_scalar (n : number) :
  _to_value (PNumber n) = ([], Ok (Some (Single (value_of_number n)))).
Proof. reflexivity. Qed.

End ToValue.

(** ** File transactions of the [neo2nix] writer *)

Section Transactions.
Import Py Neo2nix.

(** A method that returns leaves no handle behind. *)
Lemma file_transaction_returns {A} (method : M A) (io io1 io2 : NixIO) (a : A) :
  open_handles io = [] →
  method (snd (set_f (opened io) (snd (_open io)))) = (Ok a, io1) →
  f io1 = Some (opened io) →
  open_handles io1 = [opened io] →
  open_handles (snd (file_transaction method io)) = [].
Proof.
  intros H0 Hm Hf Hh. unfold file_transaction, bind. simpl.
  simpl in Hm. rewrite Hm. unfold close_f. rewrite Hf. simpl.
  rewrite Hh. simpl. by rewrite Nat.eqb_refl.
Qed.

(** A method that raises skips [instance.f.close()]: the exception
    leaves [wrapped] at the call of [method]. *)
Lemma file_transaction_raises {A} (method : M A) (io io1 : NixIO) (e : exn) :
  method (snd (set_f (opened io) (snd (_open io)))) = (Raise e, io1) →
  file_transaction method io = (Raise e, io1).
Proof.
  intros Hm. unfold file_transaction, bind. simpl. simpl in Hm. by rewrite Hm.
Qed.

(** C9.  The claim wants the handle closed on every exit path.  The
    decorator has no [try]/[finally]: reading a Block that does not
    exist raises [NameError] inside the wrapped method, the call of
    [close] is never reached, and the handle opened at the start
    (number 0 here) is still open when [read_block] has raised. *)
Theorem read_block_leaves_handle_open :
  let r := read_block "nope" (new_io (Some empty_file) true) in
  fst r = Raise NameError ∧ open_handles (snd r) = [0] ∧ f (snd r) = Some 0.
Proof. by vm_compute. Qed.

(** The same call on a Block that exists closes the handle. *)
Lemma read_block_closes_on_return :
  let d := {| blocks := [{| nb_name := "b"; nb_type := "neo_block"; nb_tags := [];
                            nb_data_arrays := []; nb_metadata := Some 0 |}];
              sections := [0];
              h_sections := [{| sec_name := "b"; sec_type := "block"; sec_props := [];
                                sec_sections := [] |}] |} in
  let r := read_block "b" (new_io (Some d) true) in
  (∃ x, fst r = Ok x) ∧ open_handles (snd r) = [].
Proof. split; [eexists|]; by vm_compute. Qed.

End Transactions.

(** ** Path resolution: [_get_object_at] *)

Section Paths.
Import Py Neonix Frame.

Lemma path_of_snoc (b : string) (steps : list (string * string)) (l n : string) :
  path_of b (steps ++ [(l, n)]) = path_of b steps +:+ "/" +:+ l +:+ "/" +:+ n.
Proof. unfold path_of. by rewrite foldl_app. Qed.

Lemma resolve_steps_snoc (f : File) (b : string) (steps : list (string * string)) (l n : string) :
  resolve_steps f b (steps ++ [(l, n)]) =
  match resolve_steps f b steps with
  | Ok parent => index_child f parent l n
  | Raise e => Raise e
  | Diverge => Diverge
  end.
Proof. unfold resolve_steps. by rewrite foldl_app. Qed.

Lemma split_path_of (b : string) (steps : list (string * string)) :
  slash_free b →
  Forall (λ st, slash_free (fst st) ∧ slash_free (snd st)) steps →
  split "/" (path_of b steps) = "" :: b :: concat ((λ st, [fst st; snd st]) <$> steps).
Proof.
  intros Hb Hs. induction steps as [|[l n] steps IH] using rev_ind.
  - unfold path_of. cbn [foldl]. change ("/" +:+ b) with (String "/" b).
    rewrite split_head_sep. by rewrite split_no_sep.
  - apply Forall_app in Hs as [Hs Hl]. apply Forall_singleton in Hl as [Hl Hn].
    simpl in Hl, Hn. rewrite path_of_snoc.
    assert (path_of b steps +:+ "/" +:+ l +:+ "/" +:+ n
            = (path_of b steps +:+ String "/" l) +:+ String "/" n) as ->
      by (by rewrite str_app_assoc).
    rewrite !split_app_sep by done.
    rewrite IH by done. rewrite fmap_app, concat_app. simpl.
    by rewrite <- !app_assoc.
Qed.

Lemma path_of_length (b : string) (steps : list (string * string)) :
  length steps < String.length (path_of b steps).
Proof.
  induction steps as [|[l n] steps IH] using rev_ind.
  - unfold path_of. simpl. lia.
  - rewrite path_of_snoc, !str_length_app, length_app. simpl. lia.
Qed.

Lemma last1_snoc {A} (l : list A) (x : A) : last1 (l ++ [x]) = Some x.
Proof. unfold last1. apply last_snoc. Qed.

Lemma last2_snoc2 {A} (l : list A) (x y : A) : last2 (l ++ [x; y]) = Some x.
Proof.
  unfold last2. rewrite length_app. simpl.
  replace (length l + 2) with (S (S (length l))) by lia.
  by rewrite list_lookup_middle.
Qed.

Lemma drop_last_snoc2 {A} (l : list A) (x y : A) : drop_last 2 (l ++ [x; y]) = l.
Proof.
  unfold drop_last. rewrite length_app. simpl.
  replace (length l + 2 - 2) with (length l) by lia.
  by rewrite take_app_length.
Qed.

(** Any depth above the number of pairs resolves a path of the grammar
    to what the specification's fold says. *)
Lemma get_object_at_depth_path (f : File) (b : string) (steps : list (string * string)) (d : nat) :
  slash_free b →
  Forall (λ st, slash_free (fst st) ∧ slash_free (snd st)) steps →
  length steps < d →
  get_object_at_depth d f (path_of b steps) = resolve_steps f b steps.
Proof.
  intros Hb Hs. revert d.
  induction steps as [|[l n] steps IH] using rev_ind; intros d Hd.
  - destruct d as [|d]; [simpl in Hd; lia|].
    cbn [get_object_at_depth]. rewrite (split_path_of b []) by done. done.
  - destruct d as [|d]; [lia|].
    pose proof Hs as Hs'.
    apply Forall_app in Hs' as [Hs' _].
    rewrite length_app in Hd. simpl in Hd.
    assert (split "/" (path_of b (steps ++ [(l, n)]))
            = split "/" (path_of b steps) ++ [l; n]) as Hparts.
    { rewrite !split_path_of by done. by rewrite fmap_app, concat_app. }
    cbn [get_object_at_depth]. rewrite Hparts.
    assert ((length (split "/" (path_of b steps) ++ [l; n]) =? 2) = false) as ->.
    { apply Nat.eqb_neq. rewrite length_app. simpl.
      pose proof (split_length_pos "/" (path_of b steps)). lia. }
    rewrite drop_last_snoc2, join_split, last2_snoc2.
    rewrite IH by (done || lia).
    rewrite resolve_steps_snoc.
    destruct (resolve_steps f b steps) as [parent|e|]; [|done|done].
    unfold index_child. destruct (_container_map l) as [c|]; [|done].
    destruct (getattr f parent c) as [ids|e|]; [|done|done].
    replace (split "/" (path_of b steps) ++ [l; n])
      with ((split "/" (path_of b steps) ++ [l]) ++ [n]) by (by rewrite <- app_assoc).
    by rewrite last1_snoc.
Qed.

Lemma container_get_absent (f : File) (c : container) (ids : list nat) (nm : string) :
  nm ∉ collection_names f c ids → container_get f c ids nm = Raise KeyError.
Proof.
  intros Hn. destruct c; simpl in *; apply find_name_None in Hn; by rewrite Hn.
Qed.

Lemma blocks_get_absent (f : File) (b : string) :
  b ∉ names_of nb_name (h_blocks f) (blocks f) → blocks_get f b = Raise KeyError.
Proof. intros Hn. unfold blocks_get. apply find_name_None in Hn. by rewrite Hn. Qed.

Lemma resolve_steps_raise (f : File) (b : string) (pre post : list (string * string)) (e : exn) :
  resolve_steps f b pre = Raise e → resolve_steps f b (pre ++ post) = Raise e.
Proof.
  intros E. induction post as [|[l n] post IH] using rev_ind.
  - by rewrite app_nil_r.
  - by rewrite app_assoc, resolve_steps_snoc, IH.
Qed.

(** C6, as it holds.  On a path of the grammar
    [/block/collection/name/...] whose names contain no [/], resolution
    is the fold of the specification: the root name is looked up among
    the Blocks without any parent lookup, every pair indexes the
    collection its label selects, and a name that is absent, at the
    root or at any pair, makes the whole resolution raise [KeyError]. *)
Theorem resolution_on_grammar_paths (f : File) (b : string) (steps : list (string * string)) :
  slash_free b →
  Forall (λ st, slash_free (fst st) ∧ slash_free (snd st)) steps →
  _get_object_at_file f (path_of b steps) = resolve_steps f b steps ∧
  _get_object_at_file f (path_of b []) = blocks_get f b ∧
  (b ∉ names_of nb_name (h_blocks f) (blocks f) →
     _get_object_at_file f (path_of b steps) = Raise KeyError) ∧
  (∀ pre l n post parent c ids,
     steps = pre ++ (l, n) :: post →
     resolve_steps f b pre = Ok parent →
     _container_map l = Some c → getattr f parent c = Ok ids →
     n ∉ collection_names f c ids →
     _get_object_at_file f (path_of b steps) = Raise KeyError).
Proof.
  intros Hb Hs.
  assert (_get_object_at_file f (path_of b steps) = resolve_steps f b steps) as Hres.
  { unfold _get_object_at_file, recursion_limit.
    apply get_object_at_depth_path; [done|done|].
    pose proof (path_of_length b steps). lia. }
  split_and!.
  - done.
  - unfold _get_object_at_file, recursion_limit.
    rewrite get_object_at_depth_path; [done|done|constructor|simpl; lia].
  - intros Hn. rewrite Hres.
    apply (resolve_steps_raise f b [] steps). by apply blocks_get_absent.
  - intros pre l n post parent c ids -> Hpre Hc Hg Hn. rewrite Hres.
    replace (pre ++ (l, n) :: post) with ((pre ++ [(l, n)]) ++ post)
      by (by rewrite <- app_assoc).
    apply resolve_steps_raise. rewrite resolve_steps_snoc, Hpre.
    unfold index_child. rewrite Hc, Hg. by apply container_get_absent.
Qed.

(** A file with one Block [b] holding one Segment [s]. *)
Definition one_segment_file : File :=
  let f1 := snd (create_block "b" "neo.block" (empty_file 0)) in
  snd (create_group 0 "s" "neo.segment" f1).

Lemma resolution_on_grammar_paths_witness :
  slash_free "b" ∧
  Forall (λ st, slash_free (fst st) ∧ slash_free (snd st)) [("segments", "s")] ∧
  _get_object_at_file one_segment_file (path_of "b" [("segments", "s")]) = Ok (RGroup 0).
Proof.
  assert (slash_free "b") as Hb.
  { unfold slash_free. apply (bool_decide_unpack _). by vm_compute. }
  assert (Forall (λ st, slash_free (fst st) ∧ slash_free (snd st)) [("segments", "s")]) as Hs.
  { repeat constructor; unfold slash_free; apply (bool_decide_unpack _); by vm_compute. }
  split; [exact Hb|]. split; [exact Hs|].
  etrans; [exact (proj1 (resolution_on_grammar_paths one_segment_file "b" _ Hb Hs))|].
  by vm_compute.
Defined.

(** C6 as claimed fails on paths outside the grammar.  With Block [b]
    and its Segment [s] in the file, no part of [/b/segments] names an
    absent object, yet the call neither returns an object nor raises a
    not-found error: the parent path of a path with an odd number of
    parts is the empty path, whose parent path is the empty path again,
    and the recursion ends in Python's [RecursionError].  Asking a
    Segment for its [units] is an [AttributeError], not a not-found
    error either. *)
Lemma resolution_off_grammar :
  _get_object_at_file one_segment_file "/b" = Ok (RBlock 0) ∧
  _get_object_at_file one_segment_file "/b/segments" = Raise RecursionError ∧
  _get_object_at_file one_segment_file "/b/segments/s/units/u" = Raise AttributeError.
Proof. by vm_compute. Qed.

End Paths.
Set Warnings "-clear-no-such-hyp".

(** ** Deletion reconciliation in the [neo2nix] writer *)

Section NamedLists.
Import Py Neo2nix.
Context {A : Type} (nm : A → string).

Lemma find_by_Some (l : list A) (key : string) (x : A) :
  find_by nm l key = Some x → x ∈ l ∧ nm x = key.
Proof.
  unfold find_by. intros E. apply find_some in E as [Hin Heq].
  split; [by apply list_elem_of_In | by apply String.eqb_eq].
Qed.

Lemma find_by_None (l : list A) (key : string) :
  find_by nm l key = None ↔ key ∉ nm <$> l.
Proof.
  unfold find_by. induction l as [|x l IH]; simpl.
  - split; [intros _; apply not_elem_of_nil | done].
  - destruct (String.eqb_spec (nm x) key) as [E|E].
    + split; [done|]. intros Hn. exfalso. apply Hn. rewrite E. apply elem_of_cons. by left.
    + rewrite IH. rewrite not_elem_of_cons. naive_solver.
Qed.

Lemma find_by_is_Some (l : list A) (key : string) :
  key ∈ nm <$> l → is_Some (find_by nm l key).
Proof.
  intros Hin. destruct (find_by nm l key) eqn:E; [done|].
  by apply find_by_None in E.
Qed.

Lemma update_by_absent (l : list A) (key : string) (g : A → A) :
  find_by nm l key = None → update_by nm key g l = l.
Proof.
  unfold find_by. induction l as [|x l IH]; simpl; [done|].
  destruct (String.eqb (nm x) key); [done|]. intros E. by rewrite IH.
Qed.

Lemma update_by_fixed (l : list A) (key : string) (g : A → A) (x : A) :
  find_by nm l key = Some x → g x = x → update_by nm key g l = l.
Proof.
  unfold find_by. induction l as [|y l IH]; simpl; [done|].
  destruct (String.eqb (nm y) key).
  - intros [= ->] ->. done.
  - intros E Hg. by rewrite IH.
Qed.

Lemma update_by_agree (l : list A) (key : string) (g h : A → A) (x : A) :
  find_by nm l key = Some x → g x = h x → update_by nm key g l = update_by nm key h l.
Proof.
  unfold find_by. induction l as [|y l IH]; simpl; [done|].
  destruct (String.eqb (nm y) key).
  - intros [= ->] ->. done.
  - intros E Hg. by rewrite IH.
Qed.

Lemma update_by_compose (l : list A) (key : string) (g h : A → A) :
  (∀ x, nm (g x) = nm x) →
  update_by nm key h (update_by nm key g l) = update_by nm key (h ∘ g) l.
Proof.
  intros Hg. induction l as [|x l IH]; simpl; [done|].
  destruct (String.eqb (nm x) key) eqn:E; simpl.
  - by rewrite Hg, E.
  - by rewrite E, IH.
Qed.

Lemma update_by_ext (l : list A) (key : string) (g h : A → A) :
  (∀ x, g x = h x) → update_by nm key g l = update_by nm key h l.
Proof.
  intros Hg. induction l as [|x l IH]; simpl; [done|].
  destruct (String.eqb (nm x) key); by rewrite ?Hg, ?IH.
Qed.

Lemma find_by_update_by (l : list A) (key : string) (g : A → A) :
  (∀ x, nm (g x) = nm x) →
  find_by nm (update_by nm key g l) key = g <$> find_by nm l key.
Proof.
  intros Hg. unfold find_by. induction l as [|x l IH]; simpl; [done|].
  destruct (String.eqb (nm x) key) eqn:E; simpl.
  - by rewrite Hg, E.
  - by rewrite E, IH.
Qed.

Lemma find_by_snoc_absent (l : list A) (key : string) (x : A) :
  find_by nm l key = None → nm x = key → find_by nm (l ++ [x]) key = Some x.
Proof.
  unfold find_by. intros E Hx. induction l as [|y l IH]; simpl in *.
  - by rewrite Hx, String.eqb_refl.
  - destruct (String.eqb (nm y) key); [done | by apply IH].
Qed.

Lemma names_delete_by (l : list A) (key : string) :
  NoDup (nm <$> l) →
  NoDup (nm <$> delete_by nm key l) ∧
  ∀ n, n ∈ nm <$> delete_by nm key l ↔ n ∈ nm <$> l ∧ n ≠ key.
Proof.
  induction l as [|x l IH]; simpl; intros Hnd.
  - split; [constructor|]. intros n. rewrite elem_of_nil. naive_solver.
  - apply NoDup_cons in Hnd as [Hx Hnd]. destruct (IH Hnd) as [IH1 IH2].
    destruct (String.eqb_spec (nm x) key) as [E|E].
    + split; [done|]. intros n. rewrite elem_of_cons. subst key.
      split; [|naive_solver]. intros Hin. split; [by right|]. by intros ->.
    + simpl. split.
      * apply NoDup_cons. split; [|done]. rewrite IH2. naive_solver.
      * intros n. rewrite !elem_of_cons, IH2. naive_solver.
Qed.

Lemma delete_by_Forall (P : A → Prop) (l : list A) (key : string) :
  Forall P l → Forall P (delete_by nm key l).
Proof.
  induction 1 as [|x l Hx Hl IH]; simpl; [constructor|].
  destruct (String.eqb (nm x) key); [done | by constructor].
Qed.

End NamedLists.

Section NamedMaps.
Import Py Neo2nix.
Context {A B : Type} (nmA : A → string) (nmB : B → string) (h : A → B).
Hypothesis nm_h : ∀ x, nmB (h x) = nmA x.

Lemma find_by_fmap (l : list A) (key : string) :
  find_by nmB (h <$> l) key = h <$> find_by nmA l key.
Proof.
  unfold find_by. induction l as [|x l IH]; simpl; [done|].
  rewrite nm_h. destruct (String.eqb (nmA x) key); [done | apply IH].
Qed.

Lemma update_by_fmap (l : list A) (key : string) (g : A → A) (g' : B → B) :
  (∀ x, h (g x) = g' (h x)) →
  h <$> update_by nmA key g l = update_by nmB key g' (h <$> l).
Proof.
  intros Hg. induction l as [|x l IH]; simpl; [done|].
  rewrite nm_h. destruct (String.eqb (nmA x) key); simpl; [by rewrite Hg | f_equal; apply IH].
Qed.

Lemma delete_by_fmap (l : list A) (key : string) :
  h <$> delete_by nmA key l = delete_by nmB key (h <$> l).
Proof.
  induction l as [|x l IH]; simpl; [done|].
  rewrite nm_h. destruct (String.eqb (nmA x) key); simpl; [done | f_equal; apply IH].
Qed.

End NamedMaps.

Section Keeping.
Import Py Neo2nix Skeleton.

Lemma bind_returns {A B} (m : M A) (k : A → M B) (io : NixIO) (b : B) (io' : NixIO) :
  bind m k io = (Ok b, io') ↔ ∃ a io1, m io = (Ok a, io1) ∧ k a io1 = (Ok b, io').
Proof.
  unfold bind. split.
  - destruct (m io) as [[a| |] io1]; [|done|done]. eauto.
  - intros (a & io1 & -> & E). done.
Qed.

Lemma get_file_returns (io : NixIO) (d : File) (io' : NixIO) :
  get_file io = (Ok d, io') ↔ disk io = Some d ∧ io' = io.
Proof.
  unfold get_file. destruct (disk io) as [d0|]; split; try done.
  - by intros [= -> ->].
  - by intros [[= ->] ->].
  - by intros [? ?].
Qed.

Lemma get_block_returns (bid : string) (io : NixIO) (b : NixBlock) (io' : NixIO) :
  get_block bid io = (Ok b, io') ↔
  io' = io ∧ ∃ d, disk io = Some d ∧ find_by nb_name (blocks d) bid = Some b.
Proof.
  unfold get_block. rewrite bind_returns. split.
  - intros (d & io1 & Hd & Hf). apply get_file_returns in Hd as [Hd ->].
    destruct (find_by nb_name (blocks d) bid) as [b0|] eqn:E; [|done].
    injection Hf as -> ->. eauto.
  - intros (-> & d & Hd & Hf). exists d, io. split; [by apply get_file_returns|].
    by rewrite Hf.
Qed.

Lemma keeps_ret {A} (a : A) : keeps (ret a).
Proof. done. Qed.

Lemma keeps_raise {A} (e : exn) : keeps (raise (A := A) e).
Proof. done. Qed.

Lemma keeps_bind {A B} (m : M A) (k : A → M B) :
  keeps m → (∀ a, keeps (k a)) → keeps (bind m k).
Proof.
  intros Hm Hk io. unfold bind. specialize (Hm io).
  destruct (m io) as [[a| |] io1]; simpl in *; [|done|done].
  by rewrite Hk.
Qed.

Lemma keeps_get_file : keeps get_file.
Proof. intros io. unfold get_file. by destruct (disk io) eqn:E; simpl; rewrite E. Qed.

Lemma keeps_get_block (bid : string) : keeps (get_block bid).
Proof.
  apply keeps_bind; [apply keeps_get_file|]. intros d.
  destruct (find_by nb_name (blocks d) bid); [apply keeps_ret | apply keeps_raise].
Qed.

Lemma keeps_modify_file (g : File → File) :
  (∀ d, skeleton (g d) = skeleton d) → keeps (modify_file g).
Proof.
  intros Hg io. unfold modify_file. simpl. destruct (disk io); simpl; [|done].
  by rewrite Hg.
Qed.

Lemma keeps_create (g : File → nat * File) :
  (∀ d, skeleton (snd (g d)) = skeleton d) → keeps (create g).
Proof.
  intros Hg io. unfold create. destruct (disk io) as [d|] eqn:E; simpl; [|by rewrite E].
  specialize (Hg d). destruct (g d) as [i d']. simpl in *. by rewrite Hg.
Qed.

Lemma keeps_for_each {A} (l : list A) (body : A → M unit) :
  (∀ x, keeps (body x)) → keeps (for_each l body).
Proof.
  intros Hb. induction l as [|x l IH]; simpl; [apply keeps_ret|].
  apply keeps_bind; [apply Hb | done].
Qed.

Lemma skeleton_create_section (parent : option nat) (nm ty : string) (d : File) :
  skeleton (snd (create_section parent nm ty d)) = skeleton d.
Proof. by destruct parent. Qed.

(** An update of a Block that leaves its name and the names and types
    of its Tags alone. *)
Lemma skeleton_update_block (bid : string) (g : NixBlock → NixBlock) (d : File) :
  (∀ b, nb_name (g b) = nb_name b ∧ tag_sig <$> nb_tags (g b) = tag_sig <$> nb_tags b) →
  skeleton (update_block bid g d) = skeleton d.
Proof.
  intros Hg. unfold skeleton, update_block. simpl.
  induction (blocks d) as [|b l IH]; simpl; [done|].
  destruct (String.eqb (nb_name b) bid); simpl.
  - destruct (Hg b) as [-> ->]. done.
  - f_equal. apply IH.
Qed.

(** An update of a Block's Tags. *)
Lemma skeleton_update_tags (bid : string) (g : NixBlock → NixBlock)
    (gs : list (string * string) → list (string * string)) (d : File) :
  (∀ b, nb_name (g b) = nb_name b ∧ tag_sig <$> nb_tags (g b) = gs (tag_sig <$> nb_tags b)) →
  skeleton (update_block bid g d) = skel_update bid gs (skeleton d).
Proof.
  intros Hg. unfold skeleton, update_block, skel_update. simpl.
  apply (update_by_fmap nb_name fst); [done|].
  intros b. destruct (Hg b) as [-> ->]. done.
Qed.

Lemma update_by_tags_sig (key : string) (g : Tag → Tag) (ts : list Tag) :
  (∀ t, tag_sig (g t) = tag_sig t) →
  tag_sig <$> update_by tag_name key g ts = tag_sig <$> ts.
Proof.
  intros Hg. induction ts as [|t ts IH]; simpl; [done|].
  destruct (String.eqb (tag_name t) key); simpl; [by rewrite Hg | f_equal; apply IH].
Qed.

Lemma keeps_get_or_create_section (root : nat) (group_name nm : string) :
  keeps (get_or_create_section root group_name nm).
Proof.
  unfold get_or_create_section.
  apply keeps_bind; [apply keeps_get_file|]. intros d.
  apply keeps_bind; [destruct (h_sections d !! root); [apply keeps_ret | apply keeps_raise]|].
  intros r. apply keeps_bind.
  { destruct (find_section d _ _); [apply keeps_ret|].
    apply keeps_create. intros ?. apply skeleton_create_section. }
  intros g. apply keeps_bind; [apply keeps_get_file|]. intros d'.
  apply keeps_bind; [destruct (h_sections d' !! g); [apply keeps_ret | apply keeps_raise]|].
  intros grp. destruct (find_section d' _ _); [apply keeps_ret|].
  apply keeps_create. intros ?. apply skeleton_create_section.
Qed.

Lemma keeps_write_metadata (s : nat) (dict : list (string * meta)) :
  keeps (write_metadata s dict).
Proof.
  unfold write_metadata. apply keeps_for_each. intros kv.
  destruct (truthy (snd kv)); [|apply keeps_ret].
  by apply keeps_modify_file.
Qed.

Lemma keeps_write_analogsignal (bid tid : string) (sig : analogsignal) :
  keeps (_write_analogsignal bid tid sig).
Proof.
  unfold _write_analogsignal.
  apply keeps_bind; [apply keeps_get_block|]. intros nb.
  apply keeps_bind.
  { destruct (find_by da_name _ _); [apply keeps_ret|].
    apply keeps_modify_file. intros d. by apply skeleton_update_block. }
  intros _. apply keeps_bind.
  { apply keeps_modify_file. intros d. by apply skeleton_update_block. }
  intros _. apply keeps_bind.
  { destruct (nb_metadata nb); [apply keeps_get_or_create_section | apply keeps_raise]. }
  intros md. apply keeps_bind.
  { apply keeps_modify_file. intros d. by apply skeleton_update_block. }
  intros _. apply keeps_bind; [apply keeps_write_metadata|].
  intros _. apply keeps_ret.
Qed.

Lemma keeps_set_tag (bid nm : string) (g : Tag → Tag) :
  (∀ t, tag_sig (g t) = tag_sig t) →
  keeps (modify_file (update_block bid (λ b,
    nb_with b (update_by tag_name nm g (nb_tags b)) (nb_data_arrays b) (nb_metadata b)))).
Proof.
  intros Hg. apply keeps_modify_file. intros d. apply skeleton_update_block.
  intros b. split; [done|]. simpl. by apply update_by_tags_sig.
Qed.

End Keeping.

Section Reconciliation.
Import Py Neo2nix Skeleton.

Ltac keeps_step :=
  first [ apply keeps_ret | apply keeps_raise | apply keeps_get_file
        | apply keeps_get_block | apply keeps_write_metadata
        | apply keeps_get_or_create_section
        | apply keeps_write_analogsignal
        | (apply keeps_set_tag; done)
        | (apply keeps_create; intros ?; apply skeleton_create_section)
        | (apply keeps_modify_file; intros ?; by apply skeleton_update_block)
        | (apply keeps_bind; [|intros ?])
        | (apply keeps_for_each; intros ?)
        | match goal with |- keeps (match ?x with _ => _ end) => destruct x end ].

(** Inverts [H : bind m k io = (Ok _, _)], naming the value [a], the
    state [io1] and the run of [m]. *)
Ltac step H a io1 Ha :=
  apply bind_returns in H as (a & io1 & Ha & H).

(** Uses that the method of [H : m io = (Ok _, io')] keeps the skeleton. *)
Ltac kept H Hk :=
  match type of H with
  | ?m ?io = _ =>
      assert (keeps m) as Hk by (repeat keeps_step);
      specialize (Hk io); rewrite H in Hk; simpl in Hk
  end.

Lemma find_block_skeleton (d : File) (bid : string) :
  find_by fst (skeleton d) bid =
  (λ b, (nb_name b, tag_sig <$> nb_tags b)) <$> find_by nb_name (blocks d) bid.
Proof. unfold skeleton. by apply (find_by_fmap nb_name fst). Qed.

Lemma find_tag_sig (ts : list Tag) (nm : string) :
  find_by fst (tag_sig <$> ts) nm = tag_sig <$> find_by tag_name ts nm.
Proof. by apply (find_by_fmap tag_name fst). Qed.

Lemma modify_file_returns (g : File → File) (io : NixIO) (u : unit) (io' : NixIO) :
  modify_file g io = (Ok u, io') → disk io' = g <$> disk io.
Proof. unfold modify_file. intros E. by inversion E. Qed.

(** [_write_segment] adds the Segment's Tag when the Block has no Tag
    of that name, and changes no other name or type. *)
Lemma write_segment_skeleton (bid : string) (seg : segment) (rec : bool)
    (io : NixIO) (r : string) (io' : NixIO) (sk : list (string * list (string * string))) :
  skeleton <$> disk io = Some sk →
  _write_segment bid seg rec io = (Ok r, io') →
  skeleton <$> disk io' = Some (skel_update bid (add_tag (name (seg_base seg))) sk).
Proof.
  intros Hsk H. unfold _write_segment in H.
  step H nb io1 Hnb. apply get_block_returns in Hnb as (-> & d & Hd & Hfind).
  rewrite Hd in Hsk. injection Hsk as <-.
  step H u io2 Hu. kept H Hk. rewrite Hk. clear Hk H.
  assert (find_by fst (skeleton d) bid = Some (nb_name nb, tag_sig <$> nb_tags nb)) as Hsf.
  { by rewrite find_block_skeleton, Hfind. }
  destruct (find_by tag_name (nb_tags nb) (name (seg_base seg))) as [t|] eqn:Et.
  - injection Hu as _ <-. rewrite Hd. simpl. f_equal. unfold skel_update.
    symmetry. eapply update_by_fixed; [exact Hsf|]. simpl.
    unfold add_tag. by rewrite find_tag_sig, Et.
  - apply modify_file_returns in Hu. rewrite Hu, Hd. simpl. f_equal.
    rewrite (skeleton_update_tags bid _ (λ ts, ts ++ [(name (seg_base seg), "neo_segment")])).
    + unfold skel_update. eapply update_by_agree; [exact Hsf|]. simpl.
      unfold add_tag. by rewrite find_tag_sig, Et.
    + intros b. split; [done|]. simpl. by rewrite fmap_app.
Qed.

Lemma write_segments_skeleton (bid : string) (segs : list segment) (rec : bool)
    (io : NixIO) (u : unit) (io' : NixIO) (sk : list (string * list (string * string))) :
  skeleton <$> disk io = Some sk →
  for_each segs (λ seg, bind (_write_segment bid seg rec) (λ _, ret tt)) io = (Ok u, io') →
  skeleton <$> disk io' =
  Some (foldl (λ sk seg, skel_update bid (add_tag (name (seg_base seg))) sk) sk segs).
Proof.
  revert io sk. induction segs as [|seg segs IH]; intros io sk Hsk H; simpl in *.
  - injection H as _ <-. done.
  - step H x io1 Hx. step Hx r io2 Hr. injection Hx as _ <-.
    eapply IH; [|exact H]. by eapply write_segment_skeleton.
Qed.

Lemma delete_tags_skeleton (bid : string) (to_remove : list string)
    (io : NixIO) (u : unit) (io' : NixIO) (sk : list (string * list (string * string))) :
  skeleton <$> disk io = Some sk →
  for_each to_remove (λ n,
    bind (get_block bid) (λ b,
      match find_by tag_name (nb_tags b) n with
      | Some _ =>
          modify_file (update_block bid (λ b,
            nb_with b (delete_by tag_name n (nb_tags b)) (nb_data_arrays b) (nb_metadata b)))
      | None => raise KeyError
      end)) io = (Ok u, io') →
  skeleton <$> disk io' =
  Some (foldl (λ sk n, skel_update bid (delete_by fst n) sk) sk to_remove).
Proof.
  revert io sk. induction to_remove as [|n l IH]; intros io sk Hsk H; simpl in *.
  - injection H as _ <-. done.
  - step H x io1 Hx. step Hx b io2 Hb.
    apply get_block_returns in Hb as (-> & d & Hd & Hfind).
    destruct (find_by tag_name (nb_tags b) n); [|done].
    apply modify_file_returns in Hx.
    eapply IH; [|exact H]. rewrite Hx, Hd. simpl. f_equal.
    rewrite Hd in Hsk. injection Hsk as <-.
    apply skeleton_update_tags. intros b0. split; [done|]. simpl.
    by apply (delete_by_fmap tag_name fst).
Qed.

Lemma skel_update_foldl {X} (bid : string) (g : X → list (string * string) → list (string * string))
    (l : list X) (sk : list (string * list (string * string))) :
  foldl (λ sk x, skel_update bid (g x) sk) sk l =
  skel_update bid (λ ts, foldl (λ ts x, g x ts) ts l) sk.
Proof.
  revert sk. induction l as [|x l IH]; intros sk; simpl.
  - unfold skel_update. induction sk as [|[n ts] sk IHs]; simpl; [done|].
    destruct (String.eqb n bid); [done | by rewrite <- IHs].
  - rewrite IH. unfold skel_update. rewrite update_by_compose by done. done.
Qed.

Lemma skel_update_compose (bid : string) (g h : list (string * string) → list (string * string))
    (sk : list (string * list (string * string))) :
  skel_update bid h (skel_update bid g sk) = skel_update bid (h ∘ g) sk.
Proof. unfold skel_update. by rewrite update_by_compose. Qed.

Lemma find_skel_update (bid : string) (g : list (string * string) → list (string * string))
    (sk : list (string * list (string * string))) :
  find_by fst (skel_update bid g sk) bid = (λ p, (fst p, g (snd p))) <$> find_by fst sk bid.
Proof. unfold skel_update. by rewrite find_by_update_by. Qed.


(** *** The Tags of a Block, as lists of names and types *)

Lemma add_tag_names (n : string) (ts : list (string * string)) :
  written_tags ts →
  written_tags (add_tag n ts) ∧
  ∀ x, x ∈ fst <$> add_tag n ts ↔ x ∈ fst <$> ts ∨ x = n.
Proof.
  intros [Hnd Hty]. unfold add_tag.
  destruct (find_by fst ts n) as [p|] eqn:E.
  - split; [done|]. intros x. split; [by left|]. intros [?| ->]; [done|].
    apply find_by_Some in E as [Hin <-]. by apply list_elem_of_fmap_2.
  - apply find_by_None in E. split.
    + split.
      * rewrite fmap_app. simpl. apply NoDup_app. split_and!; [done| |apply NoDup_singleton].
        intros x Hx ->%list_elem_of_singleton. done.
      * apply Forall_app. split; [done|]. by apply Forall_singleton.
    + intros x. rewrite fmap_app, elem_of_app. simpl.
      by rewrite list_elem_of_singleton.
Qed.

Lemma add_tags_names (names : list string) (ts : list (string * string)) :
  written_tags ts →
  written_tags (foldl (λ ts n, add_tag n ts) ts names) ∧
  ∀ x, x ∈ fst <$> foldl (λ ts n, add_tag n ts) ts names ↔ x ∈ fst <$> ts ∨ x ∈ names.
Proof.
  revert ts. induction names as [|n names IH]; intros ts Hw; simpl.
  - split; [done|]. intros x. rewrite elem_of_nil. naive_solver.
  - destruct (add_tag_names n ts Hw) as [Hw1 Hn1].
    destruct (IH _ Hw1) as [Hw2 Hn2]. split; [done|].
    intros x. rewrite Hn2, Hn1, elem_of_cons. naive_solver.
Qed.

Lemma delete_tags_names (rm : list string) (ts : list (string * string)) :
  written_tags ts →
  written_tags (foldl (λ ts n, delete_by fst n ts) ts rm) ∧
  ∀ x, x ∈ fst <$> foldl (λ ts n, delete_by fst n ts) ts rm ↔ x ∈ fst <$> ts ∧ x ∉ rm.
Proof.
  revert ts. induction rm as [|n rm IH]; intros ts Hw; simpl.
  - split; [done|]. intros x. split; [|naive_solver].
    intros Hx. split; [done | apply not_elem_of_nil].
  - destruct Hw as [Hnd Hty].
    destruct (names_delete_by fst ts n Hnd) as [Hnd1 Hn1].
    assert (written_tags (delete_by fst n ts)) as Hw1.
    { split; [done | by apply delete_by_Forall]. }
    destruct (IH _ Hw1) as [Hw2 Hn2]. split; [done|].
    intros x. rewrite Hn2, Hn1, not_elem_of_cons. naive_solver.
Qed.

Lemma set_minus_spec (a b : list string) (x : string) :
  x ∈ set_minus a b ↔ x ∈ a ∧ x ∉ b.
Proof.
  unfold set_minus, contains. rewrite elem_of_remove_dups, list_elem_of_In, filter_In.
  rewrite <- list_elem_of_In, negb_true_iff, bool_decide_eq_false. done.
Qed.

Lemma segment_filter_all (ts : list (string * string)) :
  Forall (λ p, snd p = "neo_segment") ts →
  List.filter (λ p, String.eqb (snd p) "neo_segment") ts = ts.
Proof.
  induction 1 as [|p ts Hp Hts IH]; simpl; [done|].
  rewrite Hp. simpl. by rewrite IH.
Qed.

(** Adding the current names and deleting the stale ones leaves the
    current names, each once. *)
Lemma reconcile_tags (names : list string) (ts : list (string * string)) :
  written_tags ts →
  let added := foldl (λ ts n, add_tag n ts) ts names in
  let stale := set_minus
                 (fst <$> List.filter (λ p, String.eqb (snd p) "neo_segment") ts) names in
  let final := foldl (λ ts n, delete_by fst n ts) added stale in
  written_tags final ∧ ∀ x, x ∈ fst <$> final ↔ x ∈ names.
Proof.
  intros Hw added stale final.
  destruct (add_tags_names names ts Hw) as [Hw1 Hn1]. fold added in Hw1, Hn1.
  destruct (delete_tags_names stale added Hw1) as [Hw2 Hn2]. fold final in Hw2, Hn2.
  split; [done|]. intros x. rewrite Hn2, Hn1. unfold stale.
  rewrite set_minus_spec, segment_filter_all by apply Hw.
  destruct (decide (x ∈ names)); naive_solver.
Qed.


Lemma sig_names (ts : list Tag) : fst <$> (tag_sig <$> ts) = tag_name <$> ts.
Proof. by rewrite <- list_fmap_compose. Qed.

Lemma sig_segment_filter (ts : list Tag) :
  fst <$> List.filter (λ p, String.eqb (snd p) "neo_segment") (tag_sig <$> ts)
  = tag_name <$> List.filter (λ x, String.eqb (tag_type x) "neo_segment") ts.
Proof.
  induction ts as [|t ts IH]; simpl; [done|].
  destruct (String.eqb (tag_type t) "neo_segment"); simpl; [f_equal|]; apply IH.
Qed.

Lemma segment_tags_all (ts : list Tag) :
  Forall (λ p, snd p = "neo_segment") (tag_sig <$> ts) → segment_tags ts = ts.
Proof.
  unfold segment_tags. induction ts as [|t ts IH]; simpl; [done|].
  intros [Ht Hts]%Forall_cons. simpl in Ht. rewrite Ht. simpl. by rewrite IH.
Qed.

(** The Tags [_write_block] leaves under the Block, from the Tags
    [ts] it found there. *)
Lemma write_block_skeleton (blk : block) (io : NixIO) (r : string) (io' : NixIO) (d : File) :
  disk io = Some d →
  _write_block blk true io = (Ok r, io') →
  let nm := name (blk_base blk) in
  let names := (λ s, name (seg_base s)) <$> blk_segments blk in
  let ts := default [] (block_tags d nm) in
  let added := foldl (λ ts n, add_tag n ts) ts names in
  let stale := set_minus
                 (fst <$> List.filter (λ p, String.eqb (snd p) "neo_segment") ts) names in
  ∃ d', disk io' = Some d' ∧
        block_tags d' nm = Some (foldl (λ ts n, delete_by fst n ts) added stale).
Proof.
  intros Hd H nm names ts added stale. unfold _write_block in H. fold nm in H.
  step H d0 io1 Hd0. apply get_file_returns in Hd0 as [Hd0 ->].
  rewrite Hd in Hd0. injection Hd0 as <-.
  step H u1 io1 Hu1.
  (* the Block is found or created *)
  assert (∃ sk1, skeleton <$> disk io1 = Some sk1 ∧
                 snd <$> find_by fst sk1 nm = Some ts) as (sk1 & Hsk1 & Hts1).
  { unfold ts, block_tags. rewrite find_block_skeleton.
    destruct (find_by nb_name (blocks d) nm) as [b|] eqn:Eb.
    - injection Hu1 as _ <-. exists (skeleton d). rewrite Hd. split; [done|].
      by rewrite find_block_skeleton, Eb.
    - apply modify_file_returns in Hu1. rewrite Hd in Hu1. simpl in Hu1.
      eexists. rewrite Hu1. split; [done|]. rewrite find_block_skeleton. simpl.
      rewrite (find_by_snoc_absent nb_name _ nm _ Eb); done. }
  step H d1 io2 Hd1. apply get_file_returns in Hd1 as [Hd1 ->].
  step H md io2 Hmd. kept Hmd Kmd.
  step H u2 io3 Hu2. kept Hu2 Ku2.
  step H u3 io4 Hu3. kept Hu3 Ku3.
  step H u4 io5 Hu4. injection H as _ <-.
  assert (skeleton <$> disk io4 = Some sk1) as Hsk4 by congruence.
  clear Kmd Ku2 Ku3 Hmd Hu2 Hu3.
  step Hu4 nb io6 Hnb. apply get_block_returns in Hnb as (-> & d4 & Hd4 & Hnb).
  step Hu4 u5 io6 Hsegs.
  eapply write_segments_skeleton in Hsegs; [|exact Hsk4].
  eapply delete_tags_skeleton in Hu4; [|exact Hsegs].
  assert (tag_sig <$> nb_tags nb = ts) as Hnbts.
  { rewrite Hd4 in Hsk4. injection Hsk4 as <-.
    rewrite find_block_skeleton, Hnb in Hts1. simpl in Hts1. congruence. }
  destruct (disk io5) as [d'|] eqn:Hd5; [|done]. exists d'. split; [done|].
  simpl in Hu4. injection Hu4 as Hu4. unfold block_tags. rewrite Hu4.
  rewrite !skel_update_foldl, skel_update_compose, find_skel_update.
  destruct (find_by fst sk1 nm) as [[n0 ts0]|]; [|done].
  simpl in Hts1. injection Hts1 as ->. simpl. f_equal.
  rewrite <- sig_segment_filter, Hnbts. fold names stale.
  f_equal. unfold added, names. by rewrite foldl_fmap.
Qed.

(** Reconciliation of the Segment Tags.  When [_write_block] returns for a Block whose
    Tags in the file (if it is there already) are Segment containers
    with unique names, the Tags under the Block afterwards are Segment
    containers, one for each name among the Block's current Segments:
    every stale name is gone, and the count is the number of distinct
    Segment names, which is the number of Segments when their names
    are pairwise distinct. *)
Theorem write_block_reconciles (blk : block) (io : NixIO) (r : string) (io' : NixIO) (d : File) :
  disk io = Some d →
  (∀ b, find_by nb_name (blocks d) (name (blk_base blk)) = Some b →
        written_tags (tag_sig <$> nb_tags b)) →
  _write_block blk true io = (Ok r, io') →
  let names := (λ s, name (seg_base s)) <$> blk_segments blk in
  ∃ d' b', disk io' = Some d' ∧
    find_by nb_name (blocks d') (name (blk_base blk)) = Some b' ∧
    segment_tags (nb_tags b') = nb_tags b' ∧
    NoDup (tag_name <$> segment_tags (nb_tags b')) ∧
    (∀ n, n ∈ tag_name <$> segment_tags (nb_tags b') ↔ n ∈ names) ∧
    length (segment_tags (nb_tags b')) = length (remove_dups names) ∧
    (NoDup names → length (segment_tags (nb_tags b')) = length (blk_segments blk)).
Proof.
  intros Hd Hw H names.
  destruct (write_block_skeleton blk io r io' d Hd H) as (d' & Hd' & Hts).
  fold names in Hts.
  assert (written_tags (default [] (block_tags d (name (blk_base blk))))) as Hw0.
  { unfold block_tags. rewrite find_block_skeleton.
    destruct (find_by nb_name (blocks d) _) as [b|] eqn:Eb; simpl.
    - by apply Hw.
    - split; constructor. }
  pose proof (reconcile_tags names _ Hw0) as Hrec. cbv zeta in Hrec, Hts.
  match type of Hts with _ = Some ?t => set (final := t) in Hrec, Hts end.
  destruct Hrec as [[Hnd Hty] Hnames].
  unfold block_tags in Hts. rewrite find_block_skeleton in Hts.
  destruct (find_by nb_name (blocks d') (name (blk_base blk))) as [b'|] eqn:Eb'; [|done].
  simpl in Hts. injection Hts as Hts. rewrite <- Hts in Hnd, Hty, Hnames.
  rewrite sig_names in Hnd, Hnames.
  assert (segment_tags (nb_tags b') = nb_tags b') as Hall by (by apply segment_tags_all).
  exists d', b'. rewrite Hall.
  assert (tag_name <$> nb_tags b' ≡ₚ remove_dups names) as Hperm.
  { apply NoDup_Permutation; [done | apply NoDup_remove_dups|].
    intros n. by rewrite Hnames, elem_of_remove_dups. }
  assert (length (nb_tags b') = length (remove_dups names)) as Hlen.
  { rewrite <- (length_fmap tag_name). by apply Permutation_length. }
  split_and!; try done.
  intros Hn. rewrite Hlen. unfold names in *.
  rewrite <- (length_fmap (λ s, name (seg_base s)) (blk_segments blk)).
  apply Permutation_length. symmetry. apply NoDup_Permutation; [done | apply NoDup_remove_dups|].
  intros n. by rewrite elem_of_remove_dups.
Qed.


Lemma write_block_reconciles_witness :
  let io1 := snd (_write_block (block_of "B" ["a"; "b"; "c"]) true fresh_io) in
  let blk := block_of "B" ["a"; "b"] in
  fst (_write_block blk true io1) = Ok "B" ∧
  count_segments io1 "B" = Some 3 ∧
  count_segments (snd (_write_block blk true io1)) "B" = Some 2.
Proof.
  intros io1 blk. split; [by vm_compute|]. split; [by vm_compute|].
  assert (disk io1 = Some (default empty_file (disk io1))) as Hd by (by vm_compute).
  assert (∀ b, find_by nb_name (blocks (default empty_file (disk io1))) (name (blk_base blk))
               = Some b → written_tags (tag_sig <$> nb_tags b)) as Hw.
  { intros b Hb. vm_compute in Hb. injection Hb as <-. split.
    - apply (bool_decide_unpack _). by vm_compute.
    - repeat constructor. }
  assert (_write_block blk true io1 = (Ok "B", snd (_write_block blk true io1))) as Hrun
    by (by vm_compute).
  destruct (write_block_reconciles blk io1 "B" _ _ Hd Hw Hrun)
    as (d' & b' & Hd' & Hb' & _ & _ & _ & _ & Hlen).
  change (name (blk_base blk)) with "B" in Hb'.
  unfold count_segments. rewrite Hd'. cbn -[find_by]. rewrite Hb'. cbn -[segment_tags]. f_equal.
  apply Hlen. apply (bool_decide_unpack _). by vm_compute.
Defined.

(** Segment names that repeat share a Tag: the writer keeps
    one Tag per name.  A Block with Segments [a], [a], [b] is written
    and then re-written with Segments [a], [a]; the list shrank from
    three to two, and one Segment container is left, not two. *)
Lemma shrink_with_repeated_names :
  let io1 := snd (_write_block (block_of "B" ["a"; "a"; "b"]) true fresh_io) in
  let blk := block_of "B" ["a"; "a"] in
  length (blk_segments (block_of "B" ["a"; "a"; "b"])) = 3 ∧
  length (blk_segments blk) = 2 ∧
  fst (_write_block blk true io1) = Ok "B" ∧
  count_segments (snd (_write_block blk true io1)) "B" = Some 1.
Proof. by vm_compute. Qed.

End Reconciliation.

(** ** Relations between the file before and after a method *)

Section Preserving.
Import Py Neonix Frame.
Context (R : File → File → Prop).
Hypothesis R_refl : ∀ f, R f f.
Hypothesis R_trans : ∀ f1 f2 f3, R f1 f2 → R f2 f3 → R f1 f3.

Lemma preserves_ret {A} (a : A) : preserves R (ret a).
Proof. intros io b io' E. apply ret_Ok in E as [_ ->]. apply R_refl. Qed.

Lemma preserves_raise {A} (e : exn) : preserves R (raise (A := A) e).
Proof. intros io b io' E. done. Qed.

Lemma preserves_lift {A} (o : outcome A) : preserves R (lift o).
Proof. intros io b io' E. apply lift_Ok in E as [_ ->]. apply R_refl. Qed.

Lemma preserves_live {A} (o : option A) : preserves R (Neonix.live o).
Proof. intros io b io' E. apply live_Ok in E as [_ ->]. apply R_refl. Qed.

Lemma preserves_get_file : preserves R get_file.
Proof. intros io b io' E. apply get_file_Ok in E as [_ ->]. apply R_refl. Qed.

Lemma preserves_map_set (k : map_key) (v : mapped) : preserves R (map_set k v).
Proof. intros io b io' E. apply map_set_Ok in E as ->. apply R_refl. Qed.

Lemma preserves_warn (w : list string) : preserves R (warn w).
Proof. intros io b io' E. apply warn_Ok in E as ->. apply R_refl. Qed.

Lemma preserves_lazy_append (p : string) : preserves R (lazy_append p).
Proof. intros io b io' E. apply lazy_append_Ok in E as ->. apply R_refl. Qed.

Lemma preserves_get_object_at (path : string) : preserves R (_get_object_at path).
Proof. intros io b io' E. apply get_object_at_Ok in E as [_ ->]. apply R_refl. Qed.

Lemma preserves_get_mapped_object (k : map_key) : preserves R (_get_mapped_object k).
Proof.
  intros io b io' E. unfold _get_mapped_object in E.
  destruct (map_get _ _); [|done]. injection E as _ <-. apply R_refl.
Qed.

Lemma preserves_bind {A B} (m : M A) (k : A → M B) :
  preserves R m → (∀ a, preserves R (k a)) → preserves R (bind m k).
Proof.
  intros Hm Hk io b io' E. apply bind_Ok in E as (a & io1 & Ha & E).
  eapply R_trans; [by eapply Hm | by eapply Hk].
Qed.

Lemma preserves_for_each {A} (l : list A) (body : A → M unit) :
  (∀ x, preserves R (body x)) → preserves R (for_each l body).
Proof.
  intros Hb. induction l as [|x l IH]; simpl; [apply preserves_ret|].
  apply preserves_bind; [apply Hb | done].
Qed.

Lemma preserves_map_m {A B} (g : A → M B) (l : list A) :
  (∀ x, preserves R (g x)) → preserves R (map_m g l).
Proof.
  intros Hg. induction l as [|x l IH]; simpl; [apply preserves_ret|].
  apply preserves_bind; [apply Hg|]. intros y.
  apply preserves_bind; [done|]. intros ys. apply preserves_ret.
Qed.

Lemma preserves_get_mapped_objects (l : list map_key) : preserves R (_get_mapped_objects l).
Proof. apply preserves_map_m. intros k. apply preserves_get_mapped_object. Qed.

Lemma preserves_modify_file (g : File → File) :
  (∀ f, R f (g f)) → preserves R (modify_file g).
Proof. intros Hg io b io' E. apply modify_file_Ok in E as ->. apply Hg. Qed.

Lemma preserves_create (g : File → nat * File) :
  (∀ f, R f (snd (g f))) → preserves R (create g).
Proof. intros Hg io b io' E. apply create_Ok in E as [_ ->]. apply Hg. Qed.

Lemma preserves_to_value (v : pyval) : preserves R (to_value v).
Proof.
  unfold to_value. apply preserves_bind; [apply preserves_warn|].
  intros _. apply preserves_lift.
Qed.

Lemma preserves_block_path_of (p : string) : preserves R (block_path_of p).
Proof.
  unfold block_path_of. destruct (_ !! 1); [apply preserves_ret | apply preserves_raise].
Qed.

Lemma preserves_as_block (r : obj_ref) : preserves R (as_block r).
Proof. destruct r; first [apply preserves_ret | apply preserves_raise]. Qed.

End Preserving.

(** Lemmas on the methods already treated, found by their head. *)
Create HintDb preserved discriminated.

(** One step of a proof that a method maintains a relation; [prim]
    settles the primitive changes of the file. *)
Ltac pres_step refl trans prim :=
  lazymatch goal with
  | |- Frame.preserves _ (Neonix.ret _) => apply (preserves_ret _ refl)
  | |- Frame.preserves _ (Neonix.raise _) => apply preserves_raise
  | |- Frame.preserves _ (Neonix.lift _) => apply (preserves_lift _ refl)
  | |- Frame.preserves _ (Neonix.live _) => apply (preserves_live _ refl)
  | |- Frame.preserves _ Neonix.get_file => apply (preserves_get_file _ refl)
  | |- Frame.preserves _ (Neonix.map_set _ _) => apply (preserves_map_set _ refl)
  | |- Frame.preserves _ (Neonix.warn _) => apply (preserves_warn _ refl)
  | |- Frame.preserves _ (Neonix.lazy_append _) => apply (preserves_lazy_append _ refl)
  | |- Frame.preserves _ (Neonix._get_object_at _) => apply (preserves_get_object_at _ refl)
  | |- Frame.preserves _ (Neonix._get_mapped_objects _) =>
      apply (preserves_get_mapped_objects _ refl trans)
  | |- Frame.preserves _ (Neonix.to_value _) => apply (preserves_to_value _ refl trans)
  | |- Frame.preserves _ (Neonix.block_path_of _) => apply (preserves_block_path_of _ refl)
  | |- Frame.preserves _ (Neonix.as_block _) => apply (preserves_as_block _ refl)
  | |- Frame.preserves _ (Neonix.bind _ _) => apply (preserves_bind _ trans); [|intros ?]
  | |- Frame.preserves _ (Neonix.for_each _ _) =>
      apply (preserves_for_each _ refl trans); intros ?
  | |- Frame.preserves _ (Neonix.map_m _ _) => apply (preserves_map_m _ refl trans); intros ?
  | |- Frame.preserves _ (Neonix.modify_file _) => apply preserves_modify_file; intros ?; prim
  | |- Frame.preserves _ (Neonix.create _) => apply preserves_create; intros ?; prim
  | |- Frame.preserves _ (match ?x with _ => _ end) => destruct x
  | |- Frame.preserves _ _ => solve [auto 1 with preserved nocore]
  end.

(** ** The writer adds Blocks in [write_block] only *)

Section SameBlocks.
Import Py Neonix Frame.
Context `{Quantities}.

Lemma same_blocks_refl (f : File) : same_blocks f f.
Proof. done. Qed.

Lemma same_blocks_trans (f1 f2 f3 : File) :
  same_blocks f1 f2 → same_blocks f2 f3 → same_blocks f1 f3.
Proof. intros [? ?] [? ?]. split; congruence. Qed.

Lemma block_names_upd (g : NixBlock → NixBlock) (i : nat) (h : list NixBlock) :
  (∀ o, nb_name (g o) = nb_name o) → nb_name <$> upd g i h = nb_name <$> h.
Proof.
  intros Hg. unfold upd. revert i. induction h as [|o h IH]; intros [|i]; simpl; try done.
  - by rewrite Hg.
  - f_equal. apply IH.
Qed.

Ltac sb_prim :=
  unfold set_definition, set_metadata, force_created_at, create_property,
    create_section, create_source, create_data_array, create_multi_tag, create_group;
  repeat match goal with
         | |- context [match ?x with _ => _ end] => destruct x
         end;
  split; simpl; try done; by apply block_names_upd.

Ltac sb := repeat pres_step same_blocks_refl same_blocks_trans sb_prim.

Lemma same_blocks_get_or_init_metadata_depth (depth : nat) (obj : obj_ref) (path : string) :
  preserves same_blocks (get_or_init_metadata_depth depth obj path).
Proof.
  revert obj path. induction depth as [|depth IH]; intros obj path; simpl;
    [apply preserves_raise|]. sb.
Qed.
#[local] Hint Resolve same_blocks_get_or_init_metadata_depth : preserved.

Lemma same_blocks_get_or_init_metadata (obj : obj_ref) (path : string) :
  preserves same_blocks (_get_or_init_metadata obj path).
Proof. apply same_blocks_get_or_init_metadata_depth. Qed.
#[local] Hint Resolve same_blocks_get_or_init_metadata : preserved.

Lemma same_blocks_property (s : nat) (nm : string) (v : pyval) :
  preserves same_blocks (property s nm v).
Proof. unfold property. sb. Qed.
#[local] Hint Resolve same_blocks_property : preserved.

Lemma same_blocks_add_annotations (annots : list (string * pyval)) (s : nat) :
  preserves same_blocks (_add_annotations annots s).
Proof. unfold _add_annotations. sb. Qed.
#[local] Hint Resolve same_blocks_add_annotations : preserved.

Lemma same_blocks_write_attr_annotations (r : obj_ref) (attr : nix_attrs) (path : string) :
  preserves same_blocks (_write_attr_annotations r attr path).
Proof.
  unfold _write_attr_annotations. sb.
Qed.
#[local] Hint Resolve same_blocks_write_attr_annotations : preserved.

Lemma same_blocks_sources_append (t s : obj_ref) : preserves same_blocks (sources_append t s).
Proof. unfold sources_append, mt_update, da_update. sb. Qed.
#[local] Hint Resolve same_blocks_sources_append : preserved.

Lemma same_blocks_write_unit (ut : unit_) (path : string) :
  preserves same_blocks (write_unit ut path).
Proof.
  unfold write_unit. sb.
Qed.
#[local] Hint Resolve same_blocks_write_unit : preserved.

Lemma same_blocks_signal_section (k : neo_kind) (b : neo_base) (path : string) :
  preserves same_blocks (signal_section k b path).
Proof.
  unfold signal_section. sb.
Qed.
#[local] Hint Resolve same_blocks_signal_section : preserved.

Lemma same_blocks_write_analogsignal (x : analogsignal) (path : string) :
  preserves same_blocks (write_analogsignal x path).
Proof.
  unfold write_analogsignal, write_analogsignal_channel, group_append_data_array, da_update. sb.
Qed.
#[local] Hint Resolve same_blocks_write_analogsignal : preserved.

Lemma same_blocks_write_irregularlysampledsignal (x : irregularlysampledsignal) (path : string) :
  preserves same_blocks (write_irregularlysampledsignal x path).
Proof.
  unfold write_irregularlysampledsignal, write_irregularlysampledsignal_channel,
    group_append_data_array, da_update. sb.
Qed.
#[local] Hint Resolve same_blocks_write_irregularlysampledsignal : preserved.

Lemma same_blocks_tag_parents (k : neo_kind) (b : neo_base) (path : string) :
  preserves same_blocks (tag_parents k b path).
Proof. unfold tag_parents. sb. Qed.
#[local] Hint Resolve same_blocks_tag_parents : preserved.

Lemma same_blocks_write_epoch (x : epoch) (path : string) :
  preserves same_blocks (write_epoch x path).
Proof.
  unfold write_epoch, positions_labels, extend_references, group_append_multi_tag,
    da_update, mt_update. sb.
Qed.
#[local] Hint Resolve same_blocks_write_epoch : preserved.

Lemma same_blocks_write_event (x : event) (path : string) :
  preserves same_blocks (write_event x path).
Proof.
  unfold write_event, positions_labels, extend_references, group_append_multi_tag,
    da_update, mt_update. sb.
Qed.
#[local] Hint Resolve same_blocks_write_event : preserved.

Lemma same_blocks_write_waveforms (x : spiketrain) (b t : nat) (attr : nix_attrs) (path : string) :
  preserves same_blocks (write_waveforms x b t attr path).
Proof.
  unfold write_waveforms, da_update, mt_update. sb.
Qed.
#[local] Hint Resolve same_blocks_write_waveforms : preserved.

Lemma same_blocks_write_spiketrain (x : spiketrain) (path : string) :
  preserves same_blocks (write_spiketrain x path).
Proof.
  unfold write_spiketrain, group_append_multi_tag, da_update, mt_update. sb.
Qed.
#[local] Hint Resolve same_blocks_write_spiketrain : preserved.

Lemma same_blocks_write_segment (x : segment) (path : string) :
  preserves same_blocks (write_segment x path).
Proof.
  unfold write_segment. sb.
Qed.
#[local] Hint Resolve same_blocks_write_segment : preserved.

Lemma same_blocks_write_channel (rcg : recordingchannelgroup) (b s : nat) (attr : nix_attrs)
    (path : string) (idx : nat) (channel : Z) :
  preserves same_blocks (write_channel rcg b s attr path idx channel).
Proof.
  unfold write_channel. sb.
Qed.
#[local] Hint Resolve same_blocks_write_channel : preserved.

Lemma same_blocks_reference_signal (s : nat) (m : mapped) :
  preserves same_blocks (reference_signal s m).
Proof. unfold reference_signal. sb. Qed.
#[local] Hint Resolve same_blocks_reference_signal : preserved.

Lemma same_blocks_write_recordingchannelgroup (x : recordingchannelgroup) (path : string) :
  preserves same_blocks (write_recordingchannelgroup x path).
Proof.
  unfold write_recordingchannelgroup. sb.
Qed.
#[local] Hint Resolve same_blocks_write_recordingchannelgroup : preserved.


Lemma names_of_fmap {A} (nm : A → string) (h : list A) (ids : list nat) :
  names_of nm h ids = omap (λ i, (nm <$> h) !! i) ids.
Proof.
  unfold names_of. induction ids as [|i ids IH]; simpl; [done|].
  rewrite list_lookup_fmap. destruct (nm <$> h !! i); [f_equal|]; apply IH.
Qed.

Lemma block_names_same (f f' : File) : same_blocks f f' → block_names f' = block_names f.
Proof. intros [Hb Hn]. unfold block_names. by rewrite !names_of_fmap, Hb, Hn. Qed.

Lemma names_of_snoc_live {A} (nm : A → string) (h : list A) (ids : list nat) (x : A) :
  live_ids h ids → names_of nm (h ++ [x]) ids = names_of nm h ids.
Proof.
  unfold names_of. induction 1 as [|i ids Hi Hids IH]; simpl; [done|].
  rewrite lookup_app_l by done. destruct (nm <$> h !! i); [f_equal|]; apply IH.
Qed.

Lemma block_names_create_block (f : File) (nm ty : string) :
  live_ids (h_blocks f) (blocks f) →
  block_names (snd (create_block nm ty f)) = block_names f ++ [nm].
Proof.
  intros Hl. unfold block_names. simpl. rewrite names_of_app.
  rewrite names_of_snoc_live by done. f_equal.
  unfold names_of. simpl. by rewrite list_lookup_middle.
Qed.

Lemma write_block_block_list (neo_block : block) (io : NixIO) (i : nat) (io' : NixIO) :
  live_ids (h_blocks (nix_file io)) (blocks (nix_file io)) →
  write_block neo_block io = Ok (i, io') →
  live_ids (h_blocks (nix_file io')) (blocks (nix_file io')) ∧
  ∃ n, (n ∉ block_names (nix_file io)) ∧
       blocks (nix_file io') = blocks (nix_file io) ++ [i] ∧
       block_names (nix_file io') = block_names (nix_file io) ++ [n] ∧
       obj_name (nix_file io') (RBlock i) = Some n.
Proof.
  intros Hl E. unfold write_block in E.
  apply bind_Ok in E as (f & io0 & Hf & E). minv Hf.
  apply bind_Ok in E as (attr & io0 & Hattr & E). minv Hattr.
  apply bind_Ok in E as (b & io1 & Hb & E). minv Hb.
  pose proof E as Hi.
  repeat (apply bind_Ok in Hi as (? & ? & _ & Hi)). apply ret_Ok in Hi as [-> _].
  match type of E with
  | ?m ?st = Ok _ => assert (preserves same_blocks m) as Hk by sb; apply Hk in E
  end.
  cbn [nix_file with_file] in E.
  unfold _neo_attr_to_nix in Hattr.
  destruct (nix_name _ _ _) as [n|] eqn:En; [|done]. injection Hattr as <-. simpl in *.
  split.
  { destruct E as [-> Hn]. apply (f_equal length) in Hn.
    rewrite !length_fmap in Hn. simpl in Hn. rewrite length_app in Hn. simpl in Hn.
    unfold live_ids in *. apply Forall_app. split.
    - eapply Forall_impl; [exact Hl|]. simpl. intros; lia.
    - apply Forall_singleton. lia. }
  exists n. split_and!.
  - destruct (nix_name_total Block (name (blk_base neo_block))
                (names_of nb_name (h_blocks (nix_file io)) (blocks (nix_file io))))
      as (n' & En' & Hfree).
    change (no_kind (obj_of_block neo_block)) with Block in En.
    change (no_base (obj_of_block neo_block)) with (blk_base neo_block) in En.
    rewrite En in En'. injection En' as <-.
    change (suffix Block) with "" in Hfree. by rewrite str_app_nil_r in Hfree.
  - by destruct E as [-> _].
  - rewrite (block_names_same _ _ E).
    by apply (block_names_create_block (nix_file io)).
  - destruct E as [_ Hn]. apply (f_equal (λ l, l !! length (h_blocks (nix_file io)))) in Hn.
    rewrite !list_lookup_fmap in Hn. simpl in Hn. rewrite list_lookup_middle in Hn by done.
    done.
Qed.

(** [write_block] never reuses a Block and never touches the list of
    Blocks again once its own Block is made: when it returns, the file
    lists exactly one more Block, the returned one, under a name that
    no Block of the file had, and the names of the others are as they
    were. *)
Theorem write_block_adds_one_block (neo_block : block) (io : NixIO) (i : nat) (io' : NixIO) :
  live_ids (h_blocks (nix_file io)) (blocks (nix_file io)) →
  write_block neo_block io = Ok (i, io') →
  ∃ n, (n ∉ block_names (nix_file io)) ∧
       blocks (nix_file io') = blocks (nix_file io) ++ [i] ∧
       block_names (nix_file io') = block_names (nix_file io) ++ [n] ∧
       obj_name (nix_file io') (RBlock i) = Some n.
Proof. intros Hl E. by destruct (write_block_block_list _ _ _ _ Hl E) as [_ ?]. Qed.


End SameBlocks.

Section SameBlocksSample.
Import Py Neonix Frame.

Lemma write_block_adds_one_block_witness :
  let io := new_io (empty_file 0) in
  live_ids (h_blocks (nix_file io)) (blocks (nix_file io)) ∧
  ∃ i io', @write_block plain_units (bare_block "B") io = Ok (i, io') ∧
           blocks (nix_file io') = [i] ∧ block_names (nix_file io') = ["B"].
Proof.
  intros io.
  assert (live_ids (h_blocks (nix_file io)) (blocks (nix_file io))) as Hl by constructor.
  split; [exact Hl|].
  destruct (@write_block plain_units (bare_block "B") io) as [[i io']| |] eqn:E;
    [|by vm_compute in E..].
  exists i, io'. split; [done|].
  destruct (@write_block_adds_one_block plain_units _ _ _ _ Hl E) as (n & _ & Hb & Hn & Ho).
  split; [exact Hb|]. rewrite Hn. simpl. f_equal.
  vm_compute in E. injection E as <- <-. vm_compute in Ho. by injection Ho as <-.
Defined.


End SameBlocksSample.

(** ** What [write_metadata] stores *)

Section StoredMetadata.
Import Py Neo2nix Skeleton Stored.

(** One round of the loop on the properties of the Section. *)
Lemma find_store_property (k : string) (vs : list Value) (props : list Property) (k' : string) :
  find_by prop_name (store_property k vs props) k' =
  if String.eqb k k' then Some {| prop_name := k; prop_values := vs |}
  else find_by prop_name props k'.
Proof.
  unfold store_property.
  destruct (find_by prop_name props k) as [p|] eqn:E.
  - case_bool_decide as Hv.
    + destruct (String.eqb_spec k k') as [<-|Hne]; [|done].
      rewrite E. apply find_by_Some in E as [_ Hn]. destruct p; simpl in *. congruence.
    + destruct (String.eqb_spec k k') as [<-|Hne].
      * clear Hv. unfold find_by in *. induction props as [|q props IH]; simpl in *; [done|].
        destruct (String.eqb (prop_name q) k) eqn:Hq; simpl.
        -- by rewrite String.eqb_refl.
        -- rewrite Hq. by apply IH.
      * clear E. unfold find_by. induction props as [|q props IH]; simpl; [done|].
        destruct (String.eqb_spec (prop_name q) k) as [Hq|Hq]; simpl.
        -- subst k. apply String.eqb_neq in Hne. rewrite Hne.
           destruct (String.eqb_spec (prop_name q) k'); [congruence | done].
        -- destruct (String.eqb (prop_name q) k'); [done | apply IH].
  - unfold find_by in *. induction props as [|q props IH]; simpl in *.
    + by destruct (String.eqb k k').
    + destruct (String.eqb_spec (prop_name q) k) as [Hq|Hq]; [done|].
      destruct (String.eqb_spec (prop_name q) k') as [Hq'|Hq'].
      * apply not_eq_sym in Hq. subst k'. apply String.eqb_neq in Hq. by rewrite Hq.
      * by apply IH.
Qed.

Lemma stored_alter (io : NixIO) (d : File) (s : nat) (g : list Property → list Property)
    (s' : nat) (k : string) :
  disk io = Some d →
  stored {| disk := Some {| blocks := blocks d; sections := sections d;
                            h_sections :=
                              alter (λ x, {| sec_name := sec_name x; sec_type := sec_type x;
                                             sec_props := g (sec_props x);
                                             sec_sections := sec_sections x |})
                                    s (h_sections d) |};
            readonly := readonly io; f := f io; open_handles := open_handles io;
            opened := opened io |} s' k
  = if decide (s' = s)
    then sec ← h_sections d !! s; prop_values <$> find_by prop_name (g (sec_props sec)) k
    else stored io s' k.
Proof.
  intros Hd. unfold stored. rewrite Hd. simpl.
  destruct (decide (s' = s)) as [->|Hne].
  - rewrite list_lookup_alter_eq. by destruct (h_sections d !! s).
  - by rewrite list_lookup_alter_ne.
Qed.

Lemma write_metadata_returns (s : nat) (dict : list (string * meta)) (io : NixIO) :
  fst (write_metadata s dict io) = Ok tt ∧
  (is_Some (disk io) → is_Some (disk (snd (write_metadata s dict io)))).
Proof.
  unfold write_metadata. revert io. induction dict as [|[k v] dict IH]; intros io; simpl.
  - done.
  - unfold bind. destruct (truthy v); simpl.
    + match goal with |- context [for_each dict _ ?io1] => destruct (IH io1) as [E1 E2] end.
      split; [exact E1|]. intros [d Hd]. apply E2. simpl. rewrite Hd. by eexists.
    + apply IH.
Qed.

Lemma write_metadata_live (s : nat) (dict : list (string * meta)) (io : NixIO) (s' : nat) :
  is_Some (disk io ≫= λ d, h_sections d !! s') →
  is_Some (disk (snd (write_metadata s dict io)) ≫= λ d, h_sections d !! s').
Proof.
  unfold write_metadata. revert io. induction dict as [|[k v] dict IH]; intros io Hl; simpl.
  - done.
  - unfold bind. destruct (truthy v); simpl; [|by apply IH].
    apply IH. simpl. destruct (disk io) as [d|]; simpl in *; [|done].
    destruct (decide (s' = s)) as [->|Hne].
    + rewrite list_lookup_alter_eq. destruct Hl as [x ->]. by eexists.
    + by rewrite list_lookup_alter_ne.
Qed.

(** After [write_metadata], the Section holds, under every key whose
    value is truthy, that value as a list of values; a key whose value
    is falsy (zero, the empty string, [False], an empty list) is
    skipped, so that whatever the Section held under it stays; and so
    does every property the dictionary does not name.  Other Sections
    are not touched. *)
Theorem write_metadata_stores (s : nat) (dict : list (string * meta)) (io : NixIO)
    (s' : nat) (k : string) :
  NoDup (fst <$> dict) →
  is_Some (disk io ≫= λ d, h_sections d !! s) →
  stored (snd (write_metadata s dict io)) s' k =
  if decide (s' = s) then
    match dict_lookup dict k with
    | Some v => if truthy v then Some (values_of v) else stored io s k
    | None => stored io s k
    end
  else stored io s' k.
Proof.
  unfold write_metadata. revert io.
  induction dict as [|[k0 v0] dict IH]; intros io Hnd Hlive; simpl.
  - by destruct (decide (s' = s)) as [->|].
  - apply NoDup_cons in Hnd as [Hk0 Hnd]. unfold bind.
    destruct (disk io) as [d|] eqn:Hd; [|by destruct Hlive].
    simpl in Hlive. destruct Hlive as [sec Hsec].
    assert (dict_lookup ((k0, v0) :: dict) k =
            if String.eqb k0 k then Some v0 else dict_lookup dict k) as ->.
    { unfold dict_lookup. simpl. by destruct (String.eqb k0 k). }
    destruct (truthy v0) eqn:Hv0; simpl.
    + rewrite Hd. simpl. rewrite IH; [|done|].
      2:{ simpl. rewrite list_lookup_alter_eq, Hsec. by eexists. }
      destruct (decide (s' = s)) as [->|Hne].
      * destruct (String.eqb_spec k0 k) as [<-|Hk].
        -- assert (dict_lookup dict k0 = None) as ->.
           { unfold dict_lookup. destruct (List.find _ dict) as [[k1 v1]|] eqn:E; [|done].
             apply find_some in E as [Hin Hk1]. apply String.eqb_eq in Hk1. simpl in Hk1.
             subst k1. exfalso. apply Hk0. apply list_elem_of_fmap.
             exists (k0, v1). split; [done|]. by apply list_elem_of_In. }
           rewrite Hv0.
           rewrite (stored_alter io d s (store_property k0 (values_of v0)) s k0 Hd).
           rewrite decide_True by done. rewrite Hsec. simpl.
           by rewrite find_store_property, String.eqb_refl.
        -- assert (stored {| disk := Some {| blocks := blocks d; sections := sections d;
                      h_sections := alter _ s (h_sections d) |}; readonly := readonly io;
                      f := f io; open_handles := open_handles io; opened := opened io |} s k
                   = stored io s k) as ->; [|done].
           rewrite (stored_alter io d s (store_property k0 (values_of v0)) s k Hd).
           rewrite decide_True by done. rewrite Hsec. simpl.
           rewrite find_store_property. apply String.eqb_neq in Hk. rewrite Hk.
           unfold stored. rewrite Hd. simpl. by rewrite Hsec.
      * rewrite (stored_alter io d s (store_property k0 (values_of v0)) s' k Hd).
        by rewrite decide_False.
    + rewrite IH; [|done|by rewrite Hd; simpl; eexists].
      destruct (decide (s' = s)) as [->|Hne]; [|done].
      destruct (String.eqb_spec k0 k) as [<-|Hk]; [|done].
      assert (dict_lookup dict k0 = None) as ->; [|by rewrite Hv0].
      unfold dict_lookup. destruct (List.find _ dict) as [[k1 v1]|] eqn:E; [|done].
      apply find_some in E as [Hin Hk1]. apply String.eqb_eq in Hk1. simpl in Hk1.
      subst k1. exfalso. apply Hk0. apply list_elem_of_fmap.
      exists (k0, v1). split; [done|]. by apply list_elem_of_In.
Qed.


Lemma write_metadata_stores_witness :
  let dict := [("index", MOne (VInt 5)); ("t_start", MOne (VFloat 0))] in
  NoDup (fst <$> dict) ∧
  is_Some (disk one_section_io ≫= λ d, h_sections d !! 0) ∧
  stored (snd (write_metadata 0 dict one_section_io)) 0 "index" = Some [VInt 5] ∧
  stored (snd (write_metadata 0 dict one_section_io)) 0 "t_start" = None.
Proof.
  intros dict.
  assert (NoDup (fst <$> dict)) as Hnd.
  { apply (bool_decide_unpack _). by vm_compute. }
  assert (is_Some (disk one_section_io ≫= λ d, h_sections d !! 0)) as Hl by (by eexists).
  split; [exact Hnd|]. split; [exact Hl|].
  rewrite !(write_metadata_stores 0 dict one_section_io 0 _ Hnd Hl).
  split; by vm_compute.
Defined.

End StoredMetadata.

(** ** Observations a method leaves alone *)

Section KeepsOn.
Import Py Neo2nix Skeleton Stored.
Context {X : Type} (obs : NixIO → X).

Lemma keeps_on_ret {A} (a : A) : keeps_on obs (ret a).
Proof. done. Qed.

Lemma keeps_on_raise {A} (e : exn) : keeps_on obs (raise (A := A) e).
Proof. done. Qed.

Lemma keeps_on_bind {A B} (m : M A) (k : A → M B) :
  keeps_on obs m → (∀ a, keeps_on obs (k a)) → keeps_on obs (bind m k).
Proof.
  intros Hm Hk io. unfold bind. specialize (Hm io).
  destruct (m io) as [[a| |] io1]; simpl in *; [|done|done].
  by rewrite Hk.
Qed.

Lemma keeps_on_for_each {A} (l : list A) (body : A → M unit) :
  (∀ x, keeps_on obs (body x)) → keeps_on obs (for_each l body).
Proof.
  intros Hb. induction l as [|x l IH]; simpl; [apply keeps_on_ret|].
  apply keeps_on_bind; [apply Hb | done].
Qed.

Lemma keeps_on_map_m {A B} (g : A → M B) (l : list A) :
  (∀ x, keeps_on obs (g x)) → keeps_on obs (map_m g l).
Proof.
  intros Hg. induction l as [|x l IH]; simpl; [apply keeps_on_ret|].
  apply keeps_on_bind; [apply Hg|]. intros y.
  apply keeps_on_bind; [done|]. intros ys. apply keeps_on_ret.
Qed.

Lemma keeps_on_get_file : keeps_on obs get_file.
Proof. intros io. unfold get_file. by destruct (disk io). Qed.

Lemma keeps_on_get_block (bid : string) : keeps_on obs (get_block bid).
Proof.
  apply keeps_on_bind; [apply keeps_on_get_file|]. intros d.
  destruct (find_by nb_name (blocks d) bid); [apply keeps_on_ret | apply keeps_on_raise].
Qed.

End KeepsOn.

(** One step of a proof that a method keeps an observation; [prim]
    settles the changes of the file. *)
Ltac keeps_on_step prim :=
  lazymatch goal with
  | |- Stored.keeps_on _ (Neo2nix.ret _) => apply keeps_on_ret
  | |- Stored.keeps_on _ (Neo2nix.raise _) => apply keeps_on_raise
  | |- Stored.keeps_on _ Neo2nix.get_file => apply keeps_on_get_file
  | |- Stored.keeps_on _ (Neo2nix.get_block _) => apply keeps_on_get_block
  | |- Stored.keeps_on _ (Neo2nix.bind _ _) => apply keeps_on_bind; [|intros ?]
  | |- Stored.keeps_on _ (Neo2nix.for_each _ _) => apply keeps_on_for_each; intros ?
  | |- Stored.keeps_on _ (Neo2nix.map_m _ _) => apply keeps_on_map_m; intros ?
  | |- Stored.keeps_on _ (Neo2nix.modify_file _) => prim
  | |- Stored.keeps_on _ (Neo2nix.create _) => prim
  | |- Stored.keeps_on _ (match ?x with _ => _ end) => destruct x
  end.

(** ** File handles across a transaction *)

Section Handles.
Import Py Neo2nix Skeleton Stored.

Lemma keeps_handle_modify_file (g : File → File) : keeps_on handle_state (modify_file g).
Proof. done. Qed.

Lemma keeps_handle_create (g : File → nat * File) : keeps_on handle_state (create g).
Proof.
  intros io. unfold create. destruct (disk io) as [d|]; [|done]. by destruct (g d).
Qed.

Ltac handle_prim := first [apply keeps_handle_modify_file | apply keeps_handle_create].
Ltac handles := repeat keeps_on_step handle_prim.

Lemma keeps_handle_get_or_create_section (root : nat) (g n : string) :
  keeps_on handle_state (get_or_create_section root g n).
Proof. unfold get_or_create_section. handles. Qed.

Lemma keeps_handle_write_metadata (s : nat) (dict : list (string * meta)) :
  keeps_on handle_state (write_metadata s dict).
Proof. unfold write_metadata. handles. Qed.

Lemma keeps_handle_write_analogsignal (bid tid : string) (sig : analogsignal) :
  keeps_on handle_state (_write_analogsignal bid tid sig).
Proof.
  unfold _write_analogsignal. handles;
    first [apply keeps_handle_get_or_create_section | apply keeps_handle_write_metadata].
Qed.

Lemma keeps_handle_write_segment (bid : string) (seg : segment) (rec : bool) :
  keeps_on handle_state (_write_segment bid seg rec).
Proof.
  unfold _write_segment. handles;
    first [apply keeps_handle_get_or_create_section | apply keeps_handle_write_metadata
          | apply keeps_handle_write_analogsignal].
Qed.

Lemma keeps_handle_write_block (blk : block) (rec : bool) :
  keeps_on handle_state (_write_block blk rec).
Proof.
  unfold _write_block. handles;
    first [apply keeps_handle_write_metadata | apply keeps_handle_write_segment].
Qed.

Lemma keeps_handle_read_block (bid : string) : keeps_on handle_state (_read_block bid).
Proof. unfold _read_block. handles. Qed.

Lemma filter_out_last (l : list nat) (h : nat) :
  Forall (λ x, x < h) l → List.filter (λ x, negb (x =? h)) (l ++ [h]) = l.
Proof.
  induction 1 as [|x l Hx Hl IH]; simpl.
  - by rewrite Nat.eqb_refl.
  - assert ((x =? h) = false) as -> by (apply Nat.eqb_neq; lia). simpl. by rewrite IH.
Qed.

(** A transaction around a method that leaves the handle alone closes
    the handle when the method returns and leaves it open when the
    method raises. *)
Lemma file_transaction_handle {A} (method : M A) (io : NixIO) :
  keeps_on handle_state method → handles_numbered io →
  handle_after io (file_transaction method io).
Proof.
  intros Hk Hn. unfold handle_after, file_transaction, bind. simpl.
  match goal with |- context [method ?io1] => specialize (Hk io1) end.
  destruct (method _) as [[a| |] io2]; simpl in *.
  - unfold handle_state in Hk. simpl in Hk. injection Hk as Hf Ho _ _.
    unfold close_f. rewrite Hf. simpl. rewrite Ho. by apply filter_out_last.
  - unfold handle_state in Hk. simpl in Hk. by injection Hk as _ -> _ _.
  - unfold handle_state in Hk. simpl in Hk. by injection Hk as _ -> _ _.
Qed.

(** The three public methods close the handle they open exactly when
    they return: after a call that raised, the handle opened for it is
    still among the open ones. *)
Theorem public_methods_handle (io : NixIO) :
  handles_numbered io →
  (∀ bid, handle_after io (read_block bid io)) ∧
  (∀ blk rec, handle_after io (write_block blk rec io)) ∧
  handle_after io (read_all_blocks io).
Proof.
  intros Hn. split_and!.
  - intros bid. apply file_transaction_handle; [apply keeps_handle_read_block | done].
  - intros blk rec. apply file_transaction_handle; [|done].
    apply keeps_on_bind; [apply keeps_handle_write_block|]. intros _. apply keeps_on_ret.
  - apply file_transaction_handle; [|done].
    apply keeps_on_bind; [apply keeps_on_get_file|]. intros d.
    apply keeps_on_map_m. intros b. apply keeps_handle_read_block.
Qed.

Lemma public_methods_handle_witness :
  handles_numbered fresh_io ∧
  open_handles (snd (write_block (block_of "B" ["a"]) true fresh_io)) = [] ∧
  open_handles (snd (read_block "nope" fresh_io)) = [0].
Proof.
  assert (handles_numbered fresh_io) as Hn by constructor.
  split; [exact Hn|].
  destruct (public_methods_handle fresh_io Hn) as (Hr & Hw & _).
  split.
  - specialize (Hw (block_of "B" ["a"]) true). unfold handle_after in Hw.
    destruct (fst (write_block (block_of "B" ["a"]) true fresh_io)) eqn:E;
      [exact Hw | by vm_compute in E..].
  - specialize (Hr "nope"). unfold handle_after in Hr.
    destruct (fst (read_block "nope" fresh_io)) eqn:E;
      [by vm_compute in E | exact Hr | by vm_compute in E].
Defined.

End Handles.

(** ** Writing a Block and reading it back ([neo2nix]) *)

Section BlockRoundTrip.
Import Py Neo2nix Skeleton Stored.

Ltac step H a io1 Ha :=
  apply bind_returns in H as (a & io1 & Ha & H).

Lemma pointers_update_block (bid : string) (g : NixBlock → NixBlock) (d : File) :
  (∀ b, nb_name (g b) = nb_name b ∧ nb_metadata (g b) = nb_metadata b) →
  (λ b, (nb_name b, nb_metadata b)) <$> blocks (update_block bid g d)
  = (λ b, (nb_name b, nb_metadata b)) <$> blocks d.
Proof.
  intros Hg. unfold update_block. simpl.
  induction (blocks d) as [|b l IH]; simpl; [done|].
  destruct (String.eqb (nb_name b) bid); simpl.
  - destruct (Hg b) as [-> ->]. done.
  - f_equal. apply IH.
Qed.

Lemma keeps_pointers_modify (g : File → File) :
  (∀ d, (λ b, (nb_name b, nb_metadata b)) <$> blocks (g d)
        = (λ b, (nb_name b, nb_metadata b)) <$> blocks d) →
  keeps_on block_pointers (modify_file g).
Proof.
  intros Hg io. unfold block_pointers, modify_file. simpl.
  destruct (disk io); simpl; [by rewrite Hg | done].
Qed.

Lemma keeps_sections_modify (g : File → File) :
  (∀ d, h_sections (g d) = h_sections d) → keeps_on all_sections (modify_file g).
Proof.
  intros Hg io. unfold all_sections, modify_file. simpl.
  destruct (disk io); simpl; [by rewrite Hg | done].
Qed.

Lemma keeps_pointers_write_metadata (s : nat) (dict : list (string * meta)) :
  keeps_on block_pointers (write_metadata s dict).
Proof.
  unfold write_metadata. apply keeps_on_for_each. intros kv.
  destruct (truthy (snd kv)); [|apply keeps_on_ret]. by apply keeps_pointers_modify.
Qed.

(** The loop that deletes stale Tags. *)
Lemma keeps_pointers_delete_tags (bid : string) (l : list string) :
  keeps_on block_pointers (for_each l (λ n,
    bind (get_block bid) (λ b,
      match find_by tag_name (nb_tags b) n with
      | Some _ =>
          modify_file (update_block bid (λ b,
            nb_with b (delete_by tag_name n (nb_tags b)) (nb_data_arrays b) (nb_metadata b)))
      | None => raise KeyError
      end))).
Proof.
  repeat keeps_on_step idtac. apply keeps_pointers_modify. intros d.
  by apply pointers_update_block.
Qed.

Lemma keeps_sections_delete_tags (bid : string) (l : list string) :
  keeps_on all_sections (for_each l (λ n,
    bind (get_block bid) (λ b,
      match find_by tag_name (nb_tags b) n with
      | Some _ =>
          modify_file (update_block bid (λ b,
            nb_with b (delete_by tag_name n (nb_tags b)) (nb_data_arrays b) (nb_metadata b)))
      | None => raise KeyError
      end))).
Proof. repeat keeps_on_step idtac. by apply keeps_sections_modify. Qed.

Lemma dict_set_keys {V} (k : string) (v : V) (d : list (string * V)) :
  NoDup (fst <$> d) →
  NoDup (fst <$> dict_set k v d) ∧ ∀ x, x ∈ fst <$> dict_set k v d ↔ x ∈ fst <$> d ∨ x = k.
Proof.
  induction d as [|[k' v'] d IH]; simpl; intros Hnd.
  - split; [apply NoDup_singleton|]. intros x. rewrite list_elem_of_singleton, elem_of_nil.
    naive_solver.
  - apply NoDup_cons in Hnd as [Hk' Hnd]. destruct (IH Hnd) as [IH1 IH2].
    destruct (String.eqb_spec k' k) as [->|Hne]; simpl.
    + split; [by apply NoDup_cons|]. intros x. rewrite elem_of_cons. naive_solver.
    + split.
      * apply NoDup_cons. split; [|done]. rewrite IH2. naive_solver.
      * intros x. rewrite !elem_of_cons, IH2. naive_solver.
Qed.

Lemma metadata_dict_keys (b : neo_base) (attrs : list string) :
  NoDup (fst <$> annotations b) → NoDup (fst <$> metadata_dict b attrs).
Proof.
  unfold metadata_dict. generalize (annotations b). induction attrs as [|a attrs IH];
    intros d Hd; simpl; [done|].
  apply IH. destruct (attr b a); [by apply dict_set_keys | done].
Qed.


Lemma find_pointer (d : File) (bid : string) :
  find_by fst ((λ b, (nb_name b, nb_metadata b)) <$> blocks d) bid
  = (λ b, (nb_name b, nb_metadata b)) <$> find_by nb_name (blocks d) bid.
Proof. by apply (find_by_fmap nb_name fst). Qed.

Lemma find_by_updated {A} (nm : A → string) (l : list A) (key : string) (g : A → A) (x : A) :
  find_by nm l key = Some x → nm (g x) = key →
  find_by nm (update_by nm key g l) key = Some (g x).
Proof.
  unfold find_by. induction l as [|y l IH]; simpl; [done|].
  destruct (String.eqb (nm y) key) eqn:E; simpl.
  - intros [= ->] Hg. apply String.eqb_eq in Hg. by rewrite Hg.
  - intros Hx Hg. rewrite E. by apply IH.
Qed.

Lemma find_section_live (d : File) (ids : list nat) (key : string) (s : nat) :
  find_section d ids key = Some s → is_Some (h_sections d !! s).
Proof.
  unfold find_section. intros E. apply find_some in E as [_ E].
  destruct (h_sections d !! s); [by eexists | done].
Qed.




End BlockRoundTrip.

(** ** Reading leaves the file alone *)

Section Readers.
Import Py Neonix Frame.

Lemma file_eq_refl (f : File) : f = f.
Proof. done. Qed.

Lemma file_eq_trans (f1 f2 f3 : File) : f1 = f2 → f2 = f3 → f1 = f3.
Proof. congruence. Qed.

Ltac rd := repeat pres_step file_eq_refl file_eq_trans fail.

Lemma reads_nix_attr_to_neo (r : obj_ref) : preserves eq (nix_attr_to_neo r).
Proof. unfold nix_attr_to_neo. rd. Qed.
#[local] Hint Resolve reads_nix_attr_to_neo : preserved.

Lemma reads_dict_get (d : gmap string attr_val) (k : string) : preserves eq (dict_get d k).
Proof. unfold dict_get. rd. Qed.
#[local] Hint Resolve reads_dict_get : preserved.

Lemma reads_block_to_neo (r : obj_ref) : preserves eq (_block_to_neo r).
Proof. unfold _block_to_neo. rd. Qed.
#[local] Hint Resolve reads_block_to_neo : preserved.

Lemma reads_group_to_neo (r : obj_ref) : preserves eq (_group_to_neo r).
Proof. unfold _group_to_neo. rd. Qed.
#[local] Hint Resolve reads_group_to_neo : preserved.

Lemma reads_source_unit_to_neo (r : obj_ref) : preserves eq (_source_unit_to_neo r).
Proof. unfold _source_unit_to_neo. rd. Qed.
#[local] Hint Resolve reads_source_unit_to_neo : preserved.

Lemma reads_source_rcg_to_neo (r : obj_ref) : preserves eq (_source_rcg_to_neo r).
Proof. unfold _source_rcg_to_neo. rd. Qed.
#[local] Hint Resolve reads_source_rcg_to_neo : preserved.

Lemma reads_signal_da_to_neo (g : list nat) (lazy : bool) :
  preserves eq (_signal_da_to_neo g lazy).
Proof. unfold _signal_da_to_neo. rd. Qed.
#[local] Hint Resolve reads_signal_da_to_neo : preserved.

Lemma reads_check_metadata (f : File) (s : option nat) (das : list nat) :
  preserves eq (check_metadata f s das).
Proof. unfold check_metadata. rd. Qed.
#[local] Hint Resolve reads_check_metadata : preserved.

Lemma reads_array_quantity (f : File) (d : nat) (lazy : bool) :
  preserves eq (array_quantity f d lazy).
Proof. unfold array_quantity. rd. Qed.
#[local] Hint Resolve reads_array_quantity : preserved.

Lemma reads_positions_dim_labels (f : File) (d : nat) :
  preserves eq (positions_dim_labels f d).
Proof. unfold positions_dim_labels. rd. Qed.
#[local] Hint Resolve reads_positions_dim_labels : preserved.

Lemma reads_mtag_eest_to_neo (t : nat) (lazy : bool) :
  preserves eq (_mtag_eest_to_neo t lazy).
Proof. unfold _mtag_eest_to_neo. rd. Qed.
#[local] Hint Resolve reads_mtag_eest_to_neo : preserved.


End Readers.

(** ** Paths outside the grammar *)

Section OddPaths.
Import Py Neonix Frame.

Lemma split_parts_free (c : ascii) (s : string) :
  Forall (λ w, c ∉ list_ascii_of_string w) (split c s).
Proof.
  induction s as [|a s IH]; simpl.
  - constructor; [apply not_elem_of_nil | constructor].
  - destruct (Ascii.eqb_spec a c) as [->|Hne].
    + constructor; [apply not_elem_of_nil | done].
    + destruct (split c s) as [|w ws]; simpl.
      * constructor; [|constructor]. simpl. rewrite not_elem_of_cons.
        split; [congruence | apply not_elem_of_nil].
      * apply Forall_cons in IH as [Hw Hws]. constructor; [|done].
        simpl. rewrite not_elem_of_cons. split; [congruence | done].
Qed.

Lemma split_app_front (c : ascii) (x t : string) :
  c ∉ list_ascii_of_string x → split c (x +:+ String c t) = x :: split c t.
Proof.
  induction x as [|a x IH]; intros Hx.
  - rewrite str_app_nil_l. apply split_head_sep.
  - simpl in Hx. apply not_elem_of_cons in Hx as [Hne Hx].
    rewrite str_app_cons. simpl. rewrite IH by done.
    destruct (Ascii.eqb_spec a c); [congruence | done].
Qed.

Lemma split_join (c : ascii) (l : list string) :
  l ≠ [] → Forall (λ w, c ∉ list_ascii_of_string w) l →
  split c (join (String c "") l) = l.
Proof.
  induction l as [|x l IH]; [done|]. intros _ Hl.
  apply Forall_cons in Hl as [Hx Hl]. destruct l as [|y l].
  - simpl. by apply split_no_sep.
  - change (join (String c "") (x :: y :: l))
      with (x +:+ String c "" +:+ join (String c "") (y :: l)).
    change (String c "" +:+ join (String c "") (y :: l))
      with (String c (join (String c "") (y :: l))).
    rewrite split_app_front by done. f_equal. by apply IH.
Qed.

(** The parent path of a path with an odd number of parts has an odd
    number of parts again. *)
Lemma parent_path_odd (path : string) :
  Nat.odd (length (split "/" path)) = true →
  Nat.odd (length (split "/" (join "/" (drop_last 2 (split "/" path))))) = true.
Proof.
  intros Hodd. pose proof (split_parts_free "/" path) as Hfree.
  destruct (split "/" path) as [|w [|w' l]] eqn:E; [done| |].
  - done.
  - unfold drop_last. simpl length. replace (S (S (length l)) - 2) with (length l) by lia.
    destruct l as [|w'' l]; [done|].
    rewrite split_join.
    + rewrite length_take. simpl in *. rewrite Nat.min_l by lia.
      rewrite <- Hodd. by rewrite Nat.odd_succ_succ.
    + simpl. done.
    + by apply Forall_take.
Qed.

(** A path with an odd number of parts is never resolved: whatever the
    file holds, the recursion of [_get_object_at] does not reach its
    base case and the call ends in [RecursionError], not in a
    not-found error and not in the [ValueError] the method builds. *)
Theorem odd_paths_recurse_forever (f : File) (path : string) :
  Nat.odd (length (split "/" path)) = true →
  _get_object_at_file f path = Raise RecursionError.
Proof.
  unfold _get_object_at_file. generalize (recursion_limit path) as d. intros d.
  revert path. induction d as [|d IH]; intros path Hodd; [done|].
  cbn [get_object_at_depth].
  assert ((length (split "/" path) =? 2) = false) as ->.
  { apply Nat.eqb_neq. intros E. by rewrite E in Hodd. }
  by rewrite IH by (by apply parent_path_odd).
Qed.

Lemma odd_paths_recurse_forever_witness :
  Nat.odd (length (split "/" "/b/segments")) = true ∧
  _get_object_at_file one_segment_file "/b/segments" = Raise RecursionError.
Proof.
  assert (Nat.odd (length (split "/" "/b/segments")) = true) as H by (by vm_compute).
  split; [exact H|]. exact (odd_paths_recurse_forever one_segment_file _ H).
Defined.

End OddPaths.

(** ** The metadata Section of an object: [_get_or_init_metadata] *)

Section MetadataOnce.
Import Py Neonix Frame.

Lemma get_or_init_metadata_present (obj : obj_ref) (path : string) (io : NixIO) (s : nat) :
  obj_metadata (nix_file io) obj = Some (Some s) →
  _get_or_init_metadata obj path io = Ok (s, io).
Proof.
  intros E. unfold _get_or_init_metadata, recursion_limit. cbn [get_or_init_metadata_depth].
  unfold bind, get_file. rewrite E. done.
Qed.

(** [_get_or_init_metadata] gives every object one metadata Section.
    When it returns on a well-formed file, the object points to the
    Section returned, and asking again, under any path, returns the
    same Section and changes nothing.  An object that had a Section
    keeps it and the call changes nothing; an object that had none
    gets a Section that did not exist and holds no property.  The
    properties of the Sections that existed are as they were. *)
Theorem get_or_init_metadata_once (obj : obj_ref) (path : string) (io : NixIO)
    (s : nat) (io1 : NixIO) :
  wf (nix_file io) →
  _get_or_init_metadata obj path io = Ok (s, io1) →
  obj_metadata (nix_file io1) obj = Some (Some s) ∧
  (∀ path', _get_or_init_metadata obj path' io1 = Ok (s, io1)) ∧
  (∀ s0, obj_metadata (nix_file io) obj = Some (Some s0) → s = s0 ∧ io1 = io) ∧
  (obj_metadata (nix_file io) obj = Some None →
     h_sections (nix_file io) !! s = None ∧
     sec_props <$> h_sections (nix_file io1) !! s = Some []) ∧
  (∀ i sec, h_sections (nix_file io) !! i = Some sec →
     sec_props <$> h_sections (nix_file io1) !! i = Some (sec_props sec)).
Proof.
  intros Hwf E. apply get_or_init_metadata_depth_spec in E; [|done].
  destruct E as (Hext & _ & _ & Hmd & Hsome & Hnone). split_and!.
  - done.
  - intros path'. by apply get_or_init_metadata_present.
  - done.
  - intros E. destruct (Hnone E) as (Hlen & Hprops & _). split; [|done].
    by apply lookup_ge_None.
  - intros i sec Hi. destruct Hext as (_&_&_&_&_&_&_&Hsec&_).
    destruct (Hsec i sec Hi) as (sec' & -> & _ & _ & Hp & _). simpl. by rewrite Hp.
Qed.

Lemma wf_one_segment_file : wf one_segment_file.
Proof. apply wf_create_group, wf_create_block, wf_empty. Qed.

Lemma get_or_init_metadata_once_witness :
  let io := new_io one_segment_file in
  wf (nix_file io) ∧
  ∃ s io1, _get_or_init_metadata (RGroup 0) "/b/segments/s" io = Ok (s, io1) ∧
           obj_metadata (nix_file io1) (RGroup 0) = Some (Some s) ∧
           _get_or_init_metadata (RGroup 0) "/b/segments/s" io1 = Ok (s, io1).
Proof.
  intros io. split; [exact wf_one_segment_file|].
  destruct (_get_or_init_metadata (RGroup 0) "/b/segments/s" io) as [[s io1]| |] eqn:E;
    [|by vm_compute in E..].
  exists s, io1. split; [done|].
  destruct (get_or_init_metadata_once (RGroup 0) _ io s io1 wf_one_segment_file E)
    as (H1 & H2 & _).
  split; [exact H1 | exact (H2 _)].
Defined.

End MetadataOnce.

(** ** The arrays of a signal *)

Section SignalArrays.
Import Py Neonix Frame.
Context `{Quantities}.

Lemma arrays_kept_refl (f : File) : arrays_kept f f.
Proof. by split. Qed.

Lemma arrays_kept_trans (f1 f2 f3 : File) :
  arrays_kept f1 f2 → arrays_kept f2 f3 → arrays_kept f1 f3.
Proof. intros [? ?] [? ?]. split; [congruence | lia]. Qed.

Ltac ak_prim :=
  unfold set_definition, set_metadata, force_created_at, create_property, create_section;
  repeat match goal with
         | |- context [match ?x with _ => _ end] => destruct x
         end;
  split; simpl; unfold upd; rewrite ?length_alter, ?length_app; simpl; lia.

Ltac ak := repeat pres_step arrays_kept_refl arrays_kept_trans ak_prim.

Lemma arrays_kept_get_or_init_metadata_depth (depth : nat) (obj : obj_ref) (path : string) :
  preserves arrays_kept (get_or_init_metadata_depth depth obj path).
Proof.
  revert obj path. induction depth as [|depth IH]; intros obj path; simpl;
    [apply preserves_raise|]. ak.
Qed.
#[local] Hint Resolve arrays_kept_get_or_init_metadata_depth : preserved.

Lemma arrays_kept_property (s : nat) (nm : string) (v : pyval) :
  preserves arrays_kept (property s nm v).
Proof. unfold property. ak. Qed.
#[local] Hint Resolve arrays_kept_property : preserved.

Lemma arrays_kept_add_annotations (annots : list (string * pyval)) (s : nat) :
  preserves arrays_kept (_add_annotations annots s).
Proof. unfold _add_annotations. ak. Qed.
#[local] Hint Resolve arrays_kept_add_annotations : preserved.

(** The opening of a signal writer makes no DataArray and returns a
    live Section. *)
Lemma signal_section_spec (k : neo_kind) (b : neo_base) (path : string) (io : NixIO)
    (pg : obj_ref) (pb : nat) (attr : nix_attrs) (s : nat) (io1 : NixIO) :
  signal_section k b path io = Ok (pg, pb, attr, s, io1) →
  length (h_data_arrays (nix_file io1)) = length (h_data_arrays (nix_file io)) ∧
  s < length (h_sections (nix_file io1)) ∧
  length (h_sections (nix_file io)) ≤ s ∧
  a_type attr = "neo." +:+ lower (type_name k).
Proof.
  intros E. unfold signal_section in E.
  apply bind_Ok in E as (pg' & io0 & Hpg & E).
  apply (preserves_get_object_at _ arrays_kept_refl) in Hpg as K0.
  apply bind_Ok in E as (bp & io2 & Hbp & E).
  apply (preserves_block_path_of _ arrays_kept_refl) in Hbp as K1.
  apply bind_Ok in E as (pbo & io3 & Hpbo & E).
  apply (preserves_get_object_at _ arrays_kept_refl) in Hpbo as K2.
  apply bind_Ok in E as (pm & io4 & Hpm & E).
  apply arrays_kept_get_or_init_metadata_depth in Hpm as K3.
  apply bind_Ok in E as (f & io5 & Hf & E). minv Hf.
  apply bind_Ok in E as (sibs & io5 & Hsibs & E). minv Hsibs.
  apply bind_Ok in E as (attr' & io5 & Hattr & E). minv Hattr.
  apply bind_Ok in E as (s' & io5 & Hs & E). minv Hs.
  apply bind_Ok in E as (u1 & io5 & Hu1 & E).
  assert (arrays_kept (nix_file (with_file io4 (snd (create_section (Some pm) (a_name attr')
            (a_type attr' +:+ ".metadata") (nix_file io4))))) (nix_file io5)) as K4.
  { revert Hu1. match goal with |- ?m ?st = _ → _ =>
      assert (preserves arrays_kept m) as Hk by ak; apply Hk end. }
  apply bind_Ok in E as (u2 & io6 & Hu2 & E).
  assert (arrays_kept (nix_file io5) (nix_file io6)) as K5.
  { revert Hu2. match goal with |- ?m ?st = _ → _ =>
      assert (preserves arrays_kept m) as Hk by ak; apply Hk end. }
  apply bind_Ok in E as (pb' & io7 & Hpb & E).
  apply (preserves_as_block _ arrays_kept_refl) in Hpb as K6.
  apply ret_Ok in E as [[= -> -> -> ->] ->].
  cbn [nix_file with_file] in *.
  destruct K0 as [A0 S0], K1 as [A1 S1], K2 as [A2 S2], K3 as [A3 S3], K4 as [A4 S4],
    K5 as [A5 S5], K6 as [A6 S6].
  assert (length (h_sections (snd (create_section (Some pm) (a_name attr')
            (a_type attr' +:+ ".metadata") (nix_file io4))))
          = S (length (h_sections (nix_file io4)))) as Hlen.
  { simpl. unfold upd. rewrite length_alter, length_app. simpl. lia. }
  assert (length (h_data_arrays (snd (create_section (Some pm) (a_name attr')
            (a_type attr' +:+ ".metadata") (nix_file io4))))
          = length (h_data_arrays (nix_file io4))) as Hlen' by done.
  simpl fst. split_and!; try lia.
  unfold _neo_attr_to_nix in Hattr. destruct (nix_name _ _ _); [|done].
  by injection Hattr as <-.
Qed.

Lemma alter_last {A} (g : A → A) (h : list A) (x : A) :
  alter g (length h) (h ++ [x]) = h ++ [g x].
Proof. induction h as [|y h IH]; simpl; [done | by rewrite <- IH]. Qed.

(** One round of the channel loop. *)
Lemma write_analogsignal_channel_spec (pb : nat) (pg : obj_ref) (attr : nix_attrs)
    (du tu : option string) (si off : Q) (s idx : nat) (sig : list Q)
    (io : NixIO) (d : nat) (io' : NixIO) :
  write_analogsignal_channel pb pg attr du tu si off s idx sig io = Ok (d, io') →
  d = length (h_data_arrays (nix_file io)) ∧
  h_data_arrays (nix_file io') =
    h_data_arrays (nix_file io) ++ [channel_array attr du tu si off s idx sig] ∧
  h_sections (nix_file io') = h_sections (nix_file io).
Proof.
  intros E. unfold write_analogsignal_channel, da_update, group_append_data_array in E.
  apply bind_Ok in E as (d' & io1 & Hd & E). minv Hd.
  apply bind_Ok in E as (u1 & io1 & Hu & E). minv Hu.
  apply bind_Ok in E as (u2 & io1 & Hu & E). minv Hu.
  apply bind_Ok in E as (u3 & io1 & Hu & E). minv Hu.
  apply bind_Ok in E as (u4 & io1 & Hu & E). minv Hu.
  apply bind_Ok in E as (u5 & io1 & Hu & E).
  destruct pg as [|g| | |]; try done. minv Hu.
  apply bind_Ok in E as (u6 & io1 & Hu & E). minv Hu.
  apply ret_Ok in E as [-> ->].
  cbn [nix_file with_file]. simpl. split_and!; [done| |done].
  unfold upd. by rewrite !alter_last.
Qed.

Lemma write_channels_spec (pb : nat) (pg : obj_ref) (attr : nix_attrs)
    (du tu : option string) (si off : Q) (s : nat) (l : list (nat * list Q))
    (io : NixIO) (ds : list nat) (io' : NixIO) :
  map_m (λ p, write_analogsignal_channel pb pg attr du tu si off s (fst p) (snd p)) l io
    = Ok (ds, io') →
  ds = seq (length (h_data_arrays (nix_file io))) (length l) ∧
  h_data_arrays (nix_file io') =
    h_data_arrays (nix_file io)
    ++ ((λ p, channel_array attr du tu si off s (fst p) (snd p)) <$> l) ∧
  h_sections (nix_file io') = h_sections (nix_file io).
Proof.
  revert io ds io'. induction l as [|p l IH]; intros io ds io' E; simpl in E.
  - apply ret_Ok in E as [-> ->]. by rewrite app_nil_r.
  - apply bind_Ok in E as (d & io1 & Hd & E).
    apply write_analogsignal_channel_spec in Hd as (-> & Hh & Hs).
    apply bind_Ok in E as (ds' & io2 & Hds & E).
    apply IH in Hds as (-> & Hh' & Hs'). apply ret_Ok in E as [-> ->].
    rewrite Hh', Hs', Hh, Hs, length_app. simpl. split_and!; [|by rewrite <- app_assoc|done].
    f_equal. f_equal. lia.
Qed.


End SignalArrays.

Section SignalArraysSample.
Import Py Neonix Frame.


End SignalArraysSample.

(** ** Reading a signal checks the metadata of its arrays *)

Section SignalMetadata.
Import Py Neonix Frame.

Lemma collect_signal_arrays_live (fuel : nat) (f : File) (ids : list nat) (name : string)
    (idx : nat) (ds : list nat) :
  collect_signal_arrays fuel f ids name idx = Ok ds →
  Forall (λ d, is_Some (h_data_arrays f !! d)) ds.
Proof.
  revert idx ds. induction fuel as [|fuel IH]; intros idx ds E; simpl in E; [done|].
  destruct (find_name da_name (h_data_arrays f) ids _) as [d|] eqn:Ed.
  - destruct (collect_signal_arrays fuel f ids name (S idx)) as [l| |] eqn:El; [|done|done].
    injection E as <-. constructor; [|by eapply IH].
    apply find_name_Some in Ed as (k & _ & Hn & _).
    destruct (h_data_arrays f !! d); [by eexists | done].
  - injection E as <-. constructor.
Qed.

Lemma check_metadata_returns (f : File) (s : option nat) (ds : list nat) (io : NixIO)
    (u : unit) (io' : NixIO) :
  check_metadata f s ds io = Ok (u, io') →
  io' = io ∧ Forall (λ d, array_metadata f d = Some s) ds.
Proof.
  unfold check_metadata. revert io. induction ds as [|d ds IH]; intros io E; simpl in E.
  - apply ret_Ok in E as [_ ->]. by split.
  - apply bind_Ok in E as (x & io1 & Hx & E).
    apply bind_Ok in Hx as (a & io2 & Ha & Hx). apply live_Ok in Ha as [Ha Hio2].
    case_bool_decide as Hmd; [|done]. apply ret_Ok in Hx as [_ Hio1].
    apply IH in E as [-> Hds]. split; [congruence|]. constructor; [|done].
    unfold array_metadata. rewrite Ha. simpl. by rewrite Hmd.
Qed.

Lemma check_metadata_raises (f : File) (s : option nat) (ds : list nat) (io : NixIO) :
  Forall (λ d, is_Some (h_data_arrays f !! d)) ds →
  Exists (λ d, array_metadata f d ≠ Some s) ds →
  check_metadata f s ds io = Raise AssertionError.
Proof.
  unfold check_metadata. intros Hlive Hex.
  induction ds as [|d ds IH]; [by apply Exists_nil in Hex|].
  apply Forall_cons in Hlive as [[a Ha] Hlive]. simpl.
  unfold bind at 1. unfold bind at 1. rewrite Ha. simpl.
  case_bool_decide as Hmd.
  - simpl. apply IH; [done|]. apply Exists_cons in Hex as [Hd|Hex]; [|done].
    exfalso. apply Hd. unfold array_metadata. rewrite Ha. simpl. by rewrite Hmd.
  - done.
Qed.

Lemma bind_run {A B} (m : M A) (k : A → M B) (io : NixIO) (a : A) (io1 : NixIO) :
  m io = Ok (a, io1) → bind m k io = k a io1.
Proof. intros E. unfold bind. by rewrite E. Qed.


End SignalMetadata.

Section SignalMetadataSample.
Import Py Neonix Frame.

(** The file after the two-channel signal is written under the Segment
    [s], and the same file with the second array cut off from the
    shared Section. *)
Definition signal_file : File :=
  match @write_analogsignal plain_units two_channel_signal "/b/segments/s"
          (new_io one_segment_file) with
  | Ok (_, io) => nix_file io
  | _ => one_segment_file
  end.

Definition tampered_file : File :=
  with_h_data_arrays signal_file (upd (da_set_metadata None) 1 (h_data_arrays signal_file)).


End SignalMetadataSample.

(** ** Properties and metadata pointers under the writer *)

Section Quiet.
Import Py Neonix Frame.
Context `{Quantities}.

Lemma quiet_refl (f : File) : quiet f f.
Proof. by split_and!. Qed.

Lemma quiet_trans (f1 f2 f3 : File) : quiet f1 f2 → quiet f2 f3 → quiet f1 f3.
Proof.
  intros (M1 & L1 & P1) (M2 & L2 & P2). split_and!.
  - intros r m E. by apply M2, M1.
  - lia.
  - intros i Hi. rewrite P2 by lia. by apply P1.
Qed.

Lemma props_grow_nil (s : nat) (f : File) : props_grow s [] f f.
Proof.
  split_and!; try done. unfold props_at.
  destruct (h_sections f !! s); simpl; [by rewrite app_nil_r | done].
Qed.

Lemma props_grow_trans (s : nat) (ps1 ps2 : list Property) (f1 f2 f3 : File) :
  props_grow s ps1 f1 f2 → props_grow s ps2 f2 f3 → props_grow s (ps1 ++ ps2) f1 f3.
Proof.
  intros (M1 & L1 & O1 & P1) (M2 & L2 & O2 & P2). split_and!.
  - intros r. by rewrite M2, M1.
  - congruence.
  - intros i Hi. by rewrite O2, O1.
  - rewrite P2, P1. destruct (props_at f1 s); simpl; [by rewrite app_assoc | done].
Qed.

Lemma props_grow_quiet (s : nat) (ps : list Property) (f f' : File) :
  props_grow s ps f f' →
  (∀ r m, obj_metadata f r = Some (Some m) → obj_metadata f' r = Some (Some m)) ∧
  length (h_sections f) ≤ length (h_sections f').
Proof. intros (M & L & _). split; [intros r m; by rewrite M | lia]. Qed.

Lemma props_at_alter (g : Section → Section) (s i : nat) (h : list Section) :
  sec_props <$> alter g s h !! i =
  if decide (i = s) then sec_props ∘ g <$> h !! i else sec_props <$> h !! i.
Proof.
  destruct (decide (i = s)) as [->|Hne].
  - rewrite list_lookup_alter_eq. by destruct (h !! s).
  - by rewrite list_lookup_alter_ne.
Qed.

Lemma props_grow_create_property (s : nat) (nm : string) (x : option prop_value) (f : File) :
  props_grow s
    (match x with
     | Some (Single v) => [{| prop_name := nm; prop_values := [v] |}]
     | Some (Multi vs) => [{| prop_name := nm; prop_values := vs |}]
     | None => []
     end) f (create_property s nm x f).
Proof.
  destruct x as [[v|vs]|]; [| |apply props_grow_nil].
  all: unfold props_grow, props_at, create_property; cbn [h_sections with_h_sections with_sections];
    unfold upd; split_and!.
  all: try (by intros []).
  all: try (by rewrite length_alter).
  all: try (intros i Hi; rewrite props_at_alter; by rewrite decide_False).
  all: rewrite props_at_alter, decide_True by done; by destruct (h_sections f !! s).
Qed.

Lemma property_spec (s : nat) (nm : string) (v : pyval) (io : NixIO) (u : unit) (io' : NixIO) :
  property s nm v io = Ok (u, io') →
  props_grow s (encode nm v) (nix_file io) (nix_file io').
Proof.
  intros E. unfold property, to_value in E.
  apply bind_Ok in E as (x & io1 & Hx & E).
  apply bind_Ok in Hx as (u1 & io2 & Hw & Hx). minv Hw. minv Hx. minv E.
  cbn [nix_file with_file]. unfold encode. rewrite Hx.
  apply props_grow_create_property.
Qed.

Lemma add_annotations_spec (annots : list (string * pyval)) (s : nat) (io : NixIO)
    (u : unit) (io' : NixIO) :
  _add_annotations annots s io = Ok (u, io') →
  props_grow s (annots ≫= λ kv, encode (fst kv) (snd kv)) (nix_file io) (nix_file io').
Proof.
  unfold _add_annotations. revert io.
  induction annots as [|[k v] annots IH]; intros io E; simpl in E.
  - apply ret_Ok in E as [_ ->]. apply props_grow_nil.
  - apply bind_Ok in E as (u1 & io1 & Hp & E). apply property_spec in Hp.
    apply IH in E. simpl. by eapply props_grow_trans.
Qed.

Lemma props_grow_force_created_at (r : obj_ref) (t : Z) (s : nat) (f : File) :
  props_grow s [] f (force_created_at r t f).
Proof.
  destruct r as [i|i|i|i|i]; try apply props_grow_nil.
  - split_and!; try done.
    + intros [j|j|j|j|j]; try done. simpl. unfold upd. by apply lookup_alter_proj.
    + unfold props_at. simpl. destruct (h_sections f !! s); simpl; by rewrite ?app_nil_r.
  - split_and!; try done.
    + intros [j|j|j|j|j]; try done. simpl. unfold upd. by apply lookup_alter_proj.
    + unfold props_at. simpl. destruct (h_sections f !! s); simpl; by rewrite ?app_nil_r.
Qed.

(** [_write_attr_annotations] on an object that has its Section. *)
Lemma write_attr_annotations_present (r : obj_ref) (attr : nix_attrs) (path : string)
    (s : nat) (io : NixIO) (u : unit) (io' : NixIO) :
  obj_metadata (nix_file io) r = Some (Some s) →
  _write_attr_annotations r attr path io = Ok (u, io') →
  props_grow s (attr_props attr) (nix_file io) (nix_file io').
Proof.
  intros Hmd E. unfold _write_attr_annotations in E.
  apply bind_Ok in E as (u1 & io1 & H1 & E).
  assert (props_grow s [] (nix_file io) (nix_file io1)) as G1.
  { destruct (a_created_at attr).
    - minv H1. cbn [nix_file with_file]. apply props_grow_force_created_at.
    - minv H1. apply props_grow_nil. }
  assert (∀ io2 ps, props_grow s ps (nix_file io) (nix_file io2) →
            obj_metadata (nix_file io2) r = Some (Some s)) as Hkeep.
  { intros io2 ps (M & _). by rewrite M. }
  apply bind_Ok in E as (u2 & io2 & H2 & E).
  assert (props_grow s (from_option (λ dt, encode "file_datetime" (PDatetime dt)) []
                          (a_file_datetime attr)) (nix_file io1) (nix_file io2)) as G2.
  { destruct (a_file_datetime attr) as [dt|]; simpl.
    - apply bind_Ok in H2 as (s' & io3 & Hs & H2).
      rewrite (get_or_init_metadata_present r path io1 s) in Hs by eauto.
      injection Hs as <- <-. by apply property_spec in H2.
    - minv H2. apply props_grow_nil. }
  pose proof (props_grow_trans _ _ _ _ _ _ G1 G2) as G12.
  apply bind_Ok in E as (u3 & io3 & H3 & E).
  assert (props_grow s (from_option (λ fo, encode "file_origin" (PStr fo)) []
                          (a_file_origin attr)) (nix_file io2) (nix_file io3)) as G3.
  { destruct (a_file_origin attr) as [fo|]; simpl.
    - apply bind_Ok in H3 as (s' & io4 & Hs & H3).
      rewrite (get_or_init_metadata_present r path io2 s) in Hs by eauto.
      injection Hs as <- <-. by apply property_spec in H3.
    - minv H3. apply props_grow_nil. }
  pose proof (props_grow_trans _ _ _ _ _ _ G12 G3) as G123.
  assert (props_grow s (from_option (λ l, l ≫= λ kv, encode (fst kv) (snd kv)) []
                          (a_annotations attr)) (nix_file io3) (nix_file io')) as G4.
  { destruct (a_annotations attr) as [l|]; simpl.
    - apply bind_Ok in E as (s' & io4 & Hs & E).
      rewrite (get_or_init_metadata_present r path io3 s) in Hs by eauto.
      injection Hs as <- <-. by apply add_annotations_spec in E.
    - minv E. apply props_grow_nil. }
  pose proof (props_grow_trans _ _ _ _ _ _ G123 G4) as G.
  simpl in G. unfold attr_props. by rewrite <- app_assoc in G.
Qed.


Lemma fmap_lookup_app_l {A B} (p : A → B) (h l : list A) (j : nat) (y : B) :
  p <$> h !! j = Some y → p <$> (h ++ l) !! j = Some y.
Proof.
  intros E. destruct (h !! j) as [x|] eqn:Ex; [|done].
  by rewrite (lookup_app_l_Some _ _ _ _ Ex).
Qed.

Ltac md_fwd :=
  repeat first [ assumption
               | rewrite lookup_alter_proj by done
               | apply fmap_lookup_app_l ].

(** The primitive changes that are quiet. *)
Ltac quiet_prim :=
  unfold set_definition, force_created_at, create_section, create_source,
    create_data_array, create_multi_tag, create_group;
  repeat match goal with
         | |- context [match ?x with _ => _ end] => destruct x
         end;
  (split_and!;
   [ intros [j|j|j|j|j] m E; simpl in *; unfold upd; md_fwd
   | simpl; unfold upd; rewrite ?length_alter, ?length_app; simpl; lia
   | intros i Hi; unfold props_at; simpl; unfold upd;
     rewrite ?lookup_alter_proj by done; rewrite ?lookup_app_l by done; done ]).

Ltac qt := repeat pres_step quiet_refl quiet_trans quiet_prim.

Lemma quiet_get_or_init_metadata_depth (depth : nat) (obj : obj_ref) (path : string) :
  preserves quiet (get_or_init_metadata_depth depth obj path).
Proof.
  revert obj path. induction depth as [|depth IH]; intros obj path; [apply preserves_raise|].
  intros io s io' E. simpl in E.
  apply bind_Ok in E as (f & io0 & Hf & E). minv Hf.
  apply bind_Ok in E as (md & io0 & Hmd & E). minv Hmd.
  destruct md as [s0|]; [minv E; apply quiet_refl|].
  apply bind_Ok in E as (pm & io1 & Hpm & E).
  assert (quiet (nix_file io) (nix_file io1)) as Q1.
  { revert Hpm. match goal with |- ?m ?st = _ → _ =>
      assert (preserves quiet m) as Hk by qt; apply Hk end. }
  apply bind_Ok in E as (f' & io2 & Hf' & E). minv Hf'.
  apply bind_Ok in E as (nm & io2 & Hnm & E). minv Hnm.
  apply bind_Ok in E as (ty & io2 & Hty & E). minv Hty.
  apply bind_Ok in E as (s1 & io2 & Hs1 & E). minv Hs1.
  apply bind_Ok in E as (u & io2 & Hu & E). minv Hu. minv E.
  cbn [nix_file with_file].
  assert (quiet (nix_file io)
            (snd (create_section pm nm (ty +:+ ".metadata") (nix_file io1)))) as Q2.
  { eapply quiet_trans; [exact Q1|]. quiet_prim. }
  destruct Q2 as (M2 & L2 & P2). split_and!.
  - intros r m E. rewrite obj_metadata_set_metadata. case_decide as Hr; [|by apply M2].
    subst r. congruence.
  - by destruct obj.
  - intros i Hi. rewrite <- P2 by done. by destruct obj.
Qed.
#[local] Hint Resolve quiet_get_or_init_metadata_depth : preserved.

(** On an object without metadata the call makes a new, empty Section
    and points the object to it. *)
Lemma get_or_init_metadata_new (obj : obj_ref) (path : string) (io : NixIO)
    (s : nat) (io' : NixIO) :
  obj_metadata (nix_file io) obj = Some None →
  _get_or_init_metadata obj path io = Ok (s, io') →
  length (h_sections (nix_file io)) ≤ s ∧
  obj_metadata (nix_file io') obj = Some (Some s) ∧
  props_at (nix_file io') s = Some [].
Proof.
  intros Hnone E. unfold _get_or_init_metadata, recursion_limit in E.
  cbn [get_or_init_metadata_depth] in E.
  apply bind_Ok in E as (f & io0 & Hf & E). minv Hf.
  apply bind_Ok in E as (md & io0 & Hmd & E). minv Hmd.
  rewrite Hnone in Hmd. injection Hmd as <-.
  apply bind_Ok in E as (pm & io1 & Hpm & E).
  assert (quiet (nix_file io) (nix_file io1)) as Q1.
  { revert Hpm. match goal with |- ?m ?st = _ → _ =>
      assert (preserves quiet m) as Hk by qt; apply Hk end. }
  apply bind_Ok in E as (f' & io2 & Hf' & E). minv Hf'.
  apply bind_Ok in E as (nm & io2 & Hnm & E). minv Hnm.
  apply bind_Ok in E as (ty & io2 & Hty & E). minv Hty.
  apply bind_Ok in E as (s1 & io2 & Hs1 & E). minv Hs1.
  apply bind_Ok in E as (u & io2 & Hu & E). minv Hu. minv E.
  cbn [nix_file with_file]. destruct Q1 as (_ & L1 & _).
  set (f1 := nix_file io1) in *.
  assert (fst (create_section pm nm (ty +:+ ".metadata") f1) = length (h_sections f1)) as Hs
    by (by destruct pm).
  split_and!.
  - rewrite Hs. done.
  - rewrite obj_metadata_set_metadata, decide_True by done.
    assert (is_Some (obj_metadata (snd (create_section pm nm (ty +:+ ".metadata") f1)) obj))
      as [x Hx].
    { rewrite md_create_section. apply obj_metadata_is_Some. eauto. }
    by rewrite Hx.
  - rewrite Hs. unfold props_at.
    assert (h_sections (set_metadata obj (length (h_sections f1))
                          (snd (create_section pm nm (ty +:+ ".metadata") f1)))
            = h_sections (snd (create_section pm nm (ty +:+ ".metadata") f1))) as ->
      by (by destruct obj).
    destruct pm; simpl; unfold upd.
    + rewrite (lookup_alter_proj sec_props) by done. by rewrite list_lookup_middle.
    + by rewrite list_lookup_middle.
Qed.

Lemma quiet_get_or_init_metadata (obj : obj_ref) (path : string) :
  preserves quiet (_get_or_init_metadata obj path).
Proof. apply quiet_get_or_init_metadata_depth. Qed.

Lemma quiet_create_data_array (b : nat) (nm ty : string) (data : ndarray) :
  preserves quiet (create (create_data_array b nm ty data)).
Proof. qt. Qed.

Lemma quiet_create_multi_tag (b : nat) (nm ty : string) (pos : nat) :
  preserves quiet (create (create_multi_tag b nm ty pos)).
Proof. qt. Qed.

End Quiet.

(** ** The times of a spike train *)

Section SpikeTrainTimes.
Import Py Neonix Frame.
Context `{Quantities}.

Lemma tag_parents_spec (k : neo_kind) (b : neo_base) (path : string) (io : NixIO)
    (pg : obj_ref) (pb : nat) (attr : nix_attrs) (io1 : NixIO) :
  tag_parents k b path io = Ok (pg, pb, attr, io1) →
  io1 = io ∧ ∃ names, _neo_attr_to_nix (plain k b) names = Ok attr.
Proof.
  intros E. unfold tag_parents in E.
  apply bind_Ok in E as (pg' & io0 & Hpg & E). minv Hpg.
  apply bind_Ok in E as (bp & io0 & Hbp & E).
  unfold block_path_of in Hbp. destruct (split "/" path !! 1); [|done]. minv Hbp.
  apply bind_Ok in E as (pbo & io0 & Hpbo & E). minv Hpbo.
  apply bind_Ok in E as (f & io0 & Hf & E). minv Hf.
  apply bind_Ok in E as (sibs & io0 & Hsibs & E). minv Hsibs.
  apply bind_Ok in E as (attr' & io0 & Hattr & E). minv Hattr.
  apply bind_Ok in E as (pb' & io0 & Hpb & E).
  destruct pbo; try done. simpl in Hpb. minv Hpb.
  apply ret_Ok in E as [[= -> -> ->] ->]. eauto.
Qed.

Lemma attr_props_plain (k : neo_kind) (b : neo_base) (names : list string) (attr : nix_attrs) :
  _neo_attr_to_nix (plain k b) names = Ok attr →
  attr_props attr = own_props b ∧ a_created_at attr = None.
Proof.
  unfold _neo_attr_to_nix. destruct (nix_name _ _ _); [|done]. intros [= <-].
  unfold attr_props, own_props. simpl. split; [|by destruct k].
  assert ((if match k with Block | Segment => true | _ => false end
           then None else None) = (None : option datetime)) as -> by (by destruct k).
  simpl. f_equal.
  - by destruct (truthy_str (file_origin b)).
  - by destruct (annotations b).
Qed.


Lemma created_data_array (b : nat) (nm ty : string) (data : ndarray) (io : NixIO)
    (w : nat) (io' : NixIO) :
  create (create_data_array b nm ty data) io = Ok (w, io') →
  quiet (nix_file io) (nix_file io') ∧
  obj_metadata (nix_file io') (RDataArray w) = Some None ∧
  length (h_sections (nix_file io')) = length (h_sections (nix_file io)).
Proof.
  intros E. pose proof (quiet_create_data_array _ _ _ _ _ _ _ E) as Q.
  minv E. split_and!; [done| |done].
  cbn [nix_file with_file]. simpl. by rewrite list_lookup_middle.
Qed.

Lemma created_multi_tag (b : nat) (nm ty : string) (pos : nat) (io : NixIO)
    (t : nat) (io' : NixIO) :
  create (create_multi_tag b nm ty pos) io = Ok (t, io') →
  quiet (nix_file io) (nix_file io') ∧
  obj_metadata (nix_file io') (RMultiTag t) = Some None ∧
  length (h_sections (nix_file io')) = length (h_sections (nix_file io)).
Proof.
  intros E. pose proof (quiet_create_multi_tag _ _ _ _ _ _ _ E) as Q.
  minv E. split_and!; [done| |done].
  cbn [nix_file with_file]. simpl. by rewrite list_lookup_middle.
Qed.

(** Updates of a DataArray or MultiTag that leave its pointer alone,
    and appending to a Group, change no pointer and no Section. *)
Lemma still_da_update (d : nat) (g : DataArray → DataArray) (s : nat) (io : NixIO)
    (u : unit) (io' : NixIO) :
  (∀ o, da_metadata (g o) = da_metadata o) →
  da_update d g io = Ok (u, io') → props_grow s [] (nix_file io) (nix_file io').
Proof.
  intros Hg E. unfold da_update in E. minv E. cbn [nix_file with_file].
  split_and!; try done.
  - intros [j|j|j|j|j]; try done. simpl. unfold upd. by apply lookup_alter_proj.
  - unfold props_at. simpl. destruct (h_sections _ !! s); simpl; by rewrite ?app_nil_r.
Qed.

Lemma still_mt_update (t : nat) (g : MultiTag → MultiTag) (s : nat) (io : NixIO)
    (u : unit) (io' : NixIO) :
  (∀ o, mt_metadata (g o) = mt_metadata o) →
  mt_update t g io = Ok (u, io') → props_grow s [] (nix_file io) (nix_file io').
Proof.
  intros Hg E. unfold mt_update in E. minv E. cbn [nix_file with_file].
  split_and!; try done.
  - intros [j|j|j|j|j]; try done. simpl. unfold upd. by apply lookup_alter_proj.
  - unfold props_at. simpl. destruct (h_sections _ !! s); simpl; by rewrite ?app_nil_r.
Qed.

Lemma still_group_append_multi_tag (pg : obj_ref) (t s : nat) (io : NixIO)
    (u : unit) (io' : NixIO) :
  group_append_multi_tag pg t io = Ok (u, io') →
  props_grow s [] (nix_file io) (nix_file io').
Proof.
  intros E. unfold group_append_multi_tag in E. destruct pg; try done. minv E.
  cbn [nix_file with_file]. split_and!; try done.
  - intros [j|j|j|j|j]; try done. simpl. unfold upd. by apply lookup_alter_proj.
  - unfold props_at. simpl. destruct (h_sections _ !! s); simpl; by rewrite ?app_nil_r.
Qed.

Lemma props_grow_still (s : nat) (f f' : File) :
  props_grow s [] f f' → props_at f' s = props_at f s.
Proof.
  intros (_ & _ & _ & P). rewrite P. destruct (props_at f s); simpl; by rewrite ?app_nil_r.
Qed.

(** Pointing a DataArray to a Section changes that pointer only. *)
Lemma da_set_metadata_spec (d md : nat) (io : NixIO) (u : unit) (io' : NixIO) :
  is_Some (obj_metadata (nix_file io) (RDataArray d)) →
  da_update d (da_set_metadata (Some md)) io = Ok (u, io') →
  obj_metadata (nix_file io') (RDataArray d) = Some (Some md) ∧
  (∀ r, r ≠ RDataArray d → obj_metadata (nix_file io') r = obj_metadata (nix_file io) r) ∧
  h_sections (nix_file io') = h_sections (nix_file io).
Proof.
  intros [x Hx] E. unfold da_update in E. minv E. cbn [nix_file with_file].
  split_and!; [| |done].
  - simpl in *. unfold upd. rewrite list_lookup_alter_eq.
    by destruct (h_data_arrays (nix_file io) !! d).
  - intros [j|j|j|j|j] Hne; try done. simpl. unfold upd.
    rewrite list_lookup_alter_ne; [done | congruence].
Qed.

(** The waveforms of a spike train are written without touching the
    Section of its MultiTag. *)
Lemma write_waveforms_keeps (sptr : spiketrain) (pb t : nat) (attr : nix_attrs)
    (path : string) (s : nat) (io : NixIO) (u : unit) (io' : NixIO) :
  s < length (h_sections (nix_file io)) →
  obj_metadata (nix_file io) (RMultiTag t) = Some (Some s) →
  write_waveforms sptr pb t attr path io = Ok (u, io') →
  props_at (nix_file io') s = props_at (nix_file io) s ∧
  obj_metadata (nix_file io') (RMultiTag t) = Some (Some s).
Proof.
  intros Hs Ht E. unfold write_waveforms in E.
  destruct (st_waveforms sptr) as [[wf_data wf_units]|]; [|by minv E].
  apply bind_Ok in E as (w & io1 & Hw & E).
  apply created_data_array in Hw as (Q1 & Hw1 & L1).
  apply bind_Ok in E as (u2 & io2 & H2 & E). apply (still_da_update _ _ s) in H2 as G2; [|done].
  apply bind_Ok in E as (u3 & io3 & H3 & E). apply (still_mt_update _ _ s) in H3 as G3; [|done].
  apply bind_Ok in E as (u4 & io4 & H4 & E). apply (still_da_update _ _ s) in H4 as G4; [|done].
  apply bind_Ok in E as (u5 & io5 & H5 & E). apply (still_da_update _ _ s) in H5 as G5; [|done].
  apply bind_Ok in E as (u6 & io6 & H6 & E). apply (still_da_update _ _ s) in H6 as G6; [|done].
  pose proof (props_grow_trans _ _ _ _ _ _ G2 G3) as G.
  pose proof (props_grow_trans _ _ _ _ _ _ G G4) as G'. clear G.
  pose proof (props_grow_trans _ _ _ _ _ _ G' G5) as G. clear G'.
  pose proof (props_grow_trans _ _ _ _ _ _ G G6) as G'. clear G G2 G3 G4 G5 G6.
  simpl in G'. pose proof (props_grow_still _ _ _ G') as P6. destruct G' as (M6 & L6 & _ & _).
  apply bind_Ok in E as (f & io7 & Hf & E). minv Hf.
  apply bind_Ok in E as (wn & io7 & Hwn & E). minv Hwn.
  apply bind_Ok in E as (md & io7 & Hmd & E).
  pose proof (quiet_get_or_init_metadata _ _ _ _ _ Hmd) as Q7.
  apply get_or_init_metadata_new in Hmd as (Lmd & Pmd & _); [|by rewrite M6].
  apply bind_Ok in E as (u8 & io8 & H8 & E).
  apply da_set_metadata_spec in H8 as (P8 & O8 & S8); [|by rewrite Pmd].
  destruct Q1 as (QM1 & QL1 & QP1). destruct Q7 as (QM7 & QL7 & QP7).
  assert (props_at (nix_file io8) s = props_at (nix_file io) s) as Hprops.
  { unfold props_at. rewrite S8. fold (props_at (nix_file io7) s).
    rewrite QP7 by lia. rewrite P6. by apply QP1. }
  assert (obj_metadata (nix_file io8) (RMultiTag t) = Some (Some s)) as Hptr.
  { rewrite O8 by done. apply QM7. rewrite M6. by apply QM1. }
  destruct (st_left_sweep sptr) as [ls|]; [|by minv E].
  destruct (truthy_quantity ls); [|by minv E].
  apply bind_Ok in E as (f' & io9 & Hf' & E). minv Hf'.
  apply bind_Ok in E as (a & io9 & Ha & E). minv Ha.
  apply bind_Ok in E as (wmd & io9 & Hwmd & E). minv Hwmd.
  apply property_spec in E as (M9 & L9 & O9 & P9).
  simpl in P8. rewrite Ha in P8. simpl in P8. injection P8 as P8.
  rewrite P8 in Hwmd. injection Hwmd as ->.
  split; [|by rewrite M9]. rewrite O9; [done|]. lia.
Qed.

Lemma props_at_live (f : File) (s : nat) (ps : list Property) :
  props_at f s = Some ps → s < length (h_sections f).
Proof.
  unfold props_at. intros E. apply lookup_lt_is_Some.
  destruct (h_sections f !! s); [eauto | done].
Qed.

(** The times of a spike train in its Section.  When [write_spiketrain]
    returns the MultiTag it made, that MultiTag points to a Section
    that did not exist before the call, and the Section holds exactly:
    the [file_origin] of the spike train when it is a non-empty string,
    then one property for each annotation [_to_value] can store, then
    [t_start] rescaled to the unit of the times, only when the start is
    not zero, and last [t_stop], always.  Writing the waveforms and
    their [left_sweep] adds nothing to this Section. *)
Theorem write_spiketrain_times (sptr : spiketrain) (path : string) (io : NixIO)
    (t : nat) (io' : NixIO) :
  write_spiketrain sptr path io = Ok (t, io') →
  ∃ s, obj_metadata (nix_file io') (RMultiTag t) = Some (Some s) ∧
       length (h_sections (nix_file io)) ≤ s ∧
       props_at (nix_file io') s = Some (spiketrain_props sptr).
Proof.
  intros E. unfold write_spiketrain in E.
  apply bind_Ok in E as (parents & io0 & Hp & E). destruct parents as [[pg pb] attr].
  apply tag_parents_spec in Hp as (-> & names & Hattr).
  apply attr_props_plain in Hattr as (Hprops & _).
  apply bind_Ok in E as (d & io1 & H1 & E).
  apply created_data_array in H1 as ((_ & L1 & _) & _ & _).
  apply bind_Ok in E as (u2 & io2 & H2 & E).
  apply (still_da_update _ _ 0) in H2 as (_ & L2 & _); [|done].
  apply bind_Ok in E as (t' & io3 & H3 & E).
  apply created_multi_tag in H3 as (_ & M3 & L3).
  apply bind_Ok in E as (u4 & io4 & H4 & E).
  apply (still_group_append_multi_tag _ _ 0) in H4 as (M4 & L4 & _).
  apply bind_Ok in E as (u5 & io5 & H5 & E).
  apply (still_mt_update _ _ 0) in H5 as (M5 & L5 & _); [|done].
  apply bind_Ok in E as (f & io6 & Hf & E). minv Hf.
  apply bind_Ok in E as (nm & io6 & Hnm & E). minv Hnm.
  apply bind_Ok in E as (u7 & io7 & H7 & E). minv H7. cbn [nix_file] in *.
  apply bind_Ok in E as (s & io8 & H8 & E).
  apply get_or_init_metadata_new in H8 as (L8 & M8 & P8); [|by rewrite M5, M4].
  apply bind_Ok in E as (u9 & io9 & H9 & E).
  apply (write_attr_annotations_present _ _ _ s) in H9 as G9; [|done].
  apply bind_Ok in E as (u10 & io10 & H10 & E).
  assert (props_grow s
            (if truthy_quantity (st_t_start sptr)
             then [{| prop_name := "t_start";
                      prop_values := [VFloat (rescale (st_t_start sptr)
                                        (_get_units (qa_units (st_times sptr)) false))] |}]
             else []) (nix_file io9) (nix_file io10)) as G10.
  { destruct (truthy_quantity (st_t_start sptr)).
    - by apply property_spec in H10.
    - minv H10. apply props_grow_nil. }
  apply bind_Ok in E as (u11 & io11 & H11 & E).
  apply property_spec in H11 as G11.
  pose proof (props_grow_trans _ _ _ _ _ _ (props_grow_trans _ _ _ _ _ _ G9 G10) G11)
    as (M & L & _ & P).
  rewrite P8, Hprops in P. simpl in P.
  apply bind_Ok in E as (u12 & io12 & H12 & E).
  apply write_waveforms_keeps with (s := s) in H12 as (P12 & M12);
    [| by eapply props_at_live | by rewrite M].
  minv E. cbn [nix_file] in L8. exists s. split_and!; [done | lia |].
  rewrite P12, P. unfold spiketrain_props. by rewrite <- app_assoc.
Qed.

End SpikeTrainTimes.

Section SpikeTrainSample.
Import Py Neonix Frame.

(** Sample data: a spike train that starts at zero, with one annotation,
    waveforms and a left sweep. *)
Definition sample_spiketrain : spiketrain :=
  {| st_base := {| ident := 3; name := Some "st"; description := None;
                   file_origin := Some "rec.dat";
                   annotations := [("electrode", PNumber (NInt 4))] |};
     st_times := {| magnitudes := [1%Q; 2%Q]; qa_units := "ms" |};
     st_t_start := {| magnitude := 0%Q; q_units := "ms" |};
     st_t_stop := {| magnitude := 5%Q; q_units := "ms" |};
     st_waveforms := Some ([[[1%Q; 2%Q]]; [[3%Q; 4%Q]]], "mV");
     st_sampling_period := {| magnitude := 1%Q; q_units := "ms" |};
     st_left_sweep := Some {| magnitude := 2%Q; q_units := "ms" |} |}.

Lemma write_spiketrain_times_witness :
  ∃ t io' s,
    @write_spiketrain plain_units sample_spiketrain "/b/segments/s"
      (new_io one_segment_file) = Ok (t, io') ∧
    obj_metadata (nix_file io') (RMultiTag t) = Some (Some s) ∧
    props_at (nix_file io') s = Some (@spiketrain_props plain_units sample_spiketrain).
Proof.
  destruct (@write_spiketrain plain_units sample_spiketrain "/b/segments/s"
              (new_io one_segment_file)) as [[t io']| |] eqn:E; [|by vm_compute in E..].
  destruct (@write_spiketrain_times plain_units _ _ _ _ _ E) as (s & Hm & _ & Hp).
  exists t, io', s. split; [done|]. split; [exact Hm | exact Hp].
Defined.

End SpikeTrainSample.

(** ** The spike trains of a Unit *)

Section MapKept.
Import Py Neonix Frame.

Lemma keeps_map_ret {A} (a : A) : keeps_map (ret a).
Proof. intros io b io' E. by apply ret_Ok in E as [_ ->]. Qed.

Lemma keeps_map_raise {A} (e : exn) : keeps_map (raise (A := A) e).
Proof. by intros io b io' E. Qed.

Lemma keeps_map_lift {A} (o : outcome A) : keeps_map (lift o).
Proof. intros io b io' E. by apply lift_Ok in E as [_ ->]. Qed.

Lemma keeps_map_live {A} (o : option A) : keeps_map (Neonix.live o).
Proof. intros io b io' E. by apply live_Ok in E as [_ ->]. Qed.

Lemma keeps_map_get_file : keeps_map get_file.
Proof. intros io b io' E. by apply get_file_Ok in E as [_ ->]. Qed.

Lemma keeps_map_warn (w : list string) : keeps_map (warn w).
Proof. intros io b io' E. by apply warn_Ok in E as ->. Qed.

Lemma keeps_map_get_object_at (path : string) : keeps_map (_get_object_at path).
Proof. intros io b io' E. by apply get_object_at_Ok in E as [_ ->]. Qed.

Lemma keeps_map_modify_file (g : File → File) : keeps_map (modify_file g).
Proof. intros io b io' E. by apply modify_file_Ok in E as ->. Qed.

Lemma keeps_map_create (g : File → nat * File) : keeps_map (create g).
Proof. intros io b io' E. by apply create_Ok in E as [_ ->]. Qed.

Lemma keeps_map_bind {A B} (m : M A) (k : A → M B) :
  keeps_map m → (∀ a, keeps_map (k a)) → keeps_map (bind m k).
Proof.
  intros Hm Hk io b io' E. apply bind_Ok in E as (a & io1 & Ha & E).
  rewrite (Hk _ _ _ _ E). by eapply Hm.
Qed.

Lemma keeps_map_for_each {A} (l : list A) (body : A → M unit) :
  (∀ x, keeps_map (body x)) → keeps_map (for_each l body).
Proof.
  intros Hb. induction l as [|x l IH]; simpl; [apply keeps_map_ret|].
  apply keeps_map_bind; [apply Hb | done].
Qed.

End MapKept.

(** One step of a proof that a method leaves the object map alone. *)
Ltac km_step :=
  lazymatch goal with
  | |- Frame.keeps_map (Neonix.ret _) => apply keeps_map_ret
  | |- Frame.keeps_map (Neonix.raise _) => apply keeps_map_raise
  | |- Frame.keeps_map (Neonix.lift _) => apply keeps_map_lift
  | |- Frame.keeps_map (Neonix.live _) => apply keeps_map_live
  | |- Frame.keeps_map Neonix.get_file => apply keeps_map_get_file
  | |- Frame.keeps_map (Neonix.warn _) => apply keeps_map_warn
  | |- Frame.keeps_map (Neonix._get_object_at _) => apply keeps_map_get_object_at
  | |- Frame.keeps_map (Neonix.modify_file _) => apply keeps_map_modify_file
  | |- Frame.keeps_map (Neonix.create _) => apply keeps_map_create
  | |- Frame.keeps_map (Neonix.bind _ _) => apply keeps_map_bind; [|intros ?]
  | |- Frame.keeps_map (Neonix.for_each _ _) => apply keeps_map_for_each; intros ?
  | |- Frame.keeps_map (match ?x with _ => _ end) => destruct x
  | |- Frame.keeps_map (if ?x then _ else _) => destruct x
  | |- Frame.keeps_map _ => solve [auto 1 with preserved nocore]
  end.

Section UnitLinks.
Import Py Neonix Frame.

Lemma keeps_map_get_or_init_metadata_depth (depth : nat) (obj : obj_ref) (path : string) :
  keeps_map (get_or_init_metadata_depth depth obj path).
Proof.
  revert obj path. induction depth as [|depth IH]; intros obj path; simpl;
    [apply keeps_map_raise|]. repeat km_step.
Qed.
#[local] Hint Resolve keeps_map_get_or_init_metadata_depth : preserved.

Lemma keeps_map_property (s : nat) (nm : string) (v : pyval) : keeps_map (property s nm v).
Proof. unfold property, to_value. repeat km_step. Qed.
#[local] Hint Resolve keeps_map_property : preserved.

Lemma keeps_map_write_attr_annotations (r : obj_ref) (attr : nix_attrs) (path : string) :
  keeps_map (_write_attr_annotations r attr path).
Proof.
  unfold _write_attr_annotations, _add_annotations, _get_or_init_metadata. repeat km_step.
Qed.

Lemma sources_grow_refl (f : File) : sources_grow f f.
Proof. intros r srcs E. by exists srcs. Qed.

Lemma sources_grow_trans (f1 f2 f3 : File) :
  sources_grow f1 f2 → sources_grow f2 f3 → sources_grow f1 f3.
Proof.
  intros G1 G2 r srcs E. apply G1 in E as (s2 & E & I1).
  apply G2 in E as (s3 & E & I2). exists s3. split; [done|]. set_solver.
Qed.

(** The primitive changes that touch no [sources]. *)
Ltac sg_prim :=
  unfold set_definition, set_metadata, force_created_at, create_property,
    create_section, create_source;
  repeat match goal with
         | |- context [match ?x with _ => _ end] => destruct x
         end;
  let Hs := fresh "Hs" in
  intros [?|?|?|?|?] ? Hs; simpl in Hs |- *; try done; unfold upd;
  eexists; (split; [|done]);
  rewrite ?lookup_alter_proj by done; done.

Ltac sg := repeat pres_step sources_grow_refl sources_grow_trans sg_prim.

Lemma sources_grow_get_or_init_metadata_depth (depth : nat) (obj : obj_ref) (path : string) :
  preserves sources_grow (get_or_init_metadata_depth depth obj path).
Proof.
  revert obj path. induction depth as [|depth IH]; intros obj path; simpl;
    [apply preserves_raise|]. sg.
Qed.
#[local] Hint Resolve sources_grow_get_or_init_metadata_depth : preserved.

Lemma sources_grow_write_attr_annotations (r : obj_ref) (attr : nix_attrs) (path : string) :
  preserves sources_grow (_write_attr_annotations r attr path).
Proof.
  unfold _write_attr_annotations, _add_annotations, _get_or_init_metadata, property. sg.
Qed.

Lemma sources_append_spec (r : obj_ref) (s : nat) (io : NixIO) (u : unit) (io' : NixIO) :
  sources_append r (RSource s) io = Ok (u, io') →
  _object_map io' = _object_map io ∧
  sources_grow (nix_file io) (nix_file io') ∧
  (∃ j, r = RMultiTag j ∨ r = RDataArray j) ∧
  ∀ srcs, sources_of (nix_file io) r = Some srcs →
    sources_of (nix_file io') r = Some (srcs ++ [s]).
Proof.
  intros E. unfold sources_append, mt_update, da_update in E.
  destruct r as [j|j|j|j|j]; try done; minv E; cbn [nix_file with_file _object_map];
    (split_and!; [done | | eauto |]).
  - intros [k|k|k|k|k] srcs E; simpl in *; try done; [|by exists srcs].
    unfold upd. rewrite list_lookup_alter. case_decide as Hk; [subst k|by exists srcs].
    destruct (h_data_arrays (nix_file io) !! j) as [x|]; [|done]. injection E as <-.
    exists (da_sources x ++ [s]). split; [done | set_solver].
  - intros srcs E. simpl in *. unfold upd. rewrite list_lookup_alter_eq.
    destruct (h_data_arrays (nix_file io) !! j) as [x|]; [|done]. by injection E as <-.
  - intros [k|k|k|k|k] srcs E; simpl in *; try done; [by exists srcs|].
    unfold upd. rewrite list_lookup_alter. case_decide as Hk; [subst k|by exists srcs].
    destruct (h_multi_tags (nix_file io) !! j) as [x|]; [|done]. injection E as <-.
    exists (mt_sources x ++ [s]). split; [done | set_solver].
  - intros srcs E. simpl in *. unfold upd. rewrite list_lookup_alter_eq.
    destruct (h_multi_tags (nix_file io) !! j) as [x|]; [|done]. by injection E as <-.
Qed.

(** The loop over the spike trains of the Unit. *)
Lemma link_loop (parent : obj_ref) (ns : nat) (sts : list mapped) (io : NixIO)
    (u : unit) (io' : NixIO) :
  for_each sts (λ nix_st,
    match nix_st with
    | MObj t => bind (sources_append t parent) (λ _, sources_append t (RSource ns))
    | _ => raise AttributeError
    end) io = Ok (u, io') →
  _object_map io' = _object_map io ∧
  sources_grow (nix_file io) (nix_file io') ∧
  ∀ m, m ∈ sts →
    ∃ r p, m = MObj r ∧ parent = RSource p ∧
           (∃ j, r = RMultiTag j ∨ r = RDataArray j) ∧
           ∀ srcs, sources_of (nix_file io) r = Some srcs →
             ∃ srcs', sources_of (nix_file io') r = Some srcs' ∧
                      srcs ⊆ srcs' ∧ p ∈ srcs' ∧ ns ∈ srcs'.
Proof.
  revert io. induction sts as [|m sts IH]; intros io E; simpl in E.
  { apply ret_Ok in E as [_ ->]. split_and!; [done | apply sources_grow_refl|].
    intros m Hm. by apply elem_of_nil in Hm. }
  apply bind_Ok in E as (u1 & io1 & Hb & E).
  destruct m as [r| |]; try done.
  apply bind_Ok in Hb as (u2 & io2 & Ha & Hb).
  destruct parent as [p|p|p|p|p]; try (by destruct r).
  apply sources_append_spec in Ha as (Ma & Ga & Kr & Sa).
  apply sources_append_spec in Hb as (Mb & Gb & _ & Sb).
  apply IH in E as (Mr & Gr & Hr).
  split_and!.
  - congruence.
  - eapply sources_grow_trans; [|exact Gr]. by eapply sources_grow_trans.
  - intros m Hm. apply elem_of_cons in Hm as [->|Hm].
    + exists r, p. split_and!; try done. intros srcs E.
      apply Sa in E. apply Sb in E. apply Gr in E as (srcs' & E & I).
      exists srcs'. split; [done|]. set_solver.
    + destruct (Hr m Hm) as (r' & p' & -> & [= <-] & Kr' & Hs).
      exists r', p. split_and!; try done. intros srcs E.
      apply Ga in E as (s1 & E & I1). apply Gb in E as (s2 & E & I2).
      apply Hs in E as (srcs' & E & I3 & Hp & Hn).
      exists srcs'. split; [done|]. set_solver.
Qed.

Lemma get_mapped_objects_spec (ks : list map_key) (io : NixIO) (sts : list mapped)
    (io' : NixIO) :
  _get_mapped_objects ks io = Ok (sts, io') →
  io' = io ∧ ∀ k, k ∈ ks → ∃ m, m ∈ sts ∧ map_get (_object_map io) k = Some m.
Proof.
  unfold _get_mapped_objects. revert sts io'.
  induction ks as [|k ks IH]; intros sts io' E; simpl in E.
  { apply ret_Ok in E as [_ ->]. split; [done|]. intros k Hk. by apply elem_of_nil in Hk. }
  apply bind_Ok in E as (m & io1 & Hm & E). unfold _get_mapped_object in Hm.
  destruct (map_get (_object_map io) k) as [m'|] eqn:Ek; [|done]. injection Hm as -> ->.
  apply bind_Ok in E as (ms & io2 & Hms & E). apply IH in Hms as (-> & Hms).
  apply ret_Ok in E as [-> ->]. split; [done|].
  intros k' Hk'. apply elem_of_cons in Hk' as [->|Hk'].
  - exists m. split; [apply elem_of_cons; by left | done].
  - destruct (Hms k' Hk') as (m' & Hin & Hget). exists m'.
    split; [apply elem_of_cons; by right | done].
Qed.


End UnitLinks.

Section UnitLinksSample.
Import Py Neonix Frame.

(** Sample data: the sample spike train written to the Segment, a
    channel group [r] in the Block, and a Unit with that spike train. *)
Definition unit_io : NixIO :=
  match @write_spiketrain plain_units sample_spiketrain "/b/segments/s"
          (new_io one_segment_file) with
  | Ok (_, io) =>
      with_file io (snd (create_source (RBlock 0) "r" "neo.recordingchannelgroup"
                           (nix_file io)))
  | _ => new_io one_segment_file
  end.

Definition sample_unit : unit_ :=
  {| un_base := named_base 4 "u"; un_spiketrains := [3] |}.


End UnitLinksSample.

(** ** Names of signals in the [neo2nix] file *)

Section SignalNames.
Import Py Neo2nix Stored.

Lemma prefix_cons (a b : ascii) (s t : string) :
  String.prefix (String a s) (String b t)
  = if ascii_dec a b then String.prefix s t else false.
Proof. done. Qed.

Lemma prefix_atat_app (n rest : string) :
  String.prefix "@@" (n +:+ String " " rest) = String.prefix "@@" n.
Proof.
  destruct n as [|a [|b n]]; [done| |].
  - change (String a "" +:+ ?r) with (String a r). rewrite !prefix_cons.
    by destruct (ascii_dec "@" a).
  - change (String a (String b n) +:+ ?r) with (String a (String b (n +:+ r))).
    rewrite !prefix_cons. destruct (ascii_dec "@" a), (ascii_dec "@" b); try done.
    by destruct n.
Qed.

Lemma split_head_nix_name (n rest : string) :
  split_head "@@" (n +:+ String " " (String "@" (String "@" rest)))
  = if occurs "@@" n then split_head "@@" n else n +:+ " ".
Proof.
  induction n as [|a n IH].
  - change ("" +:+ ?r) with r. by destruct rest.
  - pose proof (prefix_atat_app (String a n) (String "@" (String "@" rest))) as P.
    rewrite str_app_cons in P |- *. cbn [split_head occurs]. rewrite P.
    destruct (String.prefix "@@" (String a n)); [done|].
    rewrite IH. simpl. by destruct (occurs "@@" n).
Qed.

Lemma split_head_occurs (s : string) :
  occurs "@@" s = true → String.length (split_head "@@" s) < String.length s.
Proof.
  induction s as [|a s IH]; [done|]. cbn [occurs split_head].
  destruct (String.prefix "@@" (String a s)); simpl; [lia|].
  intros E. apply IH in E. lia.
Qed.

Lemma length_substring_le (m : nat) (s : string) :
  String.length (String.substring 0 m s) ≤ String.length s.
Proof.
  revert m. induction s as [|a s IH]; intros [|m]; simpl; try lia.
  specialize (IH m). lia.
Qed.

Lemma length_drop_last_char (s : string) :
  String.length (drop_last_char s) ≤ String.length s.
Proof. apply length_substring_le. Qed.

Lemma substring_app_front (s t : string) :
  String.substring 0 (String.length s) (s +:+ t) = s.
Proof.
  induction s as [|a s IH]; [by destruct t|].
  rewrite str_app_cons. cbn [String.length String.substring]. by rewrite IH.
Qed.

Lemma drop_last_char_snoc (s : string) : drop_last_char (s +:+ " ") = s.
Proof.
  unfold drop_last_char. rewrite str_length_app. cbn [String.length].
  replace (String.length s + 1 - 1) with (String.length s) by lia.
  apply substring_app_front.
Qed.


End SignalNames.

(** ** Get-or-create of the metadata Sections *)

Section GetOrCreate.
Import Py Neo2nix Stored.

#[local] Ltac step H a io1 Ha :=
  apply bind_returns in H as (a & io1 & Ha & H).

Lemma find_section_named (d : File) (ids : list nat) (key : string) (i : nat) :
  find_section d ids key = Some i →
  ∃ s, h_sections d !! i = Some s ∧ sec_name s = key.
Proof.
  unfold find_section. intros E. apply find_some in E as [_ E].
  destruct (h_sections d !! i) as [s|]; [|done]. exists s. split; [done|].
  by apply String.eqb_eq.
Qed.

Lemma find_section_app (d : File) (ids ids' : list nat) (key : string) :
  find_section d (ids ++ ids') key
  = match find_section d ids key with
    | Some i => Some i
    | None => find_section d ids' key
    end.
Proof.
  unfold find_section. induction ids as [|i ids IH]; simpl; [done|].
  by destruct (from_option _ _ _).
Qed.

(** Looking a name up gives the same on a file that has the old
    Sections under their old names. *)
Lemma find_section_names (d d' : File) (ids : list nat) (key : string) :
  (∀ i s, h_sections d !! i = Some s →
     ∃ s', h_sections d' !! i = Some s' ∧ sec_name s' = sec_name s) →
  Forall (λ c, c < length (h_sections d)) ids →
  find_section d' ids key = find_section d ids key.
Proof.
  intros Hn. unfold find_section. induction 1 as [|i ids Hi Hids IH]; simpl; [done|].
  apply lookup_lt_is_Some in Hi as [s Hs]. destruct (Hn i s Hs) as (s' & Hs' & Hname).
  rewrite Hs, Hs'. simpl. rewrite Hname. by destruct (String.eqb (sec_name s) key).
Qed.

Lemma find_section_single (d : File) (i : nat) (s : Section) :
  h_sections d !! i = Some s → find_section d [i] (sec_name s) = Some i.
Proof. intros Hs. unfold find_section. simpl. rewrite Hs. simpl. by rewrite String.eqb_refl. Qed.

(** What [parent.create_section] does to the Sections of the file. *)
Lemma create_section_spec (p : nat) (nm ty : string) (d : File) :
  p < length (h_sections d) →
  let i := length (h_sections d) in
  let d' := snd (create_section (Some p) nm ty d) in
  fst (create_section (Some p) nm ty d) = i ∧
  (∀ j s, h_sections d !! j = Some s →
     ∃ s', h_sections d' !! j = Some s' ∧ sec_name s' = sec_name s ∧
           sec_sections s' = sec_sections s ++ (if decide (j = p) then [i] else [])) ∧
  (∃ s', h_sections d' !! i = Some s' ∧ sec_name s' = nm ∧ sec_sections s' = []) ∧
  length (h_sections d') = S i.
Proof.
  intros Hp. simpl. split_and!; [done| | |].
  - intros j s Hs. rewrite list_lookup_alter. case_decide as Hj.
    + subst j. rewrite lookup_app_l by done. rewrite Hs. simpl.
      eexists. split; [done|]. simpl. by rewrite decide_True.
    + rewrite lookup_app_l by (by eapply lookup_lt_Some). rewrite Hs.
      exists s. rewrite decide_False by done. by rewrite app_nil_r.
  - rewrite list_lookup_alter_ne by lia. rewrite list_lookup_middle by done. by eexists.
  - rewrite length_alter, length_app. simpl. lia.
Qed.

Lemma create_returns (g : File → nat * File) (io : NixIO) (i : nat) (io' : NixIO) :
  create g io = (Ok i, io') →
  ∃ d, disk io = Some d ∧ i = fst (g d) ∧ disk io' = Some (snd (g d)) ∧
       io' = {| disk := Some (snd (g d)); readonly := readonly io; f := f io;
                open_handles := open_handles io; opened := opened io |}.
Proof.
  unfold create. destruct (disk io) as [d|]; [|done]. destruct (g d) as [j d'] eqn:E.
  intros [= <- <-]. exists d. by rewrite E.
Qed.

(** The call when both Sections are there. *)
Lemma get_or_create_section_found (root : nat) (g n : string) (io : NixIO) (d : File)
    (sroot sgrp : Section) (gsec t : nat) :
  disk io = Some d →
  h_sections d !! root = Some sroot →
  find_section d (sec_sections sroot) (g +:+ "s") = Some gsec →
  h_sections d !! gsec = Some sgrp →
  find_section d (sec_sections sgrp) n = Some t →
  get_or_create_section root g n io = (Ok t, io).
Proof.
  intros Hd Hr Hg Hs Ht. unfold get_or_create_section, bind, get_file.
  rewrite Hd, Hr. simpl. rewrite Hg. simpl. rewrite Hd, Hs. simpl. by rewrite Ht.
Qed.

Lemma ret_returns {A} (a b : A) (io io' : NixIO) :
  ret a io = (Ok b, io') → b = a ∧ io' = io.
Proof. by intros [= -> ->]. Qed.

(** Get-or-create is idempotent.  On a file whose Sections list only
    Sections of the file as children, when [get_or_create_section]
    returns a Section, that Section carries the name asked for, and the
    same call made again returns the same Section and changes nothing:
    what the first call created, the second finds. *)
Theorem get_or_create_section_again (root : nat) (g n : string) (io : NixIO) (t : nat)
    (io1 : NixIO) :
  (∀ d, disk io = Some d → sections_live d) →
  get_or_create_section root g n io = (Ok t, io1) →
  get_or_create_section root g n io1 = (Ok t, io1) ∧
  ∃ d1 s, disk io1 = Some d1 ∧ h_sections d1 !! t = Some s ∧ sec_name s = n.
Proof.
  intros Hlive E. pose proof E as E0. unfold get_or_create_section in E.
  step E d io0 Hd. apply get_file_returns in Hd as [Hd ->]. specialize (Hlive d Hd).
  step E sroot io0 Hr.
  destruct (h_sections d !! root) as [sr|] eqn:Hroot; [|done].
  apply ret_returns in Hr as [-> ->].
  pose proof (lookup_lt_Some _ _ _ Hroot) as Lroot.
  step E gsec io2 Hg.
  destruct (find_section d (sec_sections sr) (g +:+ "s")) as [g0|] eqn:Hfg.
  - apply ret_returns in Hg as [-> ->].
    step E d' io3 Hd'. apply get_file_returns in Hd' as [Hd' ->].
    rewrite Hd in Hd'. injection Hd' as <-.
    step E sgrp io3 Hgr.
    destruct (h_sections d !! g0) as [sg|] eqn:Hgrp; [|done].
    apply ret_returns in Hgr as [-> ->].
    pose proof (lookup_lt_Some _ _ _ Hgrp) as Lgrp.
    destruct (find_section d (sec_sections sg) n) as [t0|] eqn:Hft.
    + apply ret_returns in E as [-> ->]. split; [done|].
      apply find_section_named in Hft as (s & Hs & Hn). by exists d, s.
    + apply create_returns in E as (d0 & Hd0 & -> & Hd1 & ->).
      rewrite Hd in Hd0. injection Hd0 as <-.
      destruct (create_section_spec g0 n g d Lgrp) as (Hi & Hold & (sn & Hsn & Hname & _) & _).
      rewrite Hi. split.
      * destruct (Hold root sr Hroot) as (sr' & Hsr' & _ & Hch).
        destruct (Hold g0 sg Hgrp) as (sg' & Hsg' & _ & Hch').
        rewrite decide_True in Hch' by done.
        eapply get_or_create_section_found; [done | exact Hsr' | | exact Hsg' |].
        -- rewrite Hch, find_section_app.
           rewrite (find_section_names d) by naive_solver. by rewrite Hfg.
        -- rewrite Hch', find_section_app.
           rewrite (find_section_names d) by naive_solver. rewrite Hft.
           pose proof (find_section_single _ _ _ Hsn) as F. by rewrite Hname in F.
      * by exists (snd (create_section (Some g0) n g d)), sn.
  - apply create_returns in Hg as (d0 & Hd0 & -> & Hd1 & ->).
    rewrite Hd in Hd0. injection Hd0 as <-.
    destruct (create_section_spec root (g +:+ "s") g d Lroot)
      as (Hi1 & Hold1 & (s1 & Hs1 & Hname1 & Hch1) & Hlen1).
    rewrite Hi1 in *. set (d1 := snd (create_section (Some root) (g +:+ "s") g d)) in *.
    step E d' io3 Hd'. apply get_file_returns in Hd' as [Hd' ->].
    cbn [disk] in Hd'. injection Hd' as <-.
    step E sgrp io3 Hgr. rewrite Hs1 in Hgr. apply ret_returns in Hgr as [-> ->].
    rewrite Hch1 in E. cbn [find_section List.find] in E.
    apply create_returns in E as (d0 & Hd0 & -> & Hd2 & ->).
    cbn [disk] in Hd0. injection Hd0 as <-.
    assert (length (h_sections d) < length (h_sections d1)) as L1 by lia.
    destruct (create_section_spec (length (h_sections d)) n g d1 L1)
      as (Hi2 & Hold2 & (s2 & Hs2 & Hname2 & _) & _).
    rewrite Hi2. set (d2 := snd (create_section (Some (length (h_sections d))) n g d1)) in *.
    destruct (Hold1 root sr Hroot) as (sr1 & Hsr1 & Hn1 & Hc1).
    rewrite decide_True in Hc1 by done.
    destruct (Hold2 root sr1 Hsr1) as (sr2 & Hsr2 & Hn2 & Hc2).
    rewrite decide_False, app_nil_r in Hc2 by lia.
    destruct (Hold2 _ s1 Hs1) as (sg2 & Hsg2 & Hng2 & Hcg2).
    rewrite decide_True in Hcg2 by done. rewrite Hch1 in Hcg2. simpl in Hcg2.
    split.
    * eapply get_or_create_section_found; [done | exact Hsr2 | | exact Hsg2 |].
      -- rewrite Hc2, Hc1, find_section_app.
         rewrite (find_section_names d).
         ++ rewrite Hfg. pose proof (find_section_single _ _ _ Hsg2) as F.
            by rewrite Hng2, Hname1 in F.
         ++ intros i s Hs. destruct (Hold1 i s Hs) as (s' & Hs' & Hn' & _).
            destruct (Hold2 i s' Hs') as (s'' & Hs'' & Hn'' & _).
            exists s''. split; [done | congruence].
         ++ by eapply Hlive.
      -- rewrite Hcg2. pose proof (find_section_single _ _ _ Hs2) as F.
         by rewrite Hname2 in F.
    * by exists d2, s2.
Qed.

End GetOrCreate.

Section GetOrCreateSample.
Import Py Neo2nix Stored.

Lemma get_or_create_section_again_witness :
  (∀ d, disk one_section_io = Some d → sections_live d) ∧
  ∃ t io1, get_or_create_section 0 "segment" "s1" one_section_io = (Ok t, io1) ∧
           get_or_create_section 0 "segment" "s1" io1 = (Ok t, io1).
Proof.
  assert (∀ d, disk one_section_io = Some d → sections_live d) as Hlive.
  { intros d [= <-] i s Hs. destruct i; simpl in Hs; [|done]. injection Hs as <-. constructor. }
  split; [exact Hlive|].
  destruct (get_or_create_section 0 "segment" "s1" one_section_io) as [[t| |] io1] eqn:E;
    [|by vm_compute in E..].
  exists t, io1. split; [done|].
  exact (proj1 (get_or_create_section_again _ _ _ _ _ _ Hlive E)).
Defined.

End GetOrCreateSample.
